(** * Access log: entry/exit ledger with retention and remote archival

    A shallow embedding of [logger.py] (first variant) and [logger2.py]
    (second variant), and the proofs of their lifecycle, listing and
    retention properties.

    Conventions of the embedding.
    - Text is the byte string ([string]) of its UTF-8 encoding; SQLite
      compares TEXT with the BINARY collation, that is byte-wise, which is
      [String.compare].  [str.strip] removes the white space of Unicode,
      and the f-strings pad by characters, not bytes.  [str.lower] and the
      [\d] of [strptime] are modelled on ASCII text: the embedding lowers
      the letters A to Z and reads the digits 0 to 9 only, and a theorem
      that says what [lower] returns or that [strptime] refuses a text
      asks for the text to be ASCII ([Text.is_ascii]).
    - The [access_log] table is the list of its rows in scan order together
      with the AUTOINCREMENT counter kept in [sqlite_sequence].  The
      PRIMARY KEY constraint is the predicate [pk_unique]; [init_db]
      establishes it and every operation keeps it.  A statement takes at
      most [Store.max_variable_number] host parameters: the DELETE of
      [delete_old_records] has one per identifier, and the theorems about
      it ask for a list within that limit.  The largest rowid of SQLite
      is not modelled.
    - Every function of the programs is a computation in the state monad
      [M] over a [world]: the database, the configuration file, the clock,
      the operator's console and the remote server.  The clock, the
      operator and the server are oracles carried by the world: the
      operator always answers, and the configuration file, when it
      exists, holds a JSON object.  The server's answer is a response or a
      [RequestException]; the request header is sent in Latin-1, and the
      theorem about [send_to_server] asks for an API key in ASCII.
    - The clock reads dates of the years 1000 to 9999, where [%Y] is four
      digits.
    - Both programs run [init_db] before anything else, so the operations
      are modelled on a database in which the table exists.
    - The dictionary [DEFAULT_CONFIG] of logger2.py is a constant in
      [Logger2]: that is its value in a process until [configure_server]
      runs without a configuration file.  [Process] carries the
      dictionary as state, with the functions that read or write it, and
      the menu; the [while True] loops of the two menus run for a given
      number of turns. *)

From Stdlib Require Import ZArith List String Ascii Bool Lia.
From Stdlib Require Import Sorting.Sorted Sorting.Permutation.
From Stdlib Require Import Structures.OrderedTypeEx.
Import ListNotations.

Local Open Scope list_scope.
Local Open Scope string_scope.
Local Open Scope Z_scope.

Set Implicit Arguments.

(* ===================================================================== *)
(** * Text *)
(* ===================================================================== *)

Module Text.

(** The white space of [str.isspace], which [str.strip()] removes.  In
    the ASCII range: HT, LF, VT, FF, CR, FS, GS, RS, US and the space. *)
Definition is_space (c : ascii) : bool :=
  let n := N_of_ascii c in
  ((9 <=? n)%N && (n <=? 13)%N) || ((28 <=? n)%N && (n <=? 32)%N).

(** In two bytes of UTF-8: U+0085 (C2 85) and U+00A0 (C2 A0). *)
Definition is_space2 (c1 c2 : ascii) : bool :=
  let b := N_of_ascii c2 in
  (N_of_ascii c1 =? 194)%N && ((b =? 133)%N || (b =? 160)%N).

(** In three bytes: U+1680 (E1 9A 80), U+2000 to U+200A (E2 80 80 to
    E2 80 8A), U+2028, U+2029 and U+202F (E2 80 A8, A9 and AF), U+205F
    (E2 81 9F) and U+3000 (E3 80 80). *)
Definition is_space3 (c1 c2 c3 : ascii) : bool :=
  let a := N_of_ascii c1 in
  let b := N_of_ascii c2 in
  let c := N_of_ascii c3 in
  ((a =? 225)%N && (b =? 154)%N && (c =? 128)%N)
  || ((a =? 226)%N && (b =? 128)%N
      && (((128 <=? c)%N && (c <=? 138)%N)
          || (c =? 168)%N || (c =? 169)%N || (c =? 175)%N))
  || ((a =? 226)%N && (b =? 129)%N && (c =? 159)%N)
  || ((a =? 227)%N && (b =? 128)%N && (c =? 128)%N).

Fixpoint lstrip (s : string) : string :=
  match s with
  | EmptyString => EmptyString
  | String c1 s1 =>
      if is_space c1 then lstrip s1 else
      match s1 with
      | EmptyString => s
      | String c2 s2 =>
          if is_space2 c1 c2 then lstrip s2 else
          match s2 with
          | EmptyString => s
          | String c3 s3 => if is_space3 c1 c2 c3 then lstrip s3 else s
          end
      end
  end.

(** The text is white space from end to end. *)
Fixpoint all_space (s : string) : bool :=
  match s with
  | EmptyString => true
  | String c1 s1 =>
      if is_space c1 then all_space s1 else
      match s1 with
      | EmptyString => false
      | String c2 s2 =>
          if is_space2 c1 c2 then all_space s2 else
          match s2 with
          | EmptyString => false
          | String c3 s3 => is_space3 c1 c2 c3 && all_space s3
          end
      end
  end.

Fixpoint rstrip (s : string) : string :=
  match s with
  | EmptyString => EmptyString
  | String c s' => if all_space s then EmptyString else String c (rstrip s')
  end.

(** [s.strip()] *)
Definition strip (s : string) : string := rstrip (lstrip s).

(** Every character of the text is ASCII. *)
Fixpoint is_ascii (s : string) : bool :=
  match s with
  | EmptyString => true
  | String c s' => (N_of_ascii c <? 128)%N && is_ascii s'
  end.

(** [len(s)], the number of characters: the bytes of the encoding that
    are not continuation bytes (80 to BF). *)
Definition is_continuation (c : ascii) : bool :=
  let n := N_of_ascii c in (128 <=? n)%N && (n <=? 191)%N.

Fixpoint len (s : string) : nat :=
  match s with
  | EmptyString => O
  | String c s' => if is_continuation c then len s' else S (len s')
  end.

Definition lower_char (c : ascii) : ascii :=
  let n := N_of_ascii c in
  if ((65 <=? n)%N && (n <=? 90)%N)%bool then ascii_of_N (n + 32) else c.

(** [s.lower()] of an ASCII text.  A character beyond ASCII is left as
    it is: whether the result is one of the words the programs compare it
    with ("yes", "denied"; the stored "allowed") does not depend on that,
    since those words are ASCII without a k, and the only character
    beyond ASCII that [str.lower] turns into ASCII is the Kelvin sign,
    into k. *)
Fixpoint lower (s : string) : string :=
  match s with
  | EmptyString => EmptyString
  | String c s' => String (lower_char c) (lower s')
  end.

(** [c * n] for a one-character string [c]. *)
Fixpoint repeat_char (c : ascii) (n : nat) : string :=
  match n with
  | O => EmptyString
  | S n' => String c (repeat_char c n')
  end.

(** The format specification [{s:w}] of an f-string applied to a [str]:
    left-aligned, padded with spaces up to [w] characters. *)
Definition ljust (w : nat) (s : string) : string :=
  s ++ repeat_char " " (w - len s).

Definition digit_char (n : Z) : ascii :=
  match n with
  | 0 => "0" | 1 => "1" | 2 => "2" | 3 => "3" | 4 => "4"
  | 5 => "5" | 6 => "6" | 7 => "7" | 8 => "8" | _ => "9"
  end%char.

(** Zero-padded decimal fields of [strftime]. *)
Definition dec2 (n : Z) : string :=
  String (digit_char (n / 10 mod 10)) (String (digit_char (n mod 10)) EmptyString).

Definition dec4 (n : Z) : string :=
  String (digit_char (n / 1000 mod 10))
    (String (digit_char (n / 100 mod 10)) (dec2 n)).

(** One decimal digit. *)
Definition dec1 (n : Z) : string := String (digit_char n) EmptyString.

(** [str(n)] for a natural number [n] (used for [len(...)]). *)
Fixpoint dec_digits (fuel : nat) (n : Z) (acc : string) : string :=
  match fuel with
  | O => acc
  | S fuel' =>
      let acc' := String (digit_char (n mod 10)) acc in
      if n / 10 =? 0 then acc' else dec_digits fuel' (n / 10) acc'
  end.

Definition str_of_nat (n : nat) : string :=
  dec_digits (S n) (Z.of_nat n) EmptyString.

(** The newline character, for the [\n] of the print calls. *)
Definition nl : string := String (ascii_of_nat 10) EmptyString.

(** SQLite's ordering of a nullable TEXT column: NULL sorts before every
    text value, text values compare byte-wise. *)
Definition compare_nullable (a b : option string) : comparison :=
  match a, b with
  | None, None => Eq
  | None, Some _ => Lt
  | Some _, None => Gt
  | Some x, Some y => String.compare x y
  end.

End Text.

Arguments Text.strip : simpl never.
Arguments Text.lower : simpl never.
Arguments Text.ljust : simpl never.
Arguments Text.repeat_char : simpl never.
Arguments Text.str_of_nat : simpl never.

(* ===================================================================== *)
(** * The clock and the calendar ([datetime]) *)
(* ===================================================================== *)

Module Calendar.

(** A reading of [datetime.datetime.now()] (microseconds are never
    used by the programs). *)
Record datetime : Type := mkDatetime {
  year : Z; month : Z; day : Z; hour : Z; minute : Z; second : Z
}.

Definition is_leap (y : Z) : bool :=
  (y mod 4 =? 0) && (negb (y mod 100 =? 0) || (y mod 400 =? 0)).

Definition days_before_year (y : Z) : Z :=
  let y1 := y - 1 in y1 * 365 + y1 / 4 - y1 / 100 + y1 / 400.

Definition DAYS_IN_MONTH (m : Z) : Z :=
  match m with
  | 1 => 31 | 2 => 28 | 3 => 31 | 4 => 30 | 5 => 31 | 6 => 30
  | 7 => 31 | 8 => 31 | 9 => 30 | 10 => 31 | 11 => 30 | 12 => 31
  | _ => -1
  end.

Definition DAYS_BEFORE_MONTH (m : Z) : Z :=
  match m with
  | 1 => 0 | 2 => 31 | 3 => 59 | 4 => 90 | 5 => 120 | 6 => 151
  | 7 => 181 | 8 => 212 | 9 => 243 | 10 => 273 | 11 => 304 | 12 => 334
  | _ => -1
  end.

Definition days_in_month (y m : Z) : Z :=
  if (m =? 2) && is_leap y then 29 else DAYS_IN_MONTH m.

Definition days_before_month (y m : Z) : Z :=
  DAYS_BEFORE_MONTH m + (if (2 <? m) && is_leap y then 1 else 0).

(** [date.toordinal()]: 0001-01-01 is day 1. *)
Definition ymd2ord (y m d : Z) : Z :=
  days_before_year y + days_before_month y m + d.

Definition DI400Y : Z := 146097.
Definition DI100Y : Z := 36524.
Definition DI4Y : Z := 1461.

(** [date.fromordinal(n)] *)
Definition ord2ymd (n : Z) : Z * Z * Z :=
  let n := n - 1 in
  let n400 := n / DI400Y in
  let n := n mod DI400Y in
  let y := n400 * 400 + 1 in
  let n100 := n / DI100Y in
  let n := n mod DI100Y in
  let n4 := n / DI4Y in
  let n := n mod DI4Y in
  let n1 := n / 365 in
  let n := n mod 365 in
  let y := y + n100 * 100 + n4 * 4 + n1 in
  if (n1 =? 4) || (n100 =? 4) then (y - 1, 12, 31)
  else
    let leapyear := (n1 =? 3) && (negb (n4 =? 24) || (n100 =? 3)) in
    let m := Z.shiftr (n + 50) 5 in
    let preceding :=
      DAYS_BEFORE_MONTH m + (if (2 <? m) && leapyear then 1 else 0) in
    if n <? preceding then
      let m' := m - 1 in
      let preceding' :=
        preceding - (DAYS_IN_MONTH m' + (if (m' =? 2) && leapyear then 1 else 0)) in
      (y, m', n - preceding' + 1)
    else (y, m, n - preceding + 1).

Definition toordinal (d : datetime) : Z := ymd2ord (year d) (month d) (day d).

(** [d - datetime.timedelta(days=k)]: the date moves back [k] days, the
    time of day is kept. *)
Definition minus_days (d : datetime) (k : Z) : datetime :=
  let '(y, m, dd) := ord2ymd (toordinal d - k) in
  mkDatetime y m dd (hour d) (minute d) (second d).

(** [d.weekday()]: Monday is 0. *)
Definition weekday (d : datetime) : Z := (toordinal d + 6) mod 7.

(** [d.replace(day=1)] *)
Definition replace_day_1 (d : datetime) : datetime :=
  mkDatetime (year d) (month d) 1 (hour d) (minute d) (second d).

(** [d.strftime("%Y-%m-%d")] *)
Definition strftime_date (d : datetime) : string :=
  Text.dec4 (year d) ++ "-" ++ Text.dec2 (month d) ++ "-" ++ Text.dec2 (day d).

(** [d.strftime("%H:%M:%S")] *)
Definition strftime_time (d : datetime) : string :=
  Text.dec2 (hour d) ++ ":" ++ Text.dec2 (minute d) ++ ":" ++ Text.dec2 (second d).

(** [d.strftime("%Y-%m-%d %H:%M:%S")] *)
Definition strftime_datetime (d : datetime) : string :=
  strftime_date d ++ " " ++ strftime_time d.

(** ** [datetime.datetime.strptime(s, "%Y-%m-%d")]

    The format is compiled to the regular expression
    [(?P<Y>\d\d\d\d)-(?P<m>1[0-2]|0[1-9]|[1-9])-(?P<d>3[0-1]|[1-2]\d|0[1-9]|[1-9]| [1-9])]
    which is matched at the start of the text; text left over after the
    match, and a day that the month does not have, are both a
    [ValueError]. *)

Definition in_range (lo hi : ascii) (c : ascii) : bool :=
  ((N_of_ascii lo <=? N_of_ascii c)%N && (N_of_ascii c <=? N_of_ascii hi)%N)%bool.

(** [\d] on ASCII text: the digits 0 to 9.  (On other text [\d] also
    takes the decimal digits of other scripts.) *)
Definition is_digit (c : ascii) : bool := in_range "0" "9" c.

Definition digit_val (c : ascii) : Z := Z.of_N (N_of_ascii c) - 48.

(** A piece of the regular expression: the value it captures and the
    text after it. *)
Definition piece : Type := string -> option (Z * string).

(** [\d\d\d\d] *)
Definition re_Y : piece := fun s =>
  match s with
  | String a (String b (String c (String d rest))) =>
      if is_digit a && is_digit b && is_digit c && is_digit d
      then Some (digit_val a * 1000 + digit_val b * 100
                 + digit_val c * 10 + digit_val d, rest)
      else None
  | _ => None
  end.

(** Two characters, the first in [l1..h1] and the second in [l2..h2]. *)
Definition re_two (l1 h1 l2 h2 : ascii) : piece := fun s =>
  match s with
  | String a (String b rest) =>
      if in_range l1 h1 a && in_range l2 h2 b
      then Some (digit_val a * 10 + digit_val b, rest)
      else None
  | _ => None
  end.

(** One character in [l..h]. *)
Definition re_one (l h : ascii) : piece := fun s =>
  match s with
  | String a rest => if in_range l h a then Some (digit_val a, rest) else None
  | _ => None
  end.

(** A space and one character in [l..h]. *)
Definition re_space_one (l h : ascii) : piece := fun s =>
  match s with
  | String " " (String a rest) =>
      if in_range l h a then Some (digit_val a, rest) else None
  | _ => None
  end.

(** [1[0-2]|0[1-9]|[1-9]] *)
Definition re_m : list piece :=
  [re_two "1" "1" "0" "2"; re_two "0" "0" "1" "9"; re_one "1" "9"].

(** [3[0-1]|[1-2]\d|0[1-9]|[1-9]| [1-9]] *)
Definition re_d : list piece :=
  [re_two "3" "3" "0" "1"; re_two "1" "2" "0" "9"; re_two "0" "0" "1" "9";
   re_one "1" "9"; re_space_one "1" "9"].

(** Ordered alternation with backtracking: the first alternative after
    which the rest of the expression [k] matches. *)
Fixpoint alt {R : Type} (ps : list piece) (k : Z -> string -> option R)
    (s : string) : option R :=
  match ps with
  | [] => None
  | p :: ps' =>
      match p s with
      | Some (v, rest) =>
          match k v rest with
          | Some r => Some r
          | None => alt ps' k s
          end
      | None => alt ps' k s
      end
  end.

Definition lit (c : ascii) {R : Type} (k : string -> option R) (s : string)
    : option R :=
  match s with
  | String a rest => if Ascii.eqb a c then k rest else None
  | EmptyString => None
  end.

(** [format_regex.match(data_string)]: the captured fields and the text
    after the match. *)
Definition regex_Ymd (s : string) : option (Z * Z * Z * string) :=
  match re_Y s with
  | Some (y, s1) =>
      lit "-" (alt re_m (fun m =>
        lit "-" (alt re_d (fun d rest => Some (y, m, d, rest))))) s1
  | None => None
  end.

(** [None] stands for the [ValueError]. *)
Definition strptime_Ymd (s : string) : option datetime :=
  match regex_Ymd s with
  | Some (y, m, d, rest) =>
      if negb (String.eqb rest EmptyString) then None
      else if (1 <=? y) && (y <=? 9999) && (1 <=? m) && (m <=? 12)
              && (1 <=? d) && (d <=? days_in_month y m)
      then Some (mkDatetime y m d 0 0 0)
      else None
  | None => None
  end.

(** ** What [strptime] takes, in words

    The texts that spell a date as year, month and day: the year in four
    digits, the month and the day in two digits or, below ten, in one; a
    day below ten also as a space and one digit. *)

Definition month_spellings (m : Z) : list string :=
  if m <? 10 then [Text.dec2 m; Text.dec1 m] else [Text.dec2 m].

Definition day_spellings (d : Z) : list string :=
  if d <? 10 then [Text.dec2 d; Text.dec1 d; " " ++ Text.dec1 d] else [Text.dec2 d].

Definition spellings (dt : datetime) : list string :=
  flat_map (fun ms =>
    map (fun ds => Text.dec4 (year dt) ++ "-" ++ ms ++ "-" ++ ds)
        (day_spellings (day dt)))
    (month_spellings (month dt)).

(** The time of day [strptime] gives. *)
Definition midnight (dt : datetime) : Prop :=
  hour dt = 0 /\ minute dt = 0 /\ second dt = 0.

(** ** The calendar, for the proofs *)

(** The last step of [ord2ymd]: month and day from the day of the year. *)
Definition month_day (leapyear : bool) (n : Z) : Z * Z :=
  let m := Z.shiftr (n + 50) 5 in
  let preceding :=
    DAYS_BEFORE_MONTH m + (if (2 <? m) && leapyear then 1 else 0) in
  if n <? preceding then
    let m' := m - 1 in
    let preceding' :=
      preceding - (DAYS_IN_MONTH m' + (if (m' =? 2) && leapyear then 1 else 0)) in
    (m', n - preceding' + 1)
  else (m, n - preceding + 1).

(** A date of the calendar, in the years [datetime] has. *)
Definition valid_date (y m d : Z) : Prop :=
  1 <= y <= 9999 /\ 1 <= m <= 12 /\ 1 <= d <= days_in_month y m.

Definition valid (d : datetime) : Prop := valid_date (year d) (month d) (day d).

(** The order of the calendar on year, month and day. *)
Definition compare_ymd (y1 m1 d1 y2 m2 d2 : Z) : comparison :=
  match y1 ?= y2 with
  | Eq => match m1 ?= m2 with Eq => d1 ?= d2 | c => c end
  | c => c
  end.

End Calendar.

Arguments Calendar.minus_days : simpl never.
Arguments Calendar.weekday : simpl never.
Arguments Calendar.strftime_date : simpl never.
Arguments Calendar.strftime_time : simpl never.
Arguments Calendar.strftime_datetime : simpl never.
Arguments Calendar.strptime_Ymd : simpl never.

(* ===================================================================== *)
(** * ORDER BY *)
(* ===================================================================== *)

Section OrderBy.

Variable A : Type.
(** [leb a b]: [a] may come before [b] in the output. *)
Variable leb : A -> A -> bool.

Fixpoint insert_sorted (x : A) (l : list A) : list A :=
  match l with
  | [] => [x]
  | y :: l' => if leb x y then x :: l else y :: insert_sorted x l'
  end.

(** The rows of [l] ordered by [leb]; rows that tie keep their scan
    order. *)
Definition order_by (l : list A) : list A := fold_right insert_sorted [] l.

(** [a] may come before [b]. *)
Definition before (a b : A) : Prop := leb a b = true.

End OrderBy.

(** Orders given by a three-way comparison. *)
Section Comparison.

Variable A : Type.

Class Ordering (cmp : A -> A -> comparison) : Prop := {
  cmp_antisym : forall a b, cmp b a = CompOpp (cmp a b);
  cmp_lt_trans : forall a b c, cmp a b = Lt -> cmp b c = Lt -> cmp a c = Lt;
  cmp_eq_left : forall a b c, cmp a b = Eq -> cmp a c = cmp b c
}.

Definition le_of (cmp : A -> A -> comparison) (a b : A) : bool :=
  match cmp a b with Gt => false | _ => true end.

Definition ge_of (cmp : A -> A -> comparison) (a b : A) : bool :=
  match cmp a b with Lt => false | _ => true end.

End Comparison.

Arguments Ordering {A}.

(* ===================================================================== *)
(** * The access_log table *)
(* ===================================================================== *)

Module Store.

Section Schema.

(** The columns after [reason]: none in the first variant ([unit]),
    [synced] in the second ([Z]). *)
Variable X : Type.

(** One row of [access_log].  [name] and [date] are NOT NULL; [result]
    always holds the operator's answer, a [str]; the other TEXT columns
    may be NULL. *)
Record row : Type := mkRow {
  id : Z;
  name : string;
  date : string;
  entry_time : option string;
  exit_time : option string;
  result : string;
  reason : option string;
  extra : X
}.

(** The table and the largest rowid ever used ([sqlite_sequence]). *)
Record table : Type := mkTable {
  rows : list row;
  seq : Z
}.

Definition empty_table : table := mkTable [] 0.

(** PRIMARY KEY: no two rows share an [id]. *)
Definition pk_unique (t : table) : Prop := NoDup (map id (rows t)).

Definition set_exit_time (t : string) (r : row) : row :=
  mkRow (id r) (name r) (date r) (entry_time r) (Some t)
        (result r) (reason r) (extra r).

Definition max_rowid (l : list row) : Z :=
  fold_right (fun r m => Z.max (id r) m) 0 l.

(** The rowid AUTOINCREMENT gives to the next row: one more than the
    largest rowid the table ever held. *)
Definition next_rowid (t : table) : Z :=
  Z.max (seq t) (max_rowid (rows t)) + 1.

(** [INSERT INTO access_log (...) VALUES (...)] *)
Definition sql_insert (values : Z -> row) (t : table) : table :=
  let i := next_rowid t in
  mkTable (rows t ++ [values i]) i.

(** [SELECT ... FROM access_log WHERE p] *)
Definition sql_select (p : row -> bool) (t : table) : list row :=
  filter p (rows t).

(** [UPDATE access_log SET ... WHERE p] *)
Definition sql_update (p : row -> bool) (f : row -> row) (t : table) : table :=
  mkTable (map (fun r => if p r then f r else r) (rows t)) (seq t).

(** [DELETE FROM access_log WHERE p] *)
Definition sql_delete (p : row -> bool) (t : table) : table :=
  mkTable (filter (fun r => negb (p r)) (rows t)) (seq t).

(** [id IN (?, ..., ?)] *)
Definition id_in (ids : list Z) (r : row) : bool :=
  existsb (Z.eqb (id r)) ids.

(** ** The sort keys of the programs' ORDER BY clauses *)

(** [ORDER BY id DESC] *)
Definition by_id_desc (r1 r2 : row) : bool := id r2 <=? id r1.

(** [ORDER BY name] *)
Definition by_name (r1 r2 : row) : bool := String.leb (name r1) (name r2).

Definition compare_date_entry (r1 r2 : row) : comparison :=
  match String.compare (date r1) (date r2) with
  | Eq => Text.compare_nullable (entry_time r1) (entry_time r2)
  | c => c
  end.

(** [ORDER BY date, entry_time] *)
Definition by_date_entry (r1 r2 : row) : bool :=
  match compare_date_entry r1 r2 with Gt => false | _ => true end.

(** [ORDER BY date DESC, entry_time DESC] *)
Definition by_date_entry_desc (r1 r2 : row) : bool :=
  match compare_date_entry r1 r2 with Lt => false | _ => true end.

(** [ORDER BY entry_time DESC] *)
Definition by_entry_desc (r1 r2 : row) : bool :=
  match Text.compare_nullable (entry_time r1) (entry_time r2) with
  | Lt => false
  | _ => true
  end.

(** ** The orders of the listings, in words *)

(** [r1] is not earlier than [r2]: a later date, or the same date and an
    entry time that is not smaller (NULL being the smallest). *)
Definition later_first (r1 r2 : row) : Prop :=
  String.compare (date r1) (date r2) = Gt \/
  (date r1 = date r2 /\
   Text.compare_nullable (entry_time r1) (entry_time r2) <> Lt).

(** [r1] is not later than [r2]: an earlier date, or the same date and an
    entry time that is not larger. *)
Definition earlier_first (r1 r2 : row) : Prop :=
  String.compare (date r1) (date r2) = Lt \/
  (date r1 = date r2 /\
   Text.compare_nullable (entry_time r1) (entry_time r2) <> Gt).

(** The entry time of [r1] is not smaller than that of [r2]. *)
Definition later_entry_first (r1 r2 : row) : Prop :=
  Text.compare_nullable (entry_time r1) (entry_time r2) <> Lt.

(** The name of [r1] is not larger than that of [r2]. *)
Definition name_ascending (r1 r2 : row) : Prop :=
  String.compare (name r1) (name r2) <> Gt.

End Schema.

Arguments empty_table {X}.

(** SQLITE_MAX_VARIABLE_NUMBER, the largest number of host parameters
    ([?]) one statement takes; with more, [execute] raises
    [OperationalError].  999 is the default of SQLite before 3.32.0 and
    the smallest of its defaults (32766 since). *)
Definition max_variable_number : nat := 999.

(** What [access_log.db] may hold when a program starts: no table, the
    table of the first variant, or the table with the [synced] column. *)
Inductive db_file : Type :=
| NoTable
| TableV1 (t : table unit)
| TableV2 (t : table Z).

(** The PRIMARY KEY constraint on whatever table the file holds. *)
Definition file_pk_unique (f : db_file) : Prop :=
  match f with
  | NoTable => True
  | TableV1 t => pk_unique t
  | TableV2 t => pk_unique t
  end.

(** The number of records the file holds. *)
Definition row_count (f : db_file) : nat :=
  match f with
  | NoTable => 0%nat
  | TableV1 t => List.length (rows t)
  | TableV2 t => List.length (rows t)
  end.

End Store.

Import Store.

(* ===================================================================== *)
(** * Configuration and the remote server *)
(* ===================================================================== *)

Module Remote.

(** The values [json.load] produces (floats left out). *)
#[warnings="-register-all"] Inductive json : Type :=
| JNull
| JBool (b : bool)
| JInt (n : Z)
| JStr (s : string)
| JArr (l : list json)
| JObj (l : list (string * json)).

(** Python's truth value of a loaded JSON value. *)
Definition truthy (v : json) : bool :=
  match v with
  | JNull => false
  | JBool b => b
  | JInt n => negb (n =? 0)
  | JStr s => negb (String.eqb s EmptyString)
  | JArr l => match l with [] => false | _ => true end
  | JObj l => match l with [] => false | _ => true end
  end.

(** The configuration object: the three keys the program reads, each
    present or not. *)
Record config : Type := mkConfig {
  server_url : option json;
  api_key : option json;
  sync_enabled : option json
}.

Definition DEFAULT_server_url : string := "http://your-server.com/api/access-logs".

Definition DEFAULT_CONFIG : config :=
  mkConfig (Some (JStr DEFAULT_server_url))
           (Some (JStr "your-api-key-here"))
           (Some (JBool false)).

(** [config.get(key)] *)
Definition get (v : option json) : json :=
  match v with Some x => x | None => JNull end.

(** [config.get(key, False)] *)
Definition get_or_False (v : option json) : json :=
  match v with Some x => x | None => JBool false end.

(** [v == s] for a string [s]. *)
Definition eq_str (v : json) (s : string) : bool :=
  match v with JStr x => String.eqb x s | _ => false end.

(** The dictionaries built by [get_records_older_than_30_days]: the
    seven columns it selects. *)
Definition record_dict : Type := row unit.

Definition to_dict {X : Type} (r : row X) : record_dict :=
  mkRow (id r) (name r) (date r) (entry_time r) (exit_time r)
        (result r) (reason r) tt.

(** The POST request: the URL, the key of the Authorization header and
    the two fields of the JSON payload. *)
Record http_request : Type := mkRequest {
  url : json;
  bearer : json;
  records : list record_dict;
  sync_date : string
}.

(** What [requests.post] does: a response, or a
    [requests.exceptions.RequestException]. *)
Inductive http_reply : Type :=
| Response (status_code : Z) (text : string)
| RequestException (e : string).

End Remote.

Import Remote.

(* ===================================================================== *)
(** * The world and the monad of the programs *)
(* ===================================================================== *)

Section World.

Variable X : Type.

Record world : Type := mkWorld {
  db : table X;                          (* access_log.db *)
  config_file : option config;           (* server_config.json, if it exists *)
  now_at : nat -> Calendar.datetime;     (* the clock, reading by reading *)
  ticks : nat;                           (* clock readings taken so far *)
  reply_at : nat -> string;              (* the operator, line by line *)
  reads : nat;                           (* lines read so far *)
  server : http_request -> http_reply;   (* the remote server *)
  stdout : list string;                  (* what was printed, call by call *)
  connects : nat;                        (* calls of sqlite3.connect *)
  net_log : list (http_request * http_reply)   (* POST requests made *)
}.

Definition M (A : Type) : Type := world -> A * world.

Definition ret {A : Type} (a : A) : M A := fun w => (a, w).

Definition bind {A B : Type} (m : M A) (f : A -> M B) : M B :=
  fun w => let (a, w') := m w in f a w'.

(** [datetime.datetime.now()] *)
Definition now : M Calendar.datetime := fun w =>
  (now_at w (ticks w),
   mkWorld (db w) (config_file w) (now_at w) (S (ticks w)) (reply_at w)
           (reads w) (server w) (stdout w) (connects w) (net_log w)).

(** [print(s)] *)
Definition print (s : string) : M unit := fun w =>
  (tt,
   mkWorld (db w) (config_file w) (now_at w) (ticks w) (reply_at w)
           (reads w) (server w) (stdout w ++ [s]) (connects w) (net_log w)).

(** [input(prompt)] *)
Definition input (prompt : string) : M string := fun w =>
  (reply_at w (reads w),
   mkWorld (db w) (config_file w) (now_at w) (ticks w) (reply_at w)
           (S (reads w)) (server w) (stdout w ++ [prompt]) (connects w)
           (net_log w)).

(** [sqlite3.connect(DB_FILENAME)] *)
Definition connect : M unit := fun w =>
  (tt,
   mkWorld (db w) (config_file w) (now_at w) (ticks w) (reply_at w)
           (reads w) (server w) (stdout w) (S (connects w)) (net_log w)).

(** [c.execute] of a query, with [fetchall]/[fetchone]. *)
Definition query {A : Type} (q : table X -> A) : M A := fun w => (q (db w), w).

(** [c.execute] of a statement that writes, with [conn.commit()]. *)
Definition execute (stmt : table X -> table X) : M unit := fun w =>
  (tt,
   mkWorld (stmt (db w)) (config_file w) (now_at w) (ticks w) (reply_at w)
           (reads w) (server w) (stdout w) (connects w) (net_log w)).

(** The same, returning the cursor's [rowcount] of a DELETE: the number of
    rows the statement removed. *)
Definition execute_rowcount (stmt : table X -> table X) : M nat := fun w =>
  ((List.length (rows (db w)) - List.length (rows (stmt (db w))))%nat,
   mkWorld (stmt (db w)) (config_file w) (now_at w) (ticks w) (reply_at w)
           (reads w) (server w) (stdout w) (connects w) (net_log w)).

(** Reading [CONFIG_FILE]; [None] is [FileNotFoundError]. *)
Definition read_config_file : M (option config) := fun w => (config_file w, w).

(** [json.dump(c, f)] on [CONFIG_FILE] opened for writing. *)
Definition write_config_file (c : config) : M unit := fun w =>
  (tt,
   mkWorld (db w) (Some c) (now_at w) (ticks w) (reply_at w)
           (reads w) (server w) (stdout w) (connects w) (net_log w)).

(** [requests.post(url, json=payload, headers=headers, timeout=30)] *)
Definition http_post (req : http_request) : M http_reply := fun w =>
  let r := server w req in
  (r,
   mkWorld (db w) (config_file w) (now_at w) (ticks w) (reply_at w)
           (reads w) (server w) (stdout w) (connects w)
           (net_log w ++ [(req, r)])).

(** [for x in l: body(x)] *)
Fixpoint for_each {A : Type} (l : list A) (body : A -> M unit) : M unit :=
  match l with
  | [] => ret tt
  | x :: l' => bind (body x) (fun _ => for_each l' body)
  end.

End World.

Arguments ret {X A}.
Arguments bind {X A B}.
Arguments now {X}.
Arguments print {X}.
Arguments input {X}.
Arguments connect {X}.
Arguments query {X A}.
Arguments execute {X}.
Arguments execute_rowcount {X}.
Arguments read_config_file {X}.
Arguments write_config_file {X}.
Arguments http_post {X}.
Arguments for_each {X A}.

Declare Scope prog_scope.
Delimit Scope prog_scope with prog.
Notation "x <- m ;; k" := (bind m (fun x => k))
  (at level 61, m at next level, right associativity) : prog_scope.
Notation "m ;; k" := (bind m (fun _ => k))
  (at level 61, right associativity) : prog_scope.
Local Open Scope prog_scope.

(* ===================================================================== *)
(** * Entry and exit, as both programs write them *)
(* ===================================================================== *)

Module Lifecycle.

Section Lifecycle.

Variable X : Type.

Definition get_today_date_str : M X string :=
  d <- now ;; ret (Calendar.strftime_date d).

Definition get_time_str : M X string :=
  d <- now ;; ret (Calendar.strftime_time d).

(** [record_entry]; [rest] is what the INSERT gives the columns after
    [reason]: nothing in logger.py, [synced = 0] in logger2.py. *)
Definition record_entry (rest : X) (name : string) : M X unit :=
  date <- get_today_date_str ;;
  entry_time <- get_time_str ;;
  answer <- input ("Is " ++ name ++ " allowed to enter? (allowed / denied): ") ;;
  let res := Text.lower (Text.strip answer) in
  reason <- (if String.eqb res "denied"
             then r <- input "Enter reason for denial: " ;; ret (Some (Text.strip r))
             else ret None) ;;
  connect ;;
  execute (sql_insert (fun i =>
    mkRow i name date (Some entry_time) None res reason rest)) ;;
  print ("Entry recorded for " ++ name ++ " at " ++ entry_time
         ++ " (result = " ++ res ++ ")").

(** The WHERE clause of [record_exit]. *)
Definition open_entry (name date : string) (r : row X) : bool :=
  String.eqb (Store.name r) name && String.eqb (Store.date r) date
  && (match exit_time r with None => true | Some _ => false end)
  && String.eqb (result r) "allowed".

(** The SELECT of [record_exit] with its [fetchone()]. *)
Definition select_open_entry (name date : string) (t : table X) : option (row X) :=
  hd_error (firstn 1 (order_by (@by_id_desc X) (sql_select (open_entry name date) t))).

Definition record_exit (name : string) : M X unit :=
  date <- get_today_date_str ;;
  exit_time <- get_time_str ;;
  connect ;;
  row <- query (select_open_entry name date) ;;
  match row with
  | None =>
      print ("No existing entry record found today for " ++ name
             ++ " to mark exit.")
  | Some r =>
      let rec_id := id r in
      execute (sql_update (fun x => id x =? rec_id) (set_exit_time exit_time)) ;;
      print ("Exit recorded for " ++ name ++ " at " ++ exit_time)
  end.

(** [x if x else ""] *)
Definition or_empty (x : option string) : string :=
  match x with Some s => s | None => "" end.

(** A session of the menu restricted to its first two options. *)
Inductive op : Type :=
| Entry (name : string)
| Exit (name : string).

Definition run_op (rest : X) (o : op) : M X unit :=
  match o with
  | Entry name => record_entry rest name
  | Exit name => record_exit name
  end.

Definition run_ops (rest : X) (ops : list op) : M X unit :=
  for_each ops (run_op rest).

(** Between two states of the table: identifiers stay unique, a row that
    is not an allowed entry is kept as it is, and no such row appears
    with an exit time. *)
Definition preserves_denied (t t' : table X) : Prop :=
  pk_unique t' /\
  (forall r, In r (rows t) -> result r <> "allowed" -> In r (rows t')) /\
  (forall r', In r' (rows t') -> result r' <> "allowed" ->
              exit_time r' <> None -> In r' (rows t)).

(** An open allowed entry of [name] on [date], in words. *)
Definition open_on (name date : string) (r : row X) : Prop :=
  Store.name r = name /\ Store.date r = date /\
  result r = "allowed" /\ exit_time r = None.

(** What the two clock readings of an entry or an exit give in [w]. *)
Definition today_in (w : world X) : string :=
  Calendar.strftime_date (now_at w (ticks w)).

Definition time_in (w : world X) : string :=
  Calendar.strftime_time (now_at w (S (ticks w))).

(** The operator's answer to the first question of [record_entry], as the
    program keeps it, and the reason it stores. *)
Definition answer_in (w : world X) : string :=
  Text.lower (Text.strip (reply_at w (reads w))).

Definition reason_in (w : world X) : option string :=
  if String.eqb (answer_in w) "denied"
  then Some (Text.strip (reply_at w (S (reads w))))
  else None.

End Lifecycle.

End Lifecycle.

(* ===================================================================== *)
(** * logger.py *)
(* ===================================================================== *)

Module Logger.

(** The first variant has no column after [reason]. *)
Definition W : Type := world unit.

(** [DROP TABLE IF EXISTS access_log]; the table's entry in
    [sqlite_sequence] goes with it. *)
Definition drop_table_if_exists (f : db_file) : db_file := NoTable.

(** [CREATE TABLE access_log (...)] with the seven columns; [None] is
    the error SQLite raises when the table exists. *)
Definition create_table (f : db_file) : option db_file :=
  match f with
  | NoTable => Some (TableV1 empty_table)
  | _ => None
  end.

Definition init_db (f : db_file) : option db_file :=
  create_table (drop_table_if_exists f).

Definition get_today_date_str : M unit string := @Lifecycle.get_today_date_str unit.

Definition get_time_str : M unit string := @Lifecycle.get_time_str unit.

(** The INSERT names the seven columns. *)
Definition record_entry (name : string) : M unit unit :=
  Lifecycle.record_entry tt name.

Definition record_exit (name : string) : M unit unit :=
  @Lifecycle.record_exit unit name.

Definition or_empty := Lifecycle.or_empty.

(** The line [show_today] prints for a row. *)
Definition today_line (r : row unit) : string :=
  let ent := or_empty (entry_time r) in
  let ext := or_empty (exit_time r) in
  let reason := or_empty (reason r) in
  Text.ljust 20 (name r) ++ " | " ++ Text.ljust 10 ent ++ " | "
  ++ Text.ljust 10 ext ++ " | " ++ Text.ljust 10 (result r) ++ " | " ++ reason.

(** The rows [show_today] fetches. *)
Definition select_today (date : string) (t : table unit) : list (row unit) :=
  order_by (@by_name unit) (sql_select (fun r => String.eqb (Store.date r) date) t).

Definition show_today : M unit unit :=
  date <- get_today_date_str ;;
  connect ;;
  rows <- query (select_today date) ;;
  print ("Logs for " ++ date ++ ":") ;;
  print (Text.ljust 20 "Name" ++ " | " ++ Text.ljust 10 "Entry" ++ " | "
         ++ Text.ljust 10 "Exit" ++ " | " ++ Text.ljust 10 "Result" ++ " | "
         ++ "Reason") ;;
  print (Text.repeat_char "-" 70) ;;
  for_each rows (fun r => print (today_line r)).

End Logger.

(* ===================================================================== *)
(** * logger2.py *)
(* ===================================================================== *)

Module Logger2.

(** The second variant has the [synced] column after [reason]. *)
Definition W : Type := world Z.

Definition synced (r : row Z) : Z := extra r.

Definition load_config : M Z config :=
  f <- read_config_file ;;
  match f with
  | Some c => ret c
  | None =>
      write_config_file DEFAULT_CONFIG ;;
      print "Created default config file: server_config.json" ;;
      print "Please update with your server details." ;;
      ret DEFAULT_CONFIG
  end.

Definition save_config (c : config) : M Z unit := write_config_file c.

(** [CREATE TABLE IF NOT EXISTS access_log (...)] with the eight columns. *)
Definition create_table_if_not_exists (f : db_file) : db_file :=
  match f with
  | NoTable => TableV2 empty_table
  | _ => f
  end.

(** ['synced' not in columns], from [PRAGMA table_info(access_log)]. *)
Definition lacks_synced (f : db_file) : bool :=
  match f with
  | TableV1 _ => true
  | _ => false
  end.

(** [ALTER TABLE access_log ADD COLUMN synced INTEGER DEFAULT 0] *)
Definition add_synced_column (f : db_file) : db_file :=
  match f with
  | TableV1 t =>
      TableV2 (mkTable
        (map (fun r => mkRow (id r) (name r) (date r) (entry_time r)
                             (exit_time r) (result r) (reason r) 0) (rows t))
        (seq t))
  | _ => f
  end.

Definition init_db (f : db_file) : db_file :=
  let f1 := create_table_if_not_exists f in
  if lacks_synced f1 then add_synced_column f1 else f1.

Definition get_today_date_str : M Z string := @Lifecycle.get_today_date_str Z.

Definition get_time_str : M Z string := @Lifecycle.get_time_str Z.

(** The INSERT names the seven columns and [synced], which it sets to 0. *)
Definition record_entry (name : string) : M Z unit :=
  Lifecycle.record_entry 0 name.

Definition record_exit (name : string) : M Z unit :=
  @Lifecycle.record_exit Z name.

Definition or_empty := Lifecycle.or_empty.

(** The three periods of [show_logs]: the bounds of the BETWEEN and the
    title; [None] for any other period. *)
Definition period_bounds (period : string) (today : Calendar.datetime)
    : option (string * string * string) :=
  if String.eqb period "today" then
    let start_date := Calendar.strftime_date today in
    let end_date := start_date in
    Some (start_date, end_date, "Logs for Today (" ++ start_date ++ ")")
  else if String.eqb period "week" then
    let start_of_week := Calendar.minus_days today (Calendar.weekday today) in
    let start_date := Calendar.strftime_date start_of_week in
    let end_date := Calendar.strftime_date today in
    Some (start_date, end_date,
          "Logs for This Week (" ++ start_date ++ " to " ++ end_date ++ ")")
  else if String.eqb period "month" then
    let start_of_month := Calendar.replace_day_1 today in
    let start_date := Calendar.strftime_date start_of_month in
    let end_date := Calendar.strftime_date today in
    Some (start_date, end_date,
          "Logs for This Month (" ++ start_date ++ " to " ++ end_date ++ ")")
  else None.

(** [date BETWEEN ? AND ?] *)
Definition date_between (lo hi : string) (r : row Z) : bool :=
  String.leb lo (date r) && String.leb (date r) hi.

(** The rows [show_logs] fetches. *)
Definition select_period (start_date end_date : string) (t : table Z)
    : list (row Z) :=
  order_by (@by_date_entry_desc Z) (sql_select (date_between start_date end_date) t).

Definition sync_status (r : row Z) : string :=
  if synced r =? 0 then "No" else "Yes".

(** The line [show_logs] prints for a row. *)
Definition period_line (r : row Z) : string :=
  let ent := or_empty (entry_time r) in
  let ext := or_empty (exit_time r) in
  let reason := or_empty (reason r) in
  Text.ljust 12 (date r) ++ " | " ++ Text.ljust 20 (name r)
  ++ " | " ++ Text.ljust 10 ent ++ " | " ++ Text.ljust 10 ext
  ++ " | " ++ Text.ljust 10 (result r) ++ " | "
  ++ Text.ljust 8 (sync_status r) ++ " | " ++ reason.

Definition period_header : string :=
  Text.ljust 12 "Date" ++ " | " ++ Text.ljust 20 "Name" ++ " | "
  ++ Text.ljust 10 "Entry" ++ " | " ++ Text.ljust 10 "Exit" ++ " | "
  ++ Text.ljust 10 "Result" ++ " | " ++ Text.ljust 8 "Synced" ++ " | "
  ++ "Reason".

Definition show_logs (period : string) : M Z unit :=
  connect ;;
  today <- now ;;
  match period_bounds period today with
  | None => print "Invalid period specified."
  | Some (start_date, end_date, title) =>
      rows <- query (select_period start_date end_date) ;;
      print (Text.nl ++ title) ;;
      print (Text.repeat_char "=" 100) ;;
      print period_header ;;
      print (Text.repeat_char "-" 100) ;;
      match rows with
      | [] => print "No records found for this period."
      | _ =>
          for_each rows (fun r => print (period_line r)) ;;
          print (Text.nl ++ "Total records: " ++ Text.str_of_nat (List.length rows))
      end
  end.

(** The rows [show_custom_date_logs] fetches. *)
Definition select_date (date_str : string) (t : table Z) : list (row Z) :=
  order_by (@by_entry_desc Z) (sql_select (fun r => String.eqb (date r) date_str) t).

(** The line [show_custom_date_logs] prints for a row. *)
Definition date_line (r : row Z) : string :=
  let ent := or_empty (entry_time r) in
  let ext := or_empty (exit_time r) in
  let reason := or_empty (reason r) in
  Text.ljust 20 (name r) ++ " | " ++ Text.ljust 10 ent
  ++ " | " ++ Text.ljust 10 ext ++ " | "
  ++ Text.ljust 10 (result r) ++ " | "
  ++ Text.ljust 8 (sync_status r) ++ " | " ++ reason.

Definition date_header : string :=
  Text.ljust 20 "Name" ++ " | " ++ Text.ljust 10 "Entry" ++ " | "
  ++ Text.ljust 10 "Exit" ++ " | " ++ Text.ljust 10 "Result" ++ " | "
  ++ Text.ljust 8 "Synced" ++ " | " ++ "Reason".

Definition show_custom_date_logs : M Z unit :=
  answer <- input "Enter date (YYYY-MM-DD): " ;;
  let date_str := Text.strip answer in
  match Calendar.strptime_Ymd date_str with
  | None => print "Invalid date format. Please use YYYY-MM-DD format."
  | Some _ =>
      connect ;;
      rows <- query (select_date date_str) ;;
      print (Text.nl ++ "Logs for " ++ date_str ++ ":") ;;
      print (Text.repeat_char "=" 100) ;;
      print date_header ;;
      print (Text.repeat_char "-" 100) ;;
      match rows with
      | [] => print "No records found for this date."
      | _ =>
          for_each rows (fun r => print (date_line r)) ;;
          print (Text.nl ++ "Total records: " ++ Text.str_of_nat (List.length rows))
      end
  end.

(** The WHERE clause of [get_records_older_than_30_days]. *)
Definition older_than (cutoff : string) (r : row Z) : bool :=
  String.ltb (date r) cutoff.

(** The rows [get_records_older_than_30_days] fetches. *)
Definition select_older_than (cutoff : string) (t : table Z) : list (row Z) :=
  order_by (@by_date_entry Z) (sql_select (older_than cutoff) t).

Definition get_records_older_than_30_days : M Z (list record_dict) :=
  today <- now ;;
  let thirty_days_ago := Calendar.strftime_date (Calendar.minus_days today 30) in
  connect ;;
  rows <- query (select_older_than thirty_days_ago) ;;
  ret (map to_dict rows).

Definition send_to_server (records : list record_dict) (config : config)
    : M Z bool :=
  if negb (truthy (get_or_False (sync_enabled config))) then
    print "Server sync is disabled in config." ;;
    ret false
  else
    let server_url := get (Remote.server_url config) in
    let api_key := get (Remote.api_key config) in
    if negb (truthy server_url) || eq_str server_url DEFAULT_server_url then
      print "Server URL not configured properly." ;;
      ret false
    else
      sync_date <- now ;;
      print ("Sending " ++ Text.str_of_nat (List.length records)
             ++ " records to server...") ;;
      response <- http_post (mkRequest server_url api_key records
                               (Calendar.strftime_datetime sync_date)) ;;
      match response with
      | Response status_code text =>
          if status_code =? 200 then
            print "✓ Records successfully sent to server!" ;;
            ret true
          else
            print ("✗ Server returned error: " ++ Text.str_of_nat (Z.to_nat status_code)) ;;
            print ("Response: " ++ text) ;;
            ret false
      | RequestException e =>
          print ("✗ Error connecting to server: " ++ e) ;;
          ret false
      end.

Definition delete_old_records (record_ids : list Z) : M Z nat :=
  connect ;;
  execute_rowcount (sql_delete (id_in record_ids)).

Definition sync_and_cleanup : M Z unit :=
  config <- load_config ;;
  old_records <- get_records_older_than_30_days ;;
  match old_records with
  | [] => print "No records older than 30 days to sync."
  | _ =>
      print (Text.nl ++ "Found " ++ Text.str_of_nat (List.length old_records)
             ++ " records older than 30 days.") ;;
      print "These records will be sent to the server and deleted locally." ;;
      answer <- input "Do you want to proceed? (yes/no): " ;;
      let confirm := Text.lower (Text.strip answer) in
      if negb (String.eqb confirm "yes") then
        print "Sync cancelled."
      else
        success <- send_to_server old_records config ;;
        if success then
          let record_ids := map (@id unit) old_records in
          deleted <- delete_old_records record_ids ;;
          print ("✓ Deleted " ++ Text.str_of_nat deleted
                 ++ " old records from local database.") ;;
          print "Sync and cleanup completed successfully!"
        else
          print "✗ Sync failed. Records were NOT deleted locally." ;;
          print "Please check your server configuration and try again."
  end.

(** What the two listings print under their header for the fetched
    [rows]. *)
Definition table_body {X : Type} (line : row X -> string) (nothing : string)
    (rows : list (row X)) : list string :=
  match rows with
  | [] => [nothing]
  | _ => (map line rows
          ++ [(Text.nl ++ "Total records: "
               ++ Text.str_of_nat (List.length rows))%string])%list
  end.

(** ** What a run of [sync_and_cleanup] started in [w] meets *)

(** The configuration [load_config] returns. *)
Definition config_in (w : W) : config :=
  match config_file w with Some c => c | None => DEFAULT_CONFIG end.

(** The value of [thirty_days_ago]. *)
Definition cutoff_in (w : W) : string :=
  Calendar.strftime_date (Calendar.minus_days (now_at w (ticks w)) 30).

(** The rows and the batch [get_records_older_than_30_days] returns. *)
Definition stale_in (w : W) : list (row Z) :=
  select_older_than (cutoff_in w) (db w).

Definition batch_in (w : W) : list record_dict := map to_dict (stale_in w).

(** The value of [confirm]. *)
Definition confirm_in (w : W) : string :=
  Text.lower (Text.strip (reply_at w (reads w))).

(** [send_to_server] gets past its two configuration checks. *)
Definition configured (c : config) : bool :=
  truthy (get_or_False (sync_enabled c))
  && negb (negb (truthy (get (server_url c)))
           || eq_str (get (server_url c)) DEFAULT_server_url).

(** The request [send_to_server] posts. *)
Definition request_in (w : W) : http_request :=
  mkRequest (get (server_url (config_in w))) (get (api_key (config_in w)))
            (batch_in w)
            (Calendar.strftime_datetime (now_at w (S (ticks w)))).

(** The reply for which [send_to_server] returns [True]. *)
Definition accepted (r : http_reply) : bool :=
  match r with
  | Response status_code _ => status_code =? 200
  | RequestException _ => false
  end.

(** The run reaches [requests.post]. *)
Definition posts (w : W) : bool :=
  negb (match batch_in w with [] => true | _ => false end)
  && String.eqb (confirm_in w) "yes"
  && configured (config_in w).

(** The run reaches [delete_old_records]. *)
Definition purges (w : W) : bool :=
  posts w && accepted (server w (request_in w)).

(** The remote side acknowledged the batch during the run from [w] to
    [w']: the run posted the batch and the reply was status 200. *)
Definition acknowledged (w w' : W) : Prop :=
  exists req text,
    net_log w' = (net_log w ++ [(req, Response 200 text)])%list /\
    records req = batch_in w.

End Logger2.

(* ===================================================================== *)
(** * [str] and [repr] of the values a configuration holds *)
(* ===================================================================== *)

Module Repr.

(** [str(n)] for an [int]. *)
Definition str_of_Z (n : Z) : string :=
  if n <? 0 then "-" ++ Text.str_of_nat (Z.to_nat (- n))
  else Text.str_of_nat (Z.to_nat n).

Definition hex_digit (n : N) : ascii :=
  match n with
  | 0 => "0" | 1 => "1" | 2 => "2" | 3 => "3" | 4 => "4" | 5 => "5"
  | 6 => "6" | 7 => "7" | 8 => "8" | 9 => "9" | 10 => "a" | 11 => "b"
  | 12 => "c" | 13 => "d" | 14 => "e" | _ => "f"
  end%N%char.

Fixpoint contains (c : ascii) (s : string) : bool :=
  match s with
  | EmptyString => false
  | String a s' => Ascii.eqb a c || contains c s'
  end.

Definition squote : ascii := "'"%char.
Definition dquote : ascii := ascii_of_nat 34.
Definition backslash : ascii := "\"%char.

(** The quote [repr] puts around a [str]: the double quote when the text
    has a single quote and no double quote, the single quote otherwise. *)
Definition quote_of (s : string) : ascii :=
  if contains squote s && negb (contains dquote s) then dquote else squote.

(** One character of a [str] inside its [repr], on ASCII text. *)
Definition repr_char (q c : ascii) : string :=
  let n := N_of_ascii c in
  if Ascii.eqb c q || Ascii.eqb c backslash then String backslash (String c "")
  else if (n =? 9)%N then "\t"
  else if (n =? 10)%N then "\n"
  else if (n =? 13)%N then "\r"
  else if ((n <? 32) || (n =? 127))%N
       then "\x" ++ String (hex_digit (n / 16)) (String (hex_digit (n mod 16)) "")
  else String c "".

Fixpoint repr_chars (q : ascii) (s : string) : string :=
  match s with
  | EmptyString => EmptyString
  | String c s' => repr_char q c ++ repr_chars q s'
  end.

(** [repr(s)] for a [str]. *)
Definition repr_str (s : string) : string :=
  let q := quote_of s in
  String q (repr_chars q s ++ String q "").

(** [repr(v)] *)
Fixpoint py_repr (v : json) : string :=
  match v with
  | JNull => "None"
  | JBool b => if b then "True" else "False"
  | JInt n => str_of_Z n
  | JStr s => repr_str s
  | JArr l => "[" ++ String.concat ", " (map py_repr l) ++ "]"
  | JObj l =>
      "{" ++ String.concat ", "
               (map (fun kv => repr_str (fst kv) ++ ": " ++ py_repr (snd kv)) l)
      ++ "}"
  end.

(** [str(v)], which an f-string puts in place of [{v}]. *)
Definition py_str (v : json) : string :=
  match v with
  | JStr s => s
  | _ => py_repr v
  end.

End Repr.

Arguments Repr.py_str : simpl never.
Arguments Repr.py_repr : simpl never.

(* ===================================================================== *)
(** * What a computation leaves alone *)
(* ===================================================================== *)

Section Frames.

Variable X : Type.

(** The computation [m] never changes the part [proj] of the world. *)
Definition keeps {S A : Type} (proj : world X -> S) (m : M X A) : Prop :=
  forall w, proj (snd (m w)) = proj w.

(** The computation [m] keeps the property [J] of the table, the
    configuration file and the server. *)
Definition stable {A : Type}
    (J : table X -> option config -> (http_request -> http_reply) -> Prop)
    (m : M X A) : Prop :=
  forall w, J (db w) (config_file w) (server w) ->
            J (db (snd (m w))) (config_file (snd (m w))) (server (snd (m w))).

End Frames.

(* ===================================================================== *)
(** * logger.py: the menu *)
(* ===================================================================== *)

Module LoggerMain.

Import Logger.

(** One turn of the [while True] loop; [false] is the [break]. *)
Definition menu : M unit bool :=
  print (Text.nl ++ "Options:") ;;
  print "1. Record entry" ;;
  print "2. Record exit" ;;
  print "3. Show today's log" ;;
  print "4. Quit" ;;
  answer <- input "Choose option: " ;;
  let choice := Text.strip answer in
  if String.eqb choice "1" then
    a <- input "Enter person name for entry: " ;;
    let name := Text.strip a in
    record_entry name ;;
    ret true
  else if String.eqb choice "2" then
    a <- input "Enter person name for exit: " ;;
    let name := Text.strip a in
    record_exit name ;;
    ret true
  else if String.eqb choice "3" then
    show_today ;;
    ret true
  else if String.eqb choice "4" then
    print "Quitting." ;;
    ret false
  else
    print "Invalid choice. Please try again." ;;
    ret true.

(** The loop, for at most [fuel] turns; [true] when it reached its
    [break]. *)
Fixpoint main_loop (fuel : nat) : M unit bool :=
  match fuel with
  | O => ret false
  | S fuel' =>
      continue <- menu ;;
      if continue then main_loop fuel' else ret true
  end.

(** The world after [init_db()] in the surroundings [env]: the database
    was opened once, and the table of the world is the table [t] of the
    file from then on. *)
Definition start (t : table unit) (env : W) : W :=
  mkWorld t (config_file env) (now_at env) (ticks env) (reply_at env)
          (reads env) (server env) (stdout env) (S (connects env))
          (net_log env).

(** The program: [init_db()], then the loop, on the file [f]; [None] if
    [init_db] raised. *)
Definition main (fuel : nat) (f : db_file) (env : W) : option (bool * W) :=
  match init_db f with
  | Some (TableV1 t) => Some (main_loop fuel (start t env))
  | _ => None
  end.

End LoggerMain.

(* ===================================================================== *)
(** * logger2.py: the process, its settings and its menu *)
(* ===================================================================== *)

Module Process.

Import Logger2.

(** The module-level dictionary [DEFAULT_CONFIG] as the running process
    holds it.  [load_config] returns this very dictionary, not a copy,
    when there is no configuration file, and [configure_server] assigns
    into what [load_config] returned: the three values can change, their
    types cannot. *)
Record defaults : Type := mkDefaults {
  d_server_url : string;
  d_api_key : string;
  d_sync_enabled : bool
}.

(** [DEFAULT_CONFIG] when the module is loaded. *)
Definition initial : defaults :=
  mkDefaults DEFAULT_server_url "your-api-key-here" false.

Definition as_config (d : defaults) : config :=
  mkConfig (Some (JStr (d_server_url d))) (Some (JStr (d_api_key d)))
           (Some (JBool (d_sync_enabled d))).

(** What a variable bound to the result of [load_config] refers to: the
    dictionary [json.load] built, or [DEFAULT_CONFIG] itself. *)
Inductive dict_ref : Type :=
| Loaded (c : config)
| TheDefaults.

Definition deref (d : defaults) (r : dict_ref) : config :=
  match r with
  | Loaded c => c
  | TheDefaults => as_config d
  end.

(** [config["server_url"] = url] *)
Definition set_server_url (url : string) (d : defaults) (r : dict_ref)
    : defaults * dict_ref :=
  match r with
  | Loaded c => (d, Loaded (mkConfig (Some (JStr url)) (api_key c) (sync_enabled c)))
  | TheDefaults => (mkDefaults url (d_api_key d) (d_sync_enabled d), TheDefaults)
  end.

(** [config["api_key"] = key] *)
Definition set_api_key (key : string) (d : defaults) (r : dict_ref)
    : defaults * dict_ref :=
  match r with
  | Loaded c => (d, Loaded (mkConfig (server_url c) (Some (JStr key)) (sync_enabled c)))
  | TheDefaults => (mkDefaults (d_server_url d) key (d_sync_enabled d), TheDefaults)
  end.

(** [config["sync_enabled"] = b] *)
Definition set_sync_enabled (b : bool) (d : defaults) (r : dict_ref)
    : defaults * dict_ref :=
  match r with
  | Loaded c => (d, Loaded (mkConfig (server_url c) (api_key c) (Some (JBool b))))
  | TheDefaults => (mkDefaults (d_server_url d) (d_api_key d) b, TheDefaults)
  end.

Definition load_config (d : defaults) : M Z dict_ref :=
  f <- read_config_file ;;
  match f with
  | Some c => ret (Loaded c)
  | None =>
      write_config_file (as_config d) ;;
      print "Created default config file: server_config.json" ;;
      print "Please update with your server details." ;;
      ret TheDefaults
  end.

Definition send_to_server (d : defaults) (records : list record_dict)
    (config : config) : M Z bool :=
  if negb (truthy (get_or_False (sync_enabled config))) then
    print "Server sync is disabled in config." ;;
    ret false
  else
    let server_url := get (Remote.server_url config) in
    let api_key := get (Remote.api_key config) in
    if negb (truthy server_url) || eq_str server_url (d_server_url d) then
      print "Server URL not configured properly." ;;
      ret false
    else
      sync_date <- now ;;
      print ("Sending " ++ Text.str_of_nat (List.length records)
             ++ " records to server...") ;;
      response <- http_post (mkRequest server_url api_key records
                               (Calendar.strftime_datetime sync_date)) ;;
      match response with
      | Response status_code text =>
          if status_code =? 200 then
            print "✓ Records successfully sent to server!" ;;
            ret true
          else
            print ("✗ Server returned error: " ++ Text.str_of_nat (Z.to_nat status_code)) ;;
            print ("Response: " ++ text) ;;
            ret false
      | RequestException e =>
          print ("✗ Error connecting to server: " ++ e) ;;
          ret false
      end.

Definition sync_and_cleanup (d : defaults) : M Z unit :=
  r <- load_config d ;;
  let config := deref d r in
  old_records <- get_records_older_than_30_days ;;
  match old_records with
  | [] => print "No records older than 30 days to sync."
  | _ =>
      print (Text.nl ++ "Found " ++ Text.str_of_nat (List.length old_records)
             ++ " records older than 30 days.") ;;
      print "These records will be sent to the server and deleted locally." ;;
      answer <- input "Do you want to proceed? (yes/no): " ;;
      let confirm := Text.lower (Text.strip answer) in
      if negb (String.eqb confirm "yes") then
        print "Sync cancelled."
      else
        success <- send_to_server d old_records config ;;
        if success then
          let record_ids := map (@id unit) old_records in
          deleted <- delete_old_records record_ids ;;
          print ("✓ Deleted " ++ Text.str_of_nat deleted
                 ++ " old records from local database.") ;;
          print "Sync and cleanup completed successfully!"
        else
          print "✗ Sync failed. Records were NOT deleted locally." ;;
          print "Please check your server configuration and try again."
  end.

(** ["="*50] *)
Definition rule : string := Text.repeat_char "=" 50.

Definition configure_server (d : defaults) : M Z defaults :=
  config <- load_config d ;;
  print (Text.nl ++ rule) ;;
  print "SERVER CONFIGURATION" ;;
  print rule ;;
  print "Current settings:" ;;
  print ("  Server URL: " ++ Repr.py_str (get (server_url (deref d config)))) ;;
  print ("  API Key: " ++ Repr.py_str (get (api_key (deref d config)))) ;;
  print ("  Sync Enabled: " ++ Repr.py_str (get (sync_enabled (deref d config)))) ;;
  print rule ;;
  print (Text.nl ++ "What would you like to update?") ;;
  print "1. Server URL" ;;
  print "2. API Key" ;;
  print "3. Enable/Disable Sync" ;;
  print "4. Back to main menu" ;;
  answer <- input "Choose option: " ;;
  let choice := Text.strip answer in
  if String.eqb choice "1" then
    a <- input "Enter server URL: " ;;
    let url := Text.strip a in
    if negb (String.eqb url "") then
      let (d', config') := set_server_url url d config in
      save_config (deref d' config') ;;
      print "✓ Server URL updated." ;;
      ret d'
    else ret d
  else if String.eqb choice "2" then
    a <- input "Enter API key: " ;;
    let key := Text.strip a in
    if negb (String.eqb key "") then
      let (d', config') := set_api_key key d config in
      save_config (deref d' config') ;;
      print "✓ API key updated." ;;
      ret d'
    else ret d
  else if String.eqb choice "3" then
    a <- input "Enable sync? (yes/no): " ;;
    let enabled := Text.lower (Text.strip a) in
    let (d', config') := set_sync_enabled (String.eqb enabled "yes") d config in
    save_config (deref d' config') ;;
    print ("✓ Sync "
           ++ (if truthy (get (sync_enabled (deref d' config')))
               then "enabled" else "disabled") ++ ".") ;;
    ret d'
  else if String.eqb choice "4" then
    ret d
  else
    print "Invalid choice." ;;
    ret d.

Definition show_sync_status (d : defaults) : M Z unit :=
  r <- load_config d ;;
  let config := deref d r in
  old_records <- get_records_older_than_30_days ;;
  print (Text.nl ++ rule) ;;
  print "SYNC STATUS" ;;
  print rule ;;
  print ("Sync Enabled: " ++ Repr.py_str (get (sync_enabled config))) ;;
  print ("Server URL: " ++ Repr.py_str (get (server_url config))) ;;
  print ("Records older than 30 days: "
         ++ Text.str_of_nat (List.length old_records)) ;;
  print rule.

(** One turn of the [while True] loop: whether the loop goes on, and
    [DEFAULT_CONFIG] after the turn. *)
Definition menu (d : defaults) : M Z (bool * defaults) :=
  print (Text.nl ++ rule) ;;
  print "ACCESS LOG SYSTEM" ;;
  print rule ;;
  print "1. Record entry" ;;
  print "2. Record exit" ;;
  print "3. Show today's log" ;;
  print "4. Show this week's log" ;;
  print "5. Show this month's log" ;;
  print "6. Show specific date's log" ;;
  print "7. Sync old records to server & cleanup" ;;
  print "8. Show sync status" ;;
  print "9. Configure server settings" ;;
  print "10. Quit" ;;
  print rule ;;
  answer <- input "Choose option: " ;;
  let choice := Text.strip answer in
  if String.eqb choice "1" then
    a <- input "Enter person name for entry: " ;;
    let name := Text.strip a in
    if negb (String.eqb name "") then record_entry name ;; ret (true, d)
    else print "Name cannot be empty." ;; ret (true, d)
  else if String.eqb choice "2" then
    a <- input "Enter person name for exit: " ;;
    let name := Text.strip a in
    if negb (String.eqb name "") then record_exit name ;; ret (true, d)
    else print "Name cannot be empty." ;; ret (true, d)
  else if String.eqb choice "3" then show_logs "today" ;; ret (true, d)
  else if String.eqb choice "4" then show_logs "week" ;; ret (true, d)
  else if String.eqb choice "5" then show_logs "month" ;; ret (true, d)
  else if String.eqb choice "6" then show_custom_date_logs ;; ret (true, d)
  else if String.eqb choice "7" then sync_and_cleanup d ;; ret (true, d)
  else if String.eqb choice "8" then show_sync_status d ;; ret (true, d)
  else if String.eqb choice "9" then d' <- configure_server d ;; ret (true, d')
  else if String.eqb choice "10" then
    print "Quitting. Goodbye!" ;;
    ret (false, d)
  else
    print "Invalid choice. Please try again." ;;
    ret (true, d).

(** The loop, for at most [fuel] turns: whether it reached its [break],
    and [DEFAULT_CONFIG] at the end. *)
Fixpoint main_loop (fuel : nat) (d : defaults) : M Z (bool * defaults) :=
  match fuel with
  | O => ret (false, d)
  | S fuel' =>
      r <- menu d ;;
      if fst r then main_loop fuel' (snd r) else ret (true, snd r)
  end.

(** The table [init_db] leaves in the file. *)
Definition table_of (f : db_file) : table Z :=
  match f with
  | TableV2 t => t
  | _ => empty_table
  end.

(** What [init_db] prints on the file [f]. *)
Definition init_db_messages (f : db_file) : list string :=
  (if lacks_synced (create_table_if_not_exists f)
   then ["Adding 'synced' column to existing table...";
         "Column added successfully."]
   else []) ++ ["Database initialized."].

(** [init_db()] on the file [f] in the surroundings [env]: the table of
    the world is that of the file from then on. *)
Definition start (f : db_file) (env : W) : W :=
  mkWorld (table_of (init_db f)) (config_file env) (now_at env) (ticks env)
          (reply_at env) (reads env) (server env)
          (stdout env ++ init_db_messages f) (S (connects env)) (net_log env).

(** The program: [init_db()], [load_config()], then the loop. *)
Definition main (fuel : nat) (f : db_file) (env : W) : (bool * defaults) * W :=
  (load_config initial ;; main_loop fuel initial) (start f env).

(** The records a file holds, the column [synced] left out. *)
Definition records_of (f : db_file) : list record_dict :=
  match f with
  | NoTable => []
  | TableV1 t => map to_dict (rows t)
  | TableV2 t => map to_dict (rows t)
  end.

(** ** What a run of [sync_and_cleanup] started in [w] meets, when
    [DEFAULT_CONFIG] is [d] *)

(** The configuration [load_config] returns. *)
Definition config_in (d : defaults) (w : W) : config :=
  match config_file w with Some c => c | None => as_config d end.

(** [send_to_server] gets past its two configuration checks. *)
Definition configured (d : defaults) (c : config) : bool :=
  truthy (get_or_False (sync_enabled c))
  && negb (negb (truthy (get (server_url c)))
           || eq_str (get (server_url c)) (d_server_url d)).

(** The request [send_to_server] posts. *)
Definition request_in (d : defaults) (w : W) : http_request :=
  mkRequest (get (server_url (config_in d w))) (get (api_key (config_in d w)))
            (batch_in w)
            (Calendar.strftime_datetime (now_at w (S (ticks w)))).

(** The run reaches [requests.post]. *)
Definition posts (d : defaults) (w : W) : bool :=
  negb (match batch_in w with [] => true | _ => false end)
  && String.eqb (confirm_in w) "yes"
  && configured d (config_in d w).

(** The run reaches [delete_old_records]. *)
Definition purges (d : defaults) (w : W) : bool :=
  posts d w && accepted (server w (request_in d w)).

(** What [load_config] prints when it has to create the file. *)
Definition load_config_messages (w : W) : list string :=
  match config_file w with
  | Some _ => []
  | None => ["Created default config file: server_config.json";
             "Please update with your server details."]
  end.

(** The counter of [sqlite_sequence] is not behind the table: no row has
    an identifier above it.  SQLite keeps this for an AUTOINCREMENT
    table; [init_db] establishes it on a new one. *)
Definition seq_covers {X : Type} (t : table X) : Prop :=
  forall r, In r (rows t) -> id r <= seq t.

(** What a turn of the menu prints before it reads the choice. *)
Definition menu_lines : list string :=
  [(Text.nl ++ rule)%string; "ACCESS LOG SYSTEM"; rule;
   "1. Record entry"; "2. Record exit"; "3. Show today's log";
   "4. Show this week's log"; "5. Show this month's log";
   "6. Show specific date's log";
   "7. Sync old records to server & cleanup"; "8. Show sync status";
   "9. Configure server settings"; "10. Quit"; rule; "Choose option: "].

End Process.

(* ===================================================================== *)
(** * A reading of the specification that the programs do not meet *)
(* ===================================================================== *)

(** The listing of one exact date prints its rows by ascending name. *)
Definition exact_date_listing_by_name (w : Logger2.W) : Prop :=
  forall d, Calendar.strptime_Ymd (Text.strip (reply_at w (reads w))) = Some d ->
  StronglySorted (@name_ascending Z)
    (Logger2.select_date (Text.strip (reply_at w (reads w))) (db w)).

(* ===================================================================== *)
(** * A scenario to run the programs on *)
(* ===================================================================== *)

Module Scenario.

(** Saturday 15 June 2024, half past nine, at every reading. *)
Definition clock : nat -> Calendar.datetime :=
  fun _ => Calendar.mkDatetime 2024 6 15 9 30 0.

(** The operator types [lines], then empty lines. *)
Definition operator (lines : list string) : nat -> string :=
  fun n => nth n lines "".

Definition server_ok : http_request -> http_reply :=
  fun _ => Response 200 "ok".

Definition server_busy : http_request -> http_reply :=
  fun _ => Response 503 "busy".

Definition enabled_config : config :=
  mkConfig (Some (JStr "https://archive.example/api/access-logs"))
           (Some (JStr "secret")) (Some (JBool true)).

(** Entered 45 days before the clock's date. *)
Definition alice_old : row Z :=
  mkRow 1 "alice" "2024-05-01" (Some "08:00:00") (Some "17:00:00") "allowed" None 0.

(** Turned away 10 days before the clock's date. *)
Definition bob_denied : row Z :=
  mkRow 2 "bob" "2024-06-05" (Some "09:00:00") None "denied" (Some "no badge") 0.

(** Two open entries of the same person on the clock's date. *)
Definition carol_first : row Z :=
  mkRow 3 "carol" "2024-06-15" (Some "08:00:00") None "allowed" None 0.

Definition carol_second : row Z :=
  mkRow 4 "carol" "2024-06-15" (Some "08:30:00") None "allowed" None 0.

(** An entry of that day made before carol's. *)
Definition alice_today : row Z :=
  mkRow 5 "alice" "2024-06-15" (Some "07:45:00") None "allowed" None 0.

Definition table2 : table Z :=
  mkTable [alice_old; bob_denied; carol_first; carol_second; alice_today] 5.

Definition world2 (cfg : option config) (lines : list string)
    (srv : http_request -> http_reply) : Logger2.W :=
  mkWorld table2 cfg clock 0 (operator lines) 0 srv [] 0 [].

Definition table1 : table unit :=
  mkTable [mkRow 1 "bob" "2024-06-15" (Some "09:00:00") None "denied"
                 (Some "no badge") tt;
           mkRow 2 "carol" "2024-06-15" (Some "08:00:00") None "allowed" None tt]
          2.

Definition world1 (lines : list string) : Logger.W :=
  mkWorld table1 None clock 0 (operator lines) 0 server_ok [] 0 [].

End Scenario.

(* ===================================================================== *)
(** * Facts about the calendar *)
(* ===================================================================== *)

(** Evaluate the tables of the months and the tests on closed terms. *)
Ltac eval_closed :=
  repeat match goal with
  | |- context [Calendar.DAYS_IN_MONTH ?x] =>
      let v := eval vm_compute in (Calendar.DAYS_IN_MONTH x) in
      change (Calendar.DAYS_IN_MONTH x) with v
  | |- context [Calendar.DAYS_BEFORE_MONTH ?x] =>
      let v := eval vm_compute in (Calendar.DAYS_BEFORE_MONTH x) in
      change (Calendar.DAYS_BEFORE_MONTH x) with v
  | |- context [if ?b then _ else _] =>
      lazymatch b with
      | true => fail
      | false => fail
      | _ => let v := eval vm_compute in b in
             lazymatch v with
             | true => change b with true
             | false => change b with false
             end
      end
  end; cbv iota.

(** The twelve cases of a month. *)
Ltac month_cases m Hm :=
  let C := fresh "C" in
  assert (C : m = 1 \/ m = 2 \/ m = 3 \/ m = 4 \/ m = 5 \/ m = 6 \/
              m = 7 \/ m = 8 \/ m = 9 \/ m = 10 \/ m = 11 \/ m = 12) by lia;
  clear Hm;
  destruct C as [->|[->|[->|[->|[->|[->|[->|[->|[->|[->|[->| ->]]]]]]]]]]].

Section CalendarFacts.

Import Calendar.


Lemma month_day_spec (leapyear : bool) (n : Z) :
  0 <= n <= 364 + (if leapyear then 1 else 0) ->
  let '(m, d) := month_day leapyear n in
  1 <= m <= 12 /\
  1 <= d <= (if (m =? 2) && leapyear then 29 else DAYS_IN_MONTH m) /\
  DAYS_BEFORE_MONTH m + (if (2 <? m) && leapyear then 1 else 0) + d = n + 1.
Proof.
  intro Hn. unfold month_day. cbv zeta.
  rewrite Z.shiftr_div_pow2 by lia. change (2 ^ 5) with 32.
  remember ((n + 50) / 32) as m eqn:Em.
  assert (Hm : 1 <= m <= 12) by (subst m; destruct leapyear; Z.div_mod_to_equations; lia).
  assert (Hcases : m = 1 \/ m = 2 \/ m = 3 \/ m = 4 \/ m = 5 \/ m = 6 \/
                   m = 7 \/ m = 8 \/ m = 9 \/ m = 10 \/ m = 11 \/ m = 12) by lia.
  clear Hm.
  (destruct Hcases as [->|[->|[->|[->|[->|[->|[->|[->|[->|[->|[->| ->]]]]]]]]]]];
  destruct leapyear; eval_closed;
  match goal with
  | |- context [?a <? ?b] => destruct (Z.ltb_spec a b)
  end; eval_closed;
  try (Z.div_mod_to_equations; lia)).
Qed.

Lemma ord2ymd_month_day (n : Z) :
  ord2ymd n =
  let n0 := n - 1 in
  let n400 := n0 / DI400Y in
  let r := n0 mod DI400Y in
  let n100 := r / DI100Y in
  let r2 := r mod DI100Y in
  let n4 := r2 / DI4Y in
  let r3 := r2 mod DI4Y in
  let n1 := r3 / 365 in
  let r4 := r3 mod 365 in
  let y := n400 * 400 + 1 + n100 * 100 + n4 * 4 + n1 in
  if (n1 =? 4) || (n100 =? 4) then (y - 1, 12, 31)
  else
    let leapyear := (n1 =? 3) && (negb (n4 =? 24) || (n100 =? 3)) in
    (y, fst (month_day leapyear r4), snd (month_day leapyear r4)).
Proof.
  unfold ord2ymd, month_day. cbv zeta.
  destruct (_ || _); [reflexivity|].
  destruct (_ <? _); reflexivity.
Qed.


Lemma days_before_year_split (q400 n100 n4 n1 : Z) :
  0 <= n100 <= 3 -> 0 <= n4 <= 24 -> 0 <= n1 <= 3 ->
  days_before_year (q400 * 400 + 1 + n100 * 100 + n4 * 4 + n1) =
  q400 * DI400Y + n100 * DI100Y + n4 * DI4Y + n1 * 365.
Proof.
  intros H100 H4 H1. unfold days_before_year, DI400Y, DI100Y, DI4Y.
  cbv zeta. Z.div_mod_to_equations; lia.
Qed.

Lemma is_leap_split (q400 n100 n4 n1 : Z) :
  0 <= n100 <= 3 -> 0 <= n4 <= 24 -> 0 <= n1 <= 3 ->
  is_leap (q400 * 400 + 1 + n100 * 100 + n4 * 4 + n1) =
  (n1 =? 3) && (negb (n4 =? 24) || (n100 =? 3)).
Proof.
  intros H100 H4 H1. unfold is_leap.
  destruct (Z.eqb_spec n1 3), (Z.eqb_spec n4 24), (Z.eqb_spec n100 3);
  cbn [andb orb negb];
  repeat match goal with
  | |- context [Z.eqb ?a ?b] => destruct (Z.eqb_spec a b)
  end; cbn [andb orb negb]; try reflexivity; exfalso; Z.div_mod_to_equations; lia.
Qed.

Lemma ord2ymd_spec (n : Z) :
  1 <= n <= 3652059 ->
  let '(y, m, d) := ord2ymd n in
  valid_date y m d /\ ymd2ord y m d = n.
Proof.
  intro Hn. rewrite ord2ymd_month_day. cbv zeta.
  unfold DI400Y, DI100Y, DI4Y.
  remember ((n - 1) / 146097) as n400 eqn:E400.
  remember ((n - 1) mod 146097) as r eqn:Er.
  remember (r / 36524) as n100 eqn:E100.
  remember (r mod 36524) as r2 eqn:Er2.
  remember (r2 / 1461) as n4 eqn:E4.
  remember (r2 mod 1461) as r3 eqn:Er3.
  remember (r3 / 365) as n1 eqn:E1.
  remember (r3 mod 365) as r4 eqn:Er4.
  assert (H400 : 0 <= n400 <= 24) by (Z.div_mod_to_equations; lia).
  assert (Hr : 0 <= r < 146097) by (Z.div_mod_to_equations; lia).
  assert (H100 : 0 <= n100 <= 4) by (Z.div_mod_to_equations; lia).
  assert (Hr2 : 0 <= r2 < 36524) by (Z.div_mod_to_equations; lia).
  assert (H4 : 0 <= n4 <= 24) by (Z.div_mod_to_equations; lia).
  assert (Hr3 : 0 <= r3 < 1461) by (Z.div_mod_to_equations; lia).
  assert (H1 : 0 <= n1 <= 4) by (Z.div_mod_to_equations; lia).
  assert (Hr4 : 0 <= r4 < 365) by (Z.div_mod_to_equations; lia).
  assert (Hsum : n - 1 = n400 * 146097 + n100 * 36524 + n4 * 1461 + n1 * 365 + r4)
    by (Z.div_mod_to_equations; lia).
  destruct (Z.eqb_spec n1 4) as [En1|En1]; [|destruct (Z.eqb_spec n100 4) as [En100|En100]];
    cbn [orb].
  - (unfold valid_date, ymd2ord, days_in_month, days_before_month, days_before_year, is_leap; cbv zeta;
    change (12 =? 2) with false; change (2 <? 12) with true; cbn [andb DAYS_IN_MONTH DAYS_BEFORE_MONTH];
    repeat match goal with
    | |- context [Z.eqb ?a ?b] => destruct (Z.eqb_spec a b)
    end; cbn [andb orb negb]; Z.div_mod_to_equations; lia).
  - (unfold valid_date, ymd2ord, days_in_month, days_before_month, days_before_year, is_leap; cbv zeta;
    change (12 =? 2) with false; change (2 <? 12) with true; cbn [andb DAYS_IN_MONTH DAYS_BEFORE_MONTH];
    repeat match goal with
    | |- context [Z.eqb ?a ?b] => destruct (Z.eqb_spec a b)
    end; cbn [andb orb negb]; Z.div_mod_to_equations; lia).
  - assert (H100' : 0 <= n100 <= 3) by lia.
    assert (H1' : 0 <= n1 <= 3) by lia.
    assert (Hmd := @month_day_spec ((n1 =? 3) && (negb (n4 =? 24) || (n100 =? 3))) r4).
    destruct (month_day _ r4) as [m d]. cbn [fst snd].
    unfold valid_date, ymd2ord, days_in_month, days_before_month.
    rewrite is_leap_split, days_before_year_split by assumption.
    unfold DI400Y, DI100Y, DI4Y.
    destruct Hmd as (Hm & Hd & Hsumd).
    { destruct (_ && _); lia. }
    repeat split; try lia.
Qed.


Lemma digit_char_compare (a b : Z) :
  0 <= a <= 9 -> 0 <= b <= 9 ->
  Ascii.compare (Text.digit_char a) (Text.digit_char b) = (a ?= b).
Proof.
  intros Ha Hb.
  assert (Ca : a = 0 \/ a = 1 \/ a = 2 \/ a = 3 \/ a = 4 \/ a = 5 \/ a = 6 \/
               a = 7 \/ a = 8 \/ a = 9) by lia.
  assert (Cb : b = 0 \/ b = 1 \/ b = 2 \/ b = 3 \/ b = 4 \/ b = 5 \/ b = 6 \/
               b = 7 \/ b = 8 \/ b = 9) by lia.
  destruct Ca as [->|[->|[->|[->|[->|[->|[->|[->|[->| ->]]]]]]]]];
  destruct Cb as [->|[->|[->|[->|[->|[->|[->|[->|[->| ->]]]]]]]]];
  reflexivity.
Qed.

Lemma dec2_compare (a b : Z) (s t : string) :
  0 <= a <= 99 -> 0 <= b <= 99 ->
  String.compare (Text.dec2 a ++ s) (Text.dec2 b ++ t) =
  match a ?= b with
  | Eq => String.compare s t
  | c => c
  end.
Proof.
  intros Ha Hb. unfold Text.dec2. cbn [append String.compare].
  rewrite !digit_char_compare by (Z.div_mod_to_equations; lia).
  destruct (Z.compare_spec (a / 10 mod 10) (b / 10 mod 10)) as [E1|E1|E1];
  destruct (Z.compare_spec (a mod 10) (b mod 10)) as [E2|E2|E2];
  destruct (Z.compare_spec a b) as [E|E|E];
  try reflexivity; exfalso; Z.div_mod_to_equations; lia.
Qed.

Lemma dec4_compare (a b : Z) (s t : string) :
  0 <= a <= 9999 -> 0 <= b <= 9999 ->
  String.compare (Text.dec4 a ++ s) (Text.dec4 b ++ t) =
  match a ?= b with
  | Eq => String.compare s t
  | c => c
  end.
Proof.
  intros Ha Hb. unfold Text.dec4.
  cbn [append String.compare].
  rewrite !digit_char_compare by (Z.div_mod_to_equations; lia).
  pose proof (@dec2_compare (a mod 100) (b mod 100) s t) as H2.
  assert (Hda : Text.dec2 (a mod 100) = Text.dec2 a).
  { unfold Text.dec2. f_equal; [|f_equal]; f_equal; Z.div_mod_to_equations; lia. }
  assert (Hdb : Text.dec2 (b mod 100) = Text.dec2 b).
  { unfold Text.dec2. f_equal; [|f_equal]; f_equal; Z.div_mod_to_equations; lia. }
  rewrite Hda, Hdb in H2. rewrite H2 by (Z.div_mod_to_equations; lia).
  (destruct (Z.compare_spec (a / 1000 mod 10) (b / 1000 mod 10)) as [E1|E1|E1];
  destruct (Z.compare_spec (a / 100 mod 10) (b / 100 mod 10)) as [E2|E2|E2];
  destruct (Z.compare_spec (a mod 100) (b mod 100)) as [E3|E3|E3];
  destruct (Z.compare_spec a b) as [E|E|E];
  try reflexivity; exfalso; Z.div_mod_to_equations; lia).
Qed.


Lemma strftime_date_compare (a b : datetime) :
  0 <= year a <= 9999 -> 0 <= month a <= 99 -> 0 <= day a <= 99 ->
  0 <= year b <= 9999 -> 0 <= month b <= 99 -> 0 <= day b <= 99 ->
  String.compare (strftime_date a) (strftime_date b) =
  compare_ymd (year a) (month a) (day a) (year b) (month b) (day b).
Proof.
  intros Hya Hma Hda Hyb Hmb Hdb. unfold strftime_date, compare_ymd.
  rewrite dec4_compare by assumption.
  destruct (year a ?= year b); try reflexivity.
  cbn [append String.compare]. change (Ascii.compare "-" "-") with Eq. cbv iota.
  rewrite dec2_compare by assumption.
  destruct (month a ?= month b); try reflexivity.
  cbn [append String.compare]. change (Ascii.compare "-" "-") with Eq. cbv iota.
  change (Text.dec2 (day a)) with (Text.dec2 (day a) ++ "").
  change (Text.dec2 (day b)) with (Text.dec2 (day b) ++ "").
  rewrite dec2_compare by assumption.
  destruct (day a ?= day b); reflexivity.
Qed.

Lemma days_before_year_succ (y : Z) :
  days_before_year (y + 1) =
  days_before_year y + 365 + (if is_leap y then 1 else 0).
Proof.
  unfold days_before_year, is_leap. cbv zeta.
  repeat match goal with
  | |- context [Z.eqb ?a ?b] => destruct (Z.eqb_spec a b)
  end; cbn [andb orb negb]; Z.div_mod_to_equations; lia.
Qed.

Lemma days_before_year_mono (y1 y2 : Z) :
  y1 <= y2 -> days_before_year y1 <= days_before_year y2.
Proof.
  intro H. unfold days_before_year. cbv zeta. Z.div_mod_to_equations; lia.
Qed.


(** Within a year. *)
Lemma day_of_year_bounds (leap : bool) (m d : Z) :
  1 <= m <= 12 ->
  1 <= d <= (if (m =? 2) && leap then 29 else DAYS_IN_MONTH m) ->
  1 <= DAYS_BEFORE_MONTH m + (if (2 <? m) && leap then 1 else 0) + d
    <= 365 + (if leap then 1 else 0).
Proof.
  intros Hm. month_cases m Hm; destruct leap; eval_closed; lia.
Qed.

Lemma day_of_year_lt (leap : bool) (m1 d1 m2 d2 : Z) :
  1 <= m1 <= 12 -> 1 <= m2 <= 12 ->
  1 <= d1 <= (if (m1 =? 2) && leap then 29 else DAYS_IN_MONTH m1) ->
  1 <= d2 <= (if (m2 =? 2) && leap then 29 else DAYS_IN_MONTH m2) ->
  m1 < m2 ->
  DAYS_BEFORE_MONTH m1 + (if (2 <? m1) && leap then 1 else 0) + d1 <
  DAYS_BEFORE_MONTH m2 + (if (2 <? m2) && leap then 1 else 0) + d2.
Proof.
  intros Hm1 Hm2.
  assert (C2 : m2 = 1 \/ m2 = 2 \/ m2 = 3 \/ m2 = 4 \/ m2 = 5 \/ m2 = 6 \/
              m2 = 7 \/ m2 = 8 \/ m2 = 9 \/ m2 = 10 \/ m2 = 11 \/ m2 = 12) by lia.
  month_cases m1 Hm1; destruct leap;
  destruct C2 as [->|[->|[->|[->|[->|[->|[->|[->|[->|[->|[->| ->]]]]]]]]]]];
  eval_closed; lia.
Qed.

Lemma ymd2ord_bounds (y m d : Z) :
  valid_date y m d ->
  days_before_year y < ymd2ord y m d <= days_before_year (y + 1).
Proof.
  intros (Hy & Hm & Hd). unfold ymd2ord, days_before_month.
  unfold days_in_month in Hd.
  rewrite days_before_year_succ.
  pose proof (@day_of_year_bounds (is_leap y) m d Hm Hd). lia.
Qed.

(** Ordinals are in the order of the calendar. *)
Lemma ymd2ord_compare (y1 m1 d1 y2 m2 d2 : Z) :
  valid_date y1 m1 d1 -> valid_date y2 m2 d2 ->
  (ymd2ord y1 m1 d1 ?= ymd2ord y2 m2 d2) = compare_ymd y1 m1 d1 y2 m2 d2.
Proof.
  intros V1 V2. unfold compare_ymd.
  pose proof (ymd2ord_bounds V1) as B1.
  pose proof (ymd2ord_bounds V2) as B2.
  destruct V1 as (Hy1 & Hm1 & Hd1), V2 as (Hy2 & Hm2 & Hd2).
  unfold days_in_month in Hd1, Hd2.
  destruct (Z.compare_spec y1 y2) as [Ey|Ey|Ey].
  - subst y2. unfold ymd2ord, days_before_month in *.
    destruct (Z.compare_spec m1 m2) as [Em|Em|Em].
    + subst m2. destruct (Z.compare_spec d1 d2); [apply Z.compare_eq_iff|apply Z.compare_lt_iff|apply Z.compare_gt_iff]; lia.
    + apply Z.compare_lt_iff.
      pose proof (@day_of_year_lt (is_leap y1) m1 d1 m2 d2 Hm1 Hm2 Hd1 Hd2 Em). lia.
    + apply Z.compare_gt_iff.
      pose proof (@day_of_year_lt (is_leap y1) m2 d2 m1 d1 Hm2 Hm1 Hd2 Hd1 Em). lia.
  - apply Z.compare_lt_iff.
    pose proof (@days_before_year_mono (y1 + 1) y2). lia.
  - apply Z.compare_gt_iff.
    pose proof (@days_before_year_mono (y2 + 1) y1). lia.
Qed.


Lemma minus_days_spec (d : datetime) (k : Z) :
  1 <= toordinal d - k <= 3652059 ->
  valid (minus_days d k) /\ toordinal (minus_days d k) = toordinal d - k.
Proof.
  intro H. unfold minus_days.
  pose proof (ord2ymd_spec H) as Hs.
  destruct (ord2ymd (toordinal d - k)) as [[y m] dd].
  exact Hs.
Qed.

Lemma toordinal_le_max (d : datetime) : valid d -> 1 <= toordinal d <= 3652059.
Proof.
  intro V. pose proof (ymd2ord_bounds V) as B. unfold toordinal.
  destruct V as (Hy & _).
  pose proof (@days_before_year_mono (year d + 1) 10000).
  pose proof (@days_before_year_mono 1 (year d)).
  change (days_before_year 10000) with 3652059 in *.
  change (days_before_year 1) with 0 in *. lia.
Qed.

Lemma toordinal_compare (a b : datetime) :
  valid a -> valid b ->
  (toordinal a ?= toordinal b) =
  compare_ymd (year a) (month a) (day a) (year b) (month b) (day b).
Proof. intros Va Vb. exact (ymd2ord_compare Va Vb). Qed.

Lemma valid_date_bounds (y m d : Z) :
  valid_date y m d -> 0 <= y <= 9999 /\ 0 <= m <= 99 /\ 0 <= d <= 99.
Proof.
  intros (Hy & Hm & Hd). unfold days_in_month in Hd.
  split; [lia|]. split; [lia|].
  revert Hd. month_cases m Hm; destruct (is_leap y); eval_closed; lia.
Qed.

(** The text of a date written by [strftime] is smaller than the text of
    the date [k] days before [today] exactly when it is more than [k] days
    before [today]. *)
Lemma text_before_cutoff (entered today : datetime) (k : Z) :
  valid entered -> valid today -> 0 <= k < toordinal today ->
  String.ltb (strftime_date entered) (strftime_date (minus_days today k)) = true
  <-> toordinal entered < toordinal today - k.
Proof.
  intros Ve Vt Hk.
  pose proof (toordinal_le_max Vt) as Bt.
  destruct (@minus_days_spec today k) as [Vc Ec]; [lia|].
  destruct (valid_date_bounds Ve) as (? & ? & ?).
  destruct (valid_date_bounds Vc) as (? & ? & ?).
  unfold String.ltb.
  rewrite strftime_date_compare by assumption.
  rewrite <- (toordinal_compare Ve Vc), Ec.
  destruct (Z.compare_spec (toordinal entered) (toordinal today - k));
    split; intro; try discriminate; try reflexivity; lia.
Qed.

End CalendarFacts.

(* ===================================================================== *)
(** * Facts about strptime *)
(* ===================================================================== *)

Section StrptimeFacts.

Import Calendar.

Lemma in_range_iff (lo hi c : ascii) :
  in_range lo hi c = true <->
  (N_of_ascii lo <= N_of_ascii c <= N_of_ascii hi)%N.
Proof.
  unfold in_range. rewrite andb_true_iff, !N.leb_le. tauto.
Qed.

Lemma digit_char_val (c : ascii) :
  (48 <= N_of_ascii c <= 57)%N ->
  Text.digit_char (digit_val c) = c /\ 0 <= digit_val c <= 9.
Proof.
  intro H. unfold digit_val.
  rewrite <- (ascii_N_embedding c) at 2.
  remember (N_of_ascii c) as n eqn:En. clear En.
  assert (C : (n = 48 \/ n = 49 \/ n = 50 \/ n = 51 \/ n = 52 \/ n = 53 \/
               n = 54 \/ n = 55 \/ n = 56 \/ n = 57)%N) by lia.
  destruct C as [->|[->|[->|[->|[->|[->|[->|[->|[->| ->]]]]]]]]];
    split; (reflexivity || (cbv; split; discriminate)).
Qed.

Lemma re_two_inv (l1 h1 l2 h2 : ascii) (s : string) (v : Z) (rest : string) :
  re_two l1 h1 l2 h2 s = Some (v, rest) ->
  exists a b,
    s = String a (String b rest) /\
    (N_of_ascii l1 <= N_of_ascii a <= N_of_ascii h1)%N /\
    (N_of_ascii l2 <= N_of_ascii b <= N_of_ascii h2)%N /\
    v = digit_val a * 10 + digit_val b.
Proof.
  unfold re_two. destruct s as [|a [|b s']]; try discriminate.
  destruct (in_range l1 h1 a) eqn:Ea; [|discriminate].
  destruct (in_range l2 h2 b) eqn:Eb; [|discriminate].
  cbn [andb]. intro E. injection E as <- <-.
  apply in_range_iff in Ea, Eb. exists a, b. auto.
Qed.

Lemma re_one_inv (l h : ascii) (s : string) (v : Z) (rest : string) :
  re_one l h s = Some (v, rest) ->
  exists a,
    s = String a rest /\
    (N_of_ascii l <= N_of_ascii a <= N_of_ascii h)%N /\
    v = digit_val a.
Proof.
  unfold re_one. destruct s as [|a s']; try discriminate.
  destruct (in_range l h a) eqn:Ea; [|discriminate].
  intro E. injection E as <- <-.
  apply in_range_iff in Ea. exists a. auto.
Qed.

Lemma re_space_one_inv (l h : ascii) (s : string) (v : Z) (rest : string) :
  re_space_one l h s = Some (v, rest) ->
  exists a,
    s = String " " (String a rest) /\
    (N_of_ascii l <= N_of_ascii a <= N_of_ascii h)%N /\
    v = digit_val a.
Proof.
  unfold re_space_one. destruct s as [|c [|a s']]; try discriminate.
  - destruct c as [[] [] [] [] [] [] [] []]; discriminate.
  - destruct (Ascii.eqb_spec c " ") as [->|Hc].
    + destruct (in_range l h a) eqn:Ea; [|discriminate].
      intro E. injection E as <- <-.
      apply in_range_iff in Ea. exists a. auto.
    + destruct c as [[] [] [] [] [] [] [] []]; try discriminate.
      congruence.
Qed.

Lemma dec2_digits (a b : ascii) :
  (48 <= N_of_ascii a <= 57)%N -> (48 <= N_of_ascii b <= 57)%N ->
  Text.dec2 (digit_val a * 10 + digit_val b) = String a (String b EmptyString).
Proof.
  intros Ha Hb.
  destruct (@digit_char_val _ Ha) as [Ea Ra], (@digit_char_val _ Hb) as [Eb Rb].
  unfold Text.dec2.
  replace ((digit_val a * 10 + digit_val b) / 10 mod 10) with (digit_val a)
    by (Z.div_mod_to_equations; lia).
  replace ((digit_val a * 10 + digit_val b) mod 10) with (digit_val b)
    by (Z.div_mod_to_equations; lia).
  now rewrite Ea, Eb.
Qed.

Lemma re_Y_inv (s : string) (y : Z) (rest : string) :
  re_Y s = Some (y, rest) ->
  0 <= y <= 9999 /\ s = Text.dec4 y ++ rest.
Proof.
  unfold re_Y. destruct s as [|a [|b [|c [|d s']]]]; try discriminate.
  unfold is_digit.
  destruct (in_range "0" "9" a) eqn:Ea; [|discriminate].
  destruct (in_range "0" "9" b) eqn:Eb; [|discriminate].
  destruct (in_range "0" "9" c) eqn:Ec; [|discriminate].
  destruct (in_range "0" "9" d) eqn:Ed; [|discriminate].
  cbn [andb]. intro E. injection E as <- <-.
  apply in_range_iff in Ea, Eb, Ec, Ed.
  change (N_of_ascii "0") with 48%N in *. change (N_of_ascii "9") with 57%N in *.
  destruct (@digit_char_val _ Ea) as [Ea' Ra], (@digit_char_val _ Eb) as [Eb' Rb],
           (@digit_char_val _ Ec) as [Ec' Rc], (@digit_char_val _ Ed) as [Ed' Rd].
  split; [lia|].
  unfold Text.dec4, Text.dec2. cbn [append].
  set (y := digit_val a * 1000 + digit_val b * 100 + digit_val c * 10 + digit_val d).
  replace (y / 1000 mod 10) with (digit_val a) by (subst y; Z.div_mod_to_equations; lia).
  replace (y / 100 mod 10) with (digit_val b) by (subst y; Z.div_mod_to_equations; lia).
  replace (y / 10 mod 10) with (digit_val c) by (subst y; Z.div_mod_to_equations; lia).
  replace (y mod 10) with (digit_val d) by (subst y; Z.div_mod_to_equations; lia).
  now rewrite Ea', Eb', Ec', Ed'.
Qed.


Lemma alt_inv (R : Type) (ps : list piece) (k : Z -> string -> option R)
    (s : string) (r : R) :
  alt ps k s = Some r ->
  exists p v rest, In p ps /\ p s = Some (v, rest) /\ k v rest = Some r.
Proof.
  induction ps as [|p ps IH]; cbn [alt]; [discriminate|].
  destruct (p s) as [[v rest]|] eqn:Ep.
  - destruct (k v rest) as [r'|] eqn:Ek.
    + intro E. injection E as <-. exists p, v, rest. cbn [In]. auto.
    + intro H. destruct (IH H) as (p' & v' & rest' & Hin & H1 & H2).
      exists p', v', rest'. cbn [In]. auto.
  - intro H. destruct (IH H) as (p' & v' & rest' & Hin & H1 & H2).
    exists p', v', rest'. cbn [In]. auto.
Qed.

Lemma lit_inv (R : Type) (c : ascii) (k : string -> option R) (s : string) (r : R) :
  lit c k s = Some r -> exists rest, s = String c rest /\ k rest = Some r.
Proof.
  unfold lit. destruct s as [|a s']; [discriminate|].
  destruct (Ascii.eqb_spec a c) as [->|]; [|discriminate].
  intro H. exists s'. auto.
Qed.

(** What a month piece takes: the text it consumes spells its value. *)
Lemma re_m_inv (p : piece) (s : string) (m : Z) (rest : string) :
  In p re_m -> p s = Some (m, rest) ->
  exists ms, s = ms ++ rest /\ 1 <= m <= 12 /\ In ms (month_spellings m).
Proof.
  unfold re_m, month_spellings. cbn [In].
  intros [<- | [<- | [<- | []]]] H.
  - apply re_two_inv in H. destruct H as (a & b & -> & Ha & Hb & ->).
    change (N_of_ascii "1") with 49%N in *. change (N_of_ascii "0") with 48%N in *.
    change (N_of_ascii "2") with 50%N in *.
    assert (Ha' : (48 <= N_of_ascii a <= 57)%N) by lia.
    assert (Hb' : (48 <= N_of_ascii b <= 57)%N) by lia.
    exists (String a (String b EmptyString)). split; [reflexivity|].
    rewrite <- (@dec2_digits _ _ Ha' Hb').
    destruct (@digit_char_val _ Ha') as [_ Ra], (@digit_char_val _ Hb') as [_ Rb].
    unfold digit_val in *.
    assert (1 <= Z.of_N (N_of_ascii a) - 48 <= 1) by lia.
    assert (0 <= Z.of_N (N_of_ascii b) - 48 <= 2) by lia.
    split; [lia|].
    destruct (_ <? 10); cbn [In]; auto.
  - apply re_two_inv in H. destruct H as (a & b & -> & Ha & Hb & ->).
    change (N_of_ascii "1") with 49%N in *. change (N_of_ascii "0") with 48%N in *.
    change (N_of_ascii "9") with 57%N in *.
    assert (Ha' : (48 <= N_of_ascii a <= 57)%N) by lia.
    assert (Hb' : (48 <= N_of_ascii b <= 57)%N) by lia.
    exists (String a (String b EmptyString)). split; [reflexivity|].
    rewrite <- (@dec2_digits _ _ Ha' Hb').
    unfold digit_val in *.
    split; [lia|].
    destruct (_ <? 10); cbn [In]; auto.
  - apply re_one_inv in H. destruct H as (a & -> & Ha & ->).
    change (N_of_ascii "1") with 49%N in *. change (N_of_ascii "9") with 57%N in *.
    assert (Ha' : (48 <= N_of_ascii a <= 57)%N) by lia.
    destruct (@digit_char_val _ Ha') as [Ea Ra].
    exists (String a EmptyString). split; [reflexivity|].
    assert (Hm : 1 <= digit_val a <= 9) by (unfold digit_val in *; lia).
    split; [lia|].
    destruct (Z.ltb_spec (digit_val a) 10); [|lia].
    cbn [In]. right. left. unfold Text.dec1. now rewrite Ea.
Qed.

Lemma re_d_inv (p : piece) (s : string) (d : Z) (rest : string) :
  In p re_d -> p s = Some (d, rest) ->
  exists ds, s = ds ++ rest /\ 1 <= d <= 31 /\ In ds (day_spellings d).
Proof.
  unfold re_d, day_spellings. cbn [In].
  intros [<- | [<- | [<- | [<- | [<- | []]]]]] H.
  1-3: apply re_two_inv in H; destruct H as (a & b & -> & Ha & Hb & ->);
    change (N_of_ascii "0") with 48%N in *; change (N_of_ascii "1") with 49%N in *;
    change (N_of_ascii "2") with 50%N in *; change (N_of_ascii "3") with 51%N in *;
    change (N_of_ascii "9") with 57%N in *;
    assert (Ha' : (48 <= N_of_ascii a <= 57)%N) by lia;
    assert (Hb' : (48 <= N_of_ascii b <= 57)%N) by lia;
    exists (String a (String b EmptyString)); (split; [reflexivity|]);
    rewrite <- (@dec2_digits _ _ Ha' Hb');
    unfold digit_val in *;
    (split; [lia|]);
    destruct (_ <? 10); cbn [In]; auto.
  - apply re_one_inv in H. destruct H as (a & -> & Ha & ->).
    change (N_of_ascii "1") with 49%N in *. change (N_of_ascii "9") with 57%N in *.
    assert (Ha' : (48 <= N_of_ascii a <= 57)%N) by lia.
    destruct (@digit_char_val _ Ha') as [Ea Ra].
    exists (String a EmptyString). split; [reflexivity|].
    assert (Hm : 1 <= digit_val a <= 9) by (unfold digit_val in *; lia).
    split; [lia|].
    destruct (Z.ltb_spec (digit_val a) 10); [|lia].
    cbn [In]. right. left. unfold Text.dec1. now rewrite Ea.
  - apply re_space_one_inv in H. destruct H as (a & -> & Ha & ->).
    change (N_of_ascii "1") with 49%N in *. change (N_of_ascii "9") with 57%N in *.
    assert (Ha' : (48 <= N_of_ascii a <= 57)%N) by lia.
    destruct (@digit_char_val _ Ha') as [Ea Ra].
    exists (String " " (String a EmptyString)). split; [reflexivity|].
    assert (Hm : 1 <= digit_val a <= 9) by (unfold digit_val in *; lia).
    split; [lia|].
    destruct (Z.ltb_spec (digit_val a) 10); [|lia].
    cbn [In]. right. right. left. unfold Text.dec1. cbn [append]. now rewrite Ea.
Qed.

Lemma append_assoc (a b c : string) : (a ++ b) ++ c = a ++ (b ++ c).
Proof. induction a as [|x a IH]; cbn [append]; [reflexivity|now rewrite IH]. Qed.

Lemma regex_Ymd_inv (s : string) (y m d : Z) (rest : string) :
  regex_Ymd s = Some (y, m, d, rest) ->
  0 <= y <= 9999 /\ 1 <= m <= 12 /\ 1 <= d <= 31 /\
  exists ms ds,
    In ms (month_spellings m) /\ In ds (day_spellings d) /\
    s = Text.dec4 y ++ "-" ++ ms ++ "-" ++ ds ++ rest.
Proof.
  unfold regex_Ymd.
  destruct (re_Y s) as [[y0 s1]|] eqn:EY; [|discriminate].
  apply re_Y_inv in EY. destruct EY as [Hy ->].
  intro H. apply lit_inv in H. destruct H as (s2 & -> & H).
  apply alt_inv in H. destruct H as (pm & m0 & s3 & Hpm & Epm & H).
  apply lit_inv in H. destruct H as (s4 & -> & H).
  apply alt_inv in H. destruct H as (pd & d0 & s5 & Hpd & Epd & H).
  injection H as -> -> -> ->.
  destruct (@re_m_inv _ _ _ _ Hpm Epm) as (ms & -> & Hm & Hms).
  destruct (@re_d_inv _ _ _ _ Hpd Epd) as (ds & -> & Hd & Hds).
  split; [lia|]. split; [lia|]. split; [lia|].
  exists ms, ds. split; [exact Hms|]. split; [exact Hds|].
  reflexivity.
Qed.

(** ** The other direction: every spelling is taken *)

Lemma digit_char_is_digit (n : Z) :
  0 <= n <= 9 ->
  is_digit (Text.digit_char n) = true /\ digit_val (Text.digit_char n) = n.
Proof.
  intro H.
  assert (Hk : (Z.to_nat n < 10)%nat) by lia.
  replace n with (Z.of_nat (Z.to_nat n)) by lia.
  revert Hk. generalize (Z.to_nat n) as k. intros k Hk.
  do 10 (destruct k as [|k]; [split; reflexivity|]). lia.
Qed.

Lemma re_Y_dec4 (y : Z) (rest : string) :
  0 <= y <= 9999 -> re_Y (Text.dec4 y ++ rest) = Some (y, rest).
Proof.
  intro Hy. unfold Text.dec4, Text.dec2, re_Y. cbn [append].
  destruct (@digit_char_is_digit (y / 1000 mod 10)) as [-> ->];
    [Z.div_mod_to_equations; lia|].
  destruct (@digit_char_is_digit (y / 100 mod 10)) as [-> ->];
    [Z.div_mod_to_equations; lia|].
  destruct (@digit_char_is_digit (y / 10 mod 10)) as [-> ->];
    [Z.div_mod_to_equations; lia|].
  destruct (@digit_char_is_digit (y mod 10)) as [-> ->];
    [Z.div_mod_to_equations; lia|].
  cbn [andb]. do 2 f_equal. Z.div_mod_to_equations; lia.
Qed.

(** After a month spelled [ms] and the dash, the match goes on with the
    month's value. *)
Lemma alt_re_m_spelling (R : Type) (k : Z -> string -> option R) (m : Z)
    (ms rest : string) :
  1 <= m <= 12 -> In ms (month_spellings m) ->
  alt re_m (fun v => lit "-" (k v)) (ms ++ String "-" rest) = k m rest.
Proof.
  intros Hm Hin.
  (month_cases m Hm;
    cbv [month_spellings Z.ltb Z.compare Pos.compare Pos.compare_cont] in Hin;
    cbn [In] in Hin;
    repeat (destruct Hin as [<- | Hin]; [|]); try contradiction).
  all: (vm_compute; destruct (k _ rest); reflexivity).
Qed.

(** A day spelled [ds] at the end of the text is matched with its value. *)
Lemma alt_re_d_spelling (R : Type) (g : Z -> string -> R) (d : Z) (ds : string) :
  1 <= d <= 31 -> In ds (day_spellings d) ->
  alt re_d (fun v rest => Some (g v rest)) ds = Some (g d EmptyString).
Proof.
  intros Hd Hin.
  assert (C : d = 1 \/ d = 2 \/ d = 3 \/ d = 4 \/ d = 5 \/ d = 6 \/ d = 7 \/
              d = 8 \/ d = 9 \/ d = 10 \/ d = 11 \/ d = 12 \/ d = 13 \/
              d = 14 \/ d = 15 \/ d = 16 \/ d = 17 \/ d = 18 \/ d = 19 \/
              d = 20 \/ d = 21 \/ d = 22 \/ d = 23 \/ d = 24 \/ d = 25 \/
              d = 26 \/ d = 27 \/ d = 28 \/ d = 29 \/ d = 30 \/ d = 31) by lia.
  clear Hd.
  (repeat (destruct C as [-> | C]); [..|subst d];
    cbv [day_spellings Z.ltb Z.compare Pos.compare Pos.compare_cont] in Hin;
    cbn [In] in Hin;
    repeat (destruct Hin as [<- | Hin]; [|]); try contradiction).
  all: (vm_compute; reflexivity).
Qed.

Lemma append_nil_r (s : string) : s ++ "" = s.
Proof. induction s as [|c s IH]; cbn [append]; [reflexivity|now rewrite IH]. Qed.

Lemma days_in_month_le_31 (y m : Z) : 1 <= m <= 12 -> days_in_month y m <= 31.
Proof.
  intro Hm. unfold days_in_month.
  month_cases m Hm; destruct (is_leap y); eval_closed; lia.
Qed.

(** What [strptime] takes: the spellings of the dates of the calendar. *)
Lemma strptime_Ymd_spec (s : string) (dt : datetime) :
  strptime_Ymd s = Some dt <->
  valid dt /\ midnight dt /\ In s (spellings dt).
Proof.
  unfold strptime_Ymd, valid, valid_date, midnight, spellings. split.
  - destruct (regex_Ymd s) as [[[[y m] d] rest]|] eqn:R; [|discriminate].
    destruct (String.eqb_spec rest EmptyString) as [->|]; [|discriminate].
    cbn [negb].
    destruct (_ && _) eqn:V; [|discriminate].
    intro E. injection E as <-. cbn [year month day hour minute second].
    rewrite !andb_true_iff, !Z.leb_le in V.
    split; [lia|]. split; [auto|].
    apply regex_Ymd_inv in R.
    destruct R as (_ & _ & _ & ms & ds & Hms & Hds & ->).
    apply in_flat_map. exists ms. split; [exact Hms|].
    apply in_map_iff. exists ds. split; [|exact Hds].
    now rewrite append_nil_r.
  - intros ((Hy & Hm & Hd) & (Hh & Hmi & Hs) & Hin).
    apply in_flat_map in Hin. destruct Hin as (ms & Hms & Hin).
    apply in_map_iff in Hin. destruct Hin as (ds & <- & Hds).
    pose proof (@days_in_month_le_31 (year dt) (month dt) Hm) as H31.
    unfold regex_Ymd.
    rewrite re_Y_dec4 by lia.
    unfold lit at 1. cbn [append]. change (Ascii.eqb "-" "-") with true. cbv iota.
    rewrite (@alt_re_m_spelling _ _ (month dt) ms ds Hm Hms).
    rewrite (@alt_re_d_spelling _ (fun d rest => (year dt, month dt, d, rest))
               (day dt) ds) by (assumption || lia).
    cbn [String.eqb negb].
    replace ((1 <=? year dt) && (year dt <=? 9999) && (1 <=? month dt)
             && (month dt <=? 12) && (1 <=? day dt)
             && (day dt <=? days_in_month (year dt) (month dt))) with true.
    + destruct dt; cbn [year month day hour minute second] in *. congruence.
    + symmetry. rewrite !andb_true_iff, !Z.leb_le. lia.
Qed.

End StrptimeFacts.

(* ===================================================================== *)
(** * Facts about ORDER BY *)
(* ===================================================================== *)

Section OrderByFacts.

Variable A : Type.
Variable leb : A -> A -> bool.

Lemma insert_sorted_perm (x : A) (l : list A) :
  Permutation (insert_sorted leb x l) (x :: l).
Proof.
  induction l as [|y l IH]; simpl.
  - apply Permutation_refl.
  - destruct (leb x y).
    + apply Permutation_refl.
    + apply Permutation_trans with (y :: x :: l).
      * now apply perm_skip.
      * apply perm_swap.
Qed.

Lemma order_by_perm (l : list A) : Permutation (order_by leb l) l.
Proof.
  induction l as [|x l IH]; simpl.
  - apply perm_nil.
  - apply Permutation_trans with (x :: order_by leb l).
    + apply insert_sorted_perm.
    + now apply perm_skip.
Qed.

Lemma order_by_In (l : list A) (x : A) : In x (order_by leb l) <-> In x l.
Proof.
  split; apply Permutation_in.
  - apply order_by_perm.
  - apply Permutation_sym, order_by_perm.
Qed.

Lemma order_by_length (l : list A) : List.length (order_by leb l) = List.length l.
Proof. apply Permutation_length, order_by_perm. Qed.

Lemma order_by_nil (l : list A) : order_by leb l = [] <-> l = [].
Proof.
  split; intro H.
  - apply length_zero_iff_nil. rewrite <- order_by_length, H. reflexivity.
  - subst. reflexivity.
Qed.

Hypothesis leb_total : forall a b, leb a b = true \/ leb b a = true.
Hypothesis leb_trans : forall a b c, leb a b = true -> leb b c = true -> leb a c = true.

Lemma insert_sorted_sorted (x : A) (l : list A) :
  StronglySorted (before leb) l -> StronglySorted (before leb) (insert_sorted leb x l).
Proof.
  induction l as [|y l IH]; simpl; intro Hs.
  - constructor; [constructor | constructor].
  - inversion Hs as [|? ? Hl Hy]; subst.
    destruct (leb x y) eqn:E.
    + constructor; [assumption|].
      constructor; [exact E|].
      rewrite Forall_forall in *. intros z Hz.
      apply leb_trans with y; [exact E | now apply Hy].
    + constructor; [now apply IH|].
      rewrite Forall_forall in *. intros z Hz.
      apply (Permutation_in _ (insert_sorted_perm x l)) in Hz.
      destruct Hz as [<- | Hz].
      * destruct (leb_total x y) as [H | H]; [congruence | exact H].
      * now apply Hy.
Qed.

Lemma order_by_sorted (l : list A) : StronglySorted (before leb) (order_by leb l).
Proof.
  induction l as [|x l IH]; simpl.
  - constructor.
  - now apply insert_sorted_sorted.
Qed.

(** The first row of the ordered output comes before every row. *)
Lemma order_by_head (l : list A) (x : A) :
  hd_error (firstn 1 (order_by leb l)) = Some x ->
  In x l /\ forall y, In y l -> leb x y = true.
Proof.
  intro H.
  pose proof (order_by_sorted l) as Hs.
  pose proof (order_by_In l) as Hin.
  destruct (order_by leb l) as [|z l'] eqn:E; simpl in H; [discriminate|].
  injection H as ->.
  split.
  - apply Hin. now left.
  - intros y Hy. apply Hin in Hy. destruct Hy as [<- | Hy].
    + destruct (leb_total x x); assumption.
    + inversion Hs as [|? ? _ Hall]; subst.
      rewrite Forall_forall in Hall. now apply Hall.
Qed.

Lemma order_by_head_none (l : list A) :
  hd_error (firstn 1 (order_by leb l)) = None <-> l = [].
Proof.
  rewrite <- order_by_nil.
  destruct (order_by leb l); simpl; split; intro H; congruence.
Qed.

End OrderByFacts.

Section Comparisons.

Variable A : Type.

Context (cmp : A -> A -> comparison) `{!Ordering cmp}.

Lemma cmp_eq_right (a b c : A) : cmp b c = Eq -> cmp a b = cmp a c.
Proof.
  intro E.
  rewrite (cmp_antisym b a), (cmp_antisym c a). f_equal.
  exact (cmp_eq_left b c a E).
Qed.

Lemma cmp_gt_trans (a b c : A) : cmp a b = Gt -> cmp b c = Gt -> cmp a c = Gt.
Proof.
  intros H1 H2.
  assert (E1 : cmp b a = Lt) by (rewrite (cmp_antisym a b), H1; reflexivity).
  assert (E2 : cmp c b = Lt) by (rewrite (cmp_antisym b c), H2; reflexivity).
  pose proof (cmp_lt_trans _ _ _ E2 E1) as E.
  rewrite (cmp_antisym c a), E. reflexivity.
Qed.

Lemma le_of_total (a b : A) : le_of cmp a b = true \/ le_of cmp b a = true.
Proof.
  unfold le_of. rewrite (cmp_antisym a b).
  destruct (cmp a b); simpl; auto.
Qed.

Lemma le_of_trans (a b c : A) :
  le_of cmp a b = true -> le_of cmp b c = true -> le_of cmp a c = true.
Proof.
  unfold le_of. intros H1 H2.
  destruct (cmp a b) eqn:E1; try discriminate.
  - rewrite (cmp_eq_left _ _ c E1). exact H2.
  - destruct (cmp b c) eqn:E2; try discriminate.
    + rewrite <- (cmp_eq_right a E2), E1. reflexivity.
    + rewrite (cmp_lt_trans _ _ _ E1 E2). reflexivity.
Qed.

Lemma ge_of_total (a b : A) : ge_of cmp a b = true \/ ge_of cmp b a = true.
Proof.
  unfold ge_of. rewrite (cmp_antisym a b).
  destruct (cmp a b); simpl; auto.
Qed.

Lemma ge_of_trans (a b c : A) :
  ge_of cmp a b = true -> ge_of cmp b c = true -> ge_of cmp a c = true.
Proof.
  unfold ge_of. intros H1 H2.
  destruct (cmp a b) eqn:E1; try discriminate.
  - rewrite (cmp_eq_left _ _ c E1). exact H2.
  - destruct (cmp b c) eqn:E2; try discriminate.
    + rewrite <- (cmp_eq_right a E2), E1. reflexivity.
    + rewrite (cmp_gt_trans E1 E2). reflexivity.
Qed.

End Comparisons.

Section ComparisonInstances.

#[global] Instance string_ordering : Ordering String.compare.
Proof.
  split.
  - intros a b. apply String.compare_antisym.
  - intros a b c H1 H2.
    apply String_as_OT.cmp_lt. apply String_as_OT.cmp_lt in H1, H2.
    eapply String_as_OT.lt_trans; eassumption.
  - intros a b c E. apply String.compare_eq_iff in E. now subst.
Qed.

Lemma string_compare_refl (s : string) : String.compare s s = Eq.
Proof.
  pose proof (String.compare_antisym s s) as H.
  destruct (String.compare s s); simpl in H; congruence.
Qed.

#[global] Instance nullable_ordering : Ordering Text.compare_nullable.
Proof.
  split.
  - intros [a|] [b|]; simpl; try reflexivity. apply String.compare_antisym.
  - intros [a|] [b|] [c|]; simpl; try congruence.
    apply (cmp_lt_trans (cmp:=String.compare)).
  - intros [a|] [b|] [c|]; simpl; try congruence.
    intro E. apply String.compare_eq_iff in E. now subst.
Qed.

#[global] Instance Z_ordering : Ordering Z.compare.
Proof.
  split.
  - intros a b. apply Z.compare_antisym.
  - intros a b c. rewrite !Z.compare_lt_iff. lia.
  - intros a b c E. apply Z.compare_eq in E. now subst.
Qed.

(** A comparison on a key of the rows. *)
#[global] Instance on_key_ordering {A K : Type} (key : A -> K)
    (cmp : K -> K -> comparison) `{Ordering K cmp} :
  Ordering (fun a b => cmp (key a) (key b)).
Proof.
  split.
  - intros a b. apply (cmp_antisym (cmp:=cmp)).
  - intros a b c. apply (cmp_lt_trans (cmp:=cmp)).
  - intros a b c. apply (cmp_eq_left (cmp:=cmp)).
Qed.

(** A first key, then a second where the first ties. *)
#[global] Instance lexicographic_ordering {A : Type}
    (c1 c2 : A -> A -> comparison) `{Ordering A c1} `{Ordering A c2} :
  Ordering (fun a b => match c1 a b with Eq => c2 a b | c => c end).
Proof.
  split.
  - intros a b. rewrite (cmp_antisym (cmp:=c1) a b).
    destruct (c1 a b); simpl; try reflexivity. apply (cmp_antisym (cmp:=c2)).
  - intros a b c.
    destruct (c1 a b) eqn:E1; try discriminate.
    + rewrite (cmp_eq_left (cmp:=c1) _ _ c E1).
      destruct (c1 b c); try discriminate; auto.
      apply (cmp_lt_trans (cmp:=c2)).
    + intros _. destruct (c1 b c) eqn:E2; try discriminate.
      * rewrite <- (cmp_eq_right (cmp:=c1) a b c E2), E1. reflexivity.
      * rewrite (cmp_lt_trans (cmp:=c1) _ _ _ E1 E2). reflexivity.
  - intros a b c.
    destruct (c1 a b) eqn:E1; try discriminate.
    intro E2. rewrite (cmp_eq_left (cmp:=c1) _ _ c E1).
    destruct (c1 b c); try reflexivity. now apply (cmp_eq_left (cmp:=c2)).
Qed.

End ComparisonInstances.

(* ===================================================================== *)
(** * Facts about the table *)
(* ===================================================================== *)

Section StoreFacts.

Variable X : Type.

Implicit Types (r : row X) (l : list (row X)) (t : table X).

#[local] Instance date_entry_ordering : Ordering (@compare_date_entry X).
Proof.
  unfold compare_date_entry.
  exact (@lexicographic_ordering (row X)
           (fun a b => String.compare (date a) (date b))
           (fun a b => Text.compare_nullable (entry_time a) (entry_time b))
           (@on_key_ordering _ _ (@date X) String.compare _)
           (@on_key_ordering _ _ (@entry_time X) Text.compare_nullable _)).
Qed.

Lemma by_date_entry_total r1 r2 :
  by_date_entry r1 r2 = true \/ by_date_entry r2 r1 = true.
Proof. apply (le_of_total (cmp:=@compare_date_entry X)). Qed.

Lemma by_date_entry_trans r1 r2 r3 :
  by_date_entry r1 r2 = true -> by_date_entry r2 r3 = true ->
  by_date_entry r1 r3 = true.
Proof. apply (le_of_trans (cmp:=@compare_date_entry X)). Qed.

Lemma by_date_entry_desc_total r1 r2 :
  by_date_entry_desc r1 r2 = true \/ by_date_entry_desc r2 r1 = true.
Proof. apply (ge_of_total (cmp:=@compare_date_entry X)). Qed.

Lemma by_date_entry_desc_trans r1 r2 r3 :
  by_date_entry_desc r1 r2 = true -> by_date_entry_desc r2 r3 = true ->
  by_date_entry_desc r1 r3 = true.
Proof. apply (ge_of_trans (cmp:=@compare_date_entry X)). Qed.

Lemma by_entry_desc_total r1 r2 :
  by_entry_desc r1 r2 = true \/ by_entry_desc r2 r1 = true.
Proof.
  apply (@ge_of_total _ _ (@on_key_ordering _ _ (@entry_time X) Text.compare_nullable _)).
Qed.

Lemma by_entry_desc_trans r1 r2 r3 :
  by_entry_desc r1 r2 = true -> by_entry_desc r2 r3 = true ->
  by_entry_desc r1 r3 = true.
Proof.
  apply (@ge_of_trans _ _ (@on_key_ordering _ _ (@entry_time X) Text.compare_nullable _)).
Qed.

Lemma by_name_total r1 r2 : by_name r1 r2 = true \/ by_name r2 r1 = true.
Proof.
  apply (@le_of_total _ _ (@on_key_ordering _ _ (@name X) String.compare _)).
Qed.

Lemma by_name_trans r1 r2 r3 :
  by_name r1 r2 = true -> by_name r2 r3 = true -> by_name r1 r3 = true.
Proof.
  apply (@le_of_trans _ _ (@on_key_ordering _ _ (@name X) String.compare _)).
Qed.

Lemma by_id_desc_total r1 r2 : by_id_desc r1 r2 = true \/ by_id_desc r2 r1 = true.
Proof. unfold by_id_desc. rewrite !Z.leb_le. lia. Qed.

Lemma by_id_desc_trans r1 r2 r3 :
  by_id_desc r1 r2 = true -> by_id_desc r2 r3 = true -> by_id_desc r1 r3 = true.
Proof. unfold by_id_desc. rewrite !Z.leb_le. lia. Qed.

(** ** Row identifiers *)

Lemma max_rowid_ge l r : In r l -> id r <= max_rowid l.
Proof.
  induction l as [|x l IH]; simpl; [tauto|].
  intros [-> | H]; [lia|]. specialize (IH H). lia.
Qed.

Lemma next_rowid_fresh t r : In r (rows t) -> id r < next_rowid t.
Proof.
  intro H. apply max_rowid_ge in H. unfold next_rowid. lia.
Qed.

Lemma sql_insert_pk_unique (values : Z -> row X) t :
  (forall i, id (values i) = i) ->
  pk_unique t -> pk_unique (sql_insert values t).
Proof.
  unfold pk_unique, sql_insert. simpl. intros Hid Hu.
  rewrite map_app. simpl. rewrite Hid.
  apply NoDup_app; [exact Hu | constructor; [intros [] | constructor] |].
  intros i Hi [<- | []].
  apply in_map_iff in Hi. destruct Hi as (r & E & Hr).
  apply next_rowid_fresh in Hr. lia.
Qed.

Lemma sql_update_ids (p : row X -> bool) (f : row X -> row X) t :
  (forall r, id (f r) = id r) ->
  map (@id X) (rows (sql_update p f t)) = map (@id X) (rows t).
Proof.
  intro Hid. unfold sql_update. simpl. rewrite map_map.
  apply map_ext. intro r. destruct (p r); [apply Hid | reflexivity].
Qed.

Lemma sql_update_pk_unique (p : row X -> bool) (f : row X -> row X) t :
  (forall r, id (f r) = id r) ->
  pk_unique t -> pk_unique (sql_update p f t).
Proof.
  intros Hid Hu. unfold pk_unique. now rewrite sql_update_ids.
Qed.

Lemma NoDup_map_filter (p : row X -> bool) l :
  NoDup (map (@id X) l) -> NoDup (map (@id X) (filter p l)).
Proof.
  induction l as [|x l IH]; simpl; intro H; [constructor|].
  inversion H as [|? ? Hx Hl]; subst.
  destruct (p x); simpl; [constructor|]; auto.
  intro Hin. apply Hx.
  apply in_map_iff in Hin. destruct Hin as (r & E & Hr).
  apply filter_In in Hr. apply in_map_iff. exists r. tauto.
Qed.

Lemma sql_delete_pk_unique (p : row X -> bool) t :
  pk_unique t -> pk_unique (sql_delete p t).
Proof. unfold pk_unique, sql_delete. simpl. apply NoDup_map_filter. Qed.

(** With unique identifiers, two rows of the table with the same [id] are
    the same row. *)
Lemma pk_unique_inj l r1 r2 :
  NoDup (map (@id X) l) -> In r1 l -> In r2 l -> id r1 = id r2 -> r1 = r2.
Proof.
  induction l as [|x l IH]; simpl; [tauto|].
  intros Hn H1 H2 E. inversion Hn as [|? ? Hx Hl]; subst.
  destruct H1 as [-> | H1], H2 as [-> | H2]; auto.
  - exfalso. apply Hx. rewrite E. now apply in_map.
  - exfalso. apply Hx. rewrite <- E. now apply in_map.
Qed.

(** With unique identifiers, an UPDATE by [id] rewrites one position of
    the table. *)
Lemma update_by_id_split (f : row X -> row X) l r :
  NoDup (map (@id X) l) -> In r l ->
  exists l1 l2,
    l = (l1 ++ r :: l2)%list /\
    map (fun x => if id x =? id r then f x else x) l = (l1 ++ f r :: l2)%list.
Proof.
  intros Hn Hin.
  destruct (in_split _ _ Hin) as (l1 & l2 & ->).
  exists l1, l2. split; [reflexivity|].
  rewrite map_app. simpl. rewrite Z.eqb_refl.
  rewrite map_app in Hn. simpl in Hn.
  apply NoDup_remove_2 in Hn.
  f_equal; [|f_equal].
  - transitivity (map (fun x => x) l1); [|apply map_id].
    apply map_ext_in. intros x Hx.
    destruct (Z.eqb_spec (id x) (id r)) as [E|]; [|reflexivity].
    exfalso. apply Hn. apply in_or_app. left. rewrite <- E. now apply in_map.
  - transitivity (map (fun x => x) l2); [|apply map_id].
    apply map_ext_in. intros x Hx.
    destruct (Z.eqb_spec (id x) (id r)) as [E|]; [|reflexivity].
    exfalso. apply Hn. apply in_or_app. right. rewrite <- E. now apply in_map.
Qed.

(** An UPDATE leaves alone the rows that its WHERE clause rejects. *)
Lemma sql_update_keeps (p : row X -> bool) (f : row X -> row X) t r :
  In r (rows t) -> p r = false -> In r (rows (sql_update p f t)).
Proof.
  intros Hin Hp. unfold sql_update. simpl.
  apply in_map_iff. exists r. rewrite Hp. auto.
Qed.

Lemma sql_update_In (p : row X -> bool) (f : row X -> row X) t r' :
  In r' (rows (sql_update p f t)) ->
  (In r' (rows t) /\ p r' = false) \/
  (exists r, In r (rows t) /\ p r = true /\ r' = f r).
Proof.
  unfold sql_update. simpl. intro H.
  apply in_map_iff in H. destruct H as (r & E & Hr).
  destruct (p r) eqn:Hp.
  - right. exists r. auto.
  - left. subst. auto.
Qed.

End StoreFacts.

(* ===================================================================== *)
(** * Entry and exit *)
(* ===================================================================== *)

Section LifecycleFacts.

Import Lifecycle.

Variable X : Type.

Implicit Types (w : world X) (r : row X).

Lemma record_entry_db (rest : X) (name : string) w :
  db (snd (record_entry rest name w)) =
  sql_insert (fun i => mkRow i name (today_in w) (Some (time_in w)) None
                             (answer_in w) (reason_in w) rest) (db w).
Proof.
  unfold record_entry, reason_in, answer_in, today_in, time_in,
    get_today_date_str, get_time_str, bind, now, input, ret. simpl.
  destruct (String.eqb _ "denied"); reflexivity.
Qed.

Lemma record_entry_pk_unique (rest : X) (name : string) w :
  pk_unique (db w) -> pk_unique (db (snd (record_entry rest name w))).
Proof.
  intro H. rewrite record_entry_db. now apply sql_insert_pk_unique.
Qed.

Lemma record_exit_db (name : string) w :
  db (snd (record_exit name w)) =
  match select_open_entry name (today_in w) (db w) with
  | None => db w
  | Some r => sql_update (fun x => id x =? id r) (set_exit_time (time_in w)) (db w)
  end.
Proof.
  unfold record_exit, today_in, time_in, get_today_date_str, get_time_str,
    bind, now, connect, query, ret. simpl.
  destruct (select_open_entry _ _ _); reflexivity.
Qed.

Lemma record_exit_stdout (name : string) w :
  stdout (snd (record_exit name w)) =
  (stdout w ++
   [match select_open_entry name (today_in w) (db w) with
    | None => ("No existing entry record found today for " ++ name
               ++ " to mark exit.")%string
    | Some _ => ("Exit recorded for " ++ name ++ " at " ++ time_in w)%string
    end])%list.
Proof.
  unfold record_exit, today_in, time_in, get_today_date_str, get_time_str,
    bind, now, connect, query, ret. simpl.
  destruct (select_open_entry _ _ _); reflexivity.
Qed.

Lemma record_exit_pk_unique (name : string) w :
  pk_unique (db w) -> pk_unique (db (snd (record_exit name w))).
Proof.
  intro H. rewrite record_exit_db.
  destruct (select_open_entry _ _ _); [|exact H].
  now apply sql_update_pk_unique.
Qed.

(** The row the SELECT of [record_exit] returns: an open allowed entry of
    [name] on [date], with the largest [id] among them. *)
Lemma select_open_entry_some (name date : string) (t : table X) r :
  select_open_entry name date t = Some r ->
  In r (rows t) /\ open_entry name date r = true /\
  forall c, In c (rows t) -> open_entry name date c = true -> id c <= id r.
Proof.
  unfold select_open_entry, sql_select. intro H.
  apply order_by_head in H;
    [| apply by_id_desc_total | apply by_id_desc_trans].
  destruct H as [Hin Hmax].
  apply filter_In in Hin. destruct Hin as [Hin Hopen].
  repeat split; try assumption.
  intros c Hc Hco.
  specialize (Hmax c). unfold by_id_desc in Hmax.
  apply Z.leb_le, Hmax, filter_In. auto.
Qed.

Lemma select_open_entry_none (name date : string) (t : table X) :
  select_open_entry name date t = None <->
  sql_select (open_entry name date) t = [].
Proof. apply order_by_head_none. Qed.

Lemma open_entry_allowed (name date : string) r :
  open_entry name date r = true ->
  Store.name r = name /\ Store.date r = date /\ exit_time r = None /\
  result r = "allowed".
Proof.
  unfold open_entry. rewrite !andb_true_iff, !String.eqb_eq.
  destruct (exit_time r); intuition congruence.
Qed.

(** With unique identifiers, [record_exit] rewrites the one position of
    the table that holds the selected row. *)
Lemma record_exit_closes (name : string) w r :
  pk_unique (db w) ->
  select_open_entry name (today_in w) (db w) = Some r ->
  exists l1 l2,
    rows (db w) = (l1 ++ r :: l2)%list /\
    rows (db (snd (record_exit name w))) =
      (l1 ++ set_exit_time (time_in w) r :: l2)%list.
Proof.
  intros Hu Hsel. rewrite record_exit_db, Hsel.
  apply select_open_entry_some in Hsel. destruct Hsel as (Hin & _ & _).
  apply update_by_id_split; assumption.
Qed.

Lemma record_entry_preserves_denied (rest : X) (name : string) w :
  pk_unique (db w) ->
  preserves_denied (db w) (db (snd (record_entry rest name w))).
Proof.
  intro Hu. split; [now apply record_entry_pk_unique|].
  rewrite record_entry_db. unfold sql_insert. simpl. split.
  - intros r Hr _. apply in_or_app. now left.
  - intros r' Hr' _ Hx. apply in_app_or in Hr'.
    destruct Hr' as [Hr' | [<- | []]]; [exact Hr'|].
    simpl in Hx. congruence.
Qed.

Lemma record_exit_preserves_denied (name : string) w :
  pk_unique (db w) ->
  preserves_denied (db w) (db (snd (record_exit name w))).
Proof.
  intro Hu. split; [now apply record_exit_pk_unique|].
  rewrite record_exit_db.
  destruct (select_open_entry _ _ _) as [r0|] eqn:Hsel; [|split; auto].
  apply select_open_entry_some in Hsel.
  destruct Hsel as (Hin0 & Hopen & _).
  apply open_entry_allowed in Hopen. destruct Hopen as (_ & _ & _ & Hres).
  split.
  - intros r Hr Hden. apply sql_update_keeps; [exact Hr|].
    apply Z.eqb_neq. intro E.
    apply Hden. rewrite (@pk_unique_inj _ (rows (db w)) _ _ Hu Hr Hin0 E). exact Hres.
  - intros r' Hr' Hden _. apply sql_update_In in Hr'.
    destruct Hr' as [[Hr' _] | (r & Hr & E & ->)]; [exact Hr'|].
    apply Z.eqb_eq in E.
    exfalso. apply Hden. simpl.
    rewrite (@pk_unique_inj _ (rows (db w)) _ _ Hu Hr Hin0 E). exact Hres.
Qed.

Lemma run_ops_preserves_denied (rest : X) (ops : list op) w :
  pk_unique (db w) ->
  preserves_denied (db w) (db (snd (run_ops rest ops w))).
Proof.
  revert w. induction ops as [|o ops IH]; intros w Hu.
  - simpl. repeat split; auto.
  - unfold run_ops. simpl. unfold bind.
    destruct (run_op rest o w) as [[] w1] eqn:E1.
    assert (H1 : preserves_denied (db w) (db w1)).
    { replace w1 with (snd (run_op rest o w)) by (rewrite E1; reflexivity).
      destruct o; simpl.
      - now apply record_entry_preserves_denied.
      - now apply record_exit_preserves_denied. }
    destruct H1 as (Hu1 & Hk1 & Hn1).
    destruct (IH w1 Hu1) as (Hu2 & Hk2 & Hn2). fold (run_ops rest ops) .
    repeat split; auto.
Qed.

End LifecycleFacts.

(* ===================================================================== *)
(** * Retention and archival *)
(* ===================================================================== *)

Section RetentionFacts.

Import Logger2.

Implicit Types (w : W) (r : row Z).

(** Symbolic execution of the programs: unfold the monad and the
    projections of the world, and nothing of the text, calendar or SQL
    functions. *)
Ltac exec :=
  cbv beta iota zeta delta
    [sync_and_cleanup load_config get_records_older_than_30_days
     send_to_server delete_old_records execute_rowcount execute
     read_config_file write_config_file http_post bind now connect
     query input print ret fst snd
     db config_file now_at ticks reply_at reads server stdout connects net_log
     purges posts accepted request_in configured confirm_in
     batch_in stale_in cutoff_in config_in
     andb orb negb url bearer records sync_date].

(** The case analysis of a run of [sync_and_cleanup], test by test in
    program order. *)
Ltac sync_cases w :=
  destruct w as [t0 cfg0 clock0 ticks0 operator0 reads0 server0 out0 conn0 net0];
  exec;
  destruct cfg0 as [?c|]; exec;
  (destruct (map to_dict _) as [|?d ?l] eqn:?Eb; exec);
  try (destruct (String.eqb _ "yes"); exec);
  try (destruct (truthy (get_or_False _)); exec);
  try (destruct (truthy (get _)); exec);
  try (destruct (eq_str _ _); exec);
  try (destruct (server0 _) as [?code ?text|?e]; exec);
  try (destruct (_ =? 200) eqn:?E200; exec);
  rewrite ?app_nil_r;
  try reflexivity.

Lemma sync_and_cleanup_db w :
  db (snd (sync_and_cleanup w)) =
  if purges w then sql_delete (id_in (map (@id unit) (batch_in w))) (db w)
  else db w.
Proof. sync_cases w. Qed.

Lemma sync_and_cleanup_net_log w :
  net_log (snd (sync_and_cleanup w)) =
  (net_log w ++
   if posts w then [(request_in w, server w (request_in w))] else [])%list.
Proof. sync_cases w. Qed.

Lemma sync_and_cleanup_config_file w :
  config_file (snd (sync_and_cleanup w)) = Some (config_in w).
Proof. sync_cases w. Qed.

Lemma stale_in_In w r :
  In r (stale_in w) <-> In r (rows (db w)) /\ older_than (cutoff_in w) r = true.
Proof.
  unfold stale_in, select_older_than, sql_select.
  rewrite order_by_In. apply filter_In.
Qed.

Lemma batch_in_ids w : map (@id unit) (batch_in w) = map (@id Z) (stale_in w).
Proof. unfold batch_in. rewrite map_map. reflexivity. Qed.

(** With unique identifiers, the DELETE by the identifiers of the batch
    removes the stale rows and no other. *)
Lemma purge_is_stale w r :
  pk_unique (db w) -> In r (rows (db w)) ->
  id_in (map (@id unit) (batch_in w)) r = older_than (cutoff_in w) r.
Proof.
  intros Hu Hr. rewrite batch_in_ids. unfold id_in.
  destruct (older_than (cutoff_in w) r) eqn:Ho.
  - apply existsb_exists. exists (id r). split; [|apply Z.eqb_refl].
    apply in_map. apply stale_in_In. auto.
  - destruct (existsb _ _) eqn:Ex; [|reflexivity].
    apply existsb_exists in Ex. destruct Ex as (i & Hi & E).
    apply Z.eqb_eq in E. subst i.
    apply in_map_iff in Hi. destruct Hi as (s & Es & Hs).
    apply stale_in_In in Hs. destruct Hs as [Hs Hos].
    rewrite (@pk_unique_inj _ (rows (db w)) _ _ Hu Hr Hs (eq_sym Es)) in Ho.
    congruence.
Qed.

Lemma purged_rows w :
  pk_unique (db w) ->
  rows (sql_delete (id_in (map (@id unit) (batch_in w))) (db w)) =
  filter (fun r => negb (older_than (cutoff_in w) r)) (rows (db w)).
Proof.
  intro Hu. unfold sql_delete. simpl.
  apply filter_ext_in. intros r Hr. now rewrite purge_is_stale.
Qed.

Lemma filter_fixpoint (A : Type) (f : A -> bool) (l : list A) :
  filter f l = l -> forall x, In x l -> f x = true.
Proof.
  intros E x Hx. rewrite <- E in Hx. apply filter_In in Hx. tauto.
Qed.

(** A run that reaches the DELETE removes at least one row. *)
Lemma purge_changes_rows w :
  purges w = true ->
  rows (sql_delete (id_in (map (@id unit) (batch_in w))) (db w)) <> rows (db w).
Proof.
  intros Hp E. unfold sql_delete in E. simpl in E.
  unfold purges, posts in Hp. rewrite !andb_true_iff in Hp.
  destruct Hp as [[[Hne _] _] _].
  unfold batch_in in Hne.
  destruct (stale_in w) as [|s l] eqn:Es; [discriminate|].
  assert (Hs : In s (stale_in w)) by (rewrite Es; now left).
  apply stale_in_In in Hs. destruct Hs as [Hs Ho].
  pose proof (@filter_fixpoint _ _ _ E s Hs) as Hf. simpl in Hf.
  apply negb_true_iff in Hf.
  rewrite batch_in_ids in Hf. unfold id_in in Hf.
  assert (Ht : existsb (Z.eqb (id s)) (map (@id Z) (stale_in w)) = true).
  { apply existsb_exists. exists (id s). split; [|apply Z.eqb_refl].
    apply in_map. rewrite Es. now left. }
  congruence.
Qed.

Lemma acknowledged_iff_purges w :
  acknowledged w (snd (sync_and_cleanup w)) <-> purges w = true.
Proof.
  unfold acknowledged. rewrite sync_and_cleanup_net_log. split.
  - intros (req & text & E & _).
    apply app_inv_head in E.
    unfold purges. destruct (posts w); [|discriminate].
    injection E as _ E. rewrite E. reflexivity.
  - intro Hp. unfold purges in Hp. apply andb_true_iff in Hp.
    destruct Hp as [Hposts Hacc]. rewrite Hposts.
    unfold accepted in Hacc.
    destruct (server w (request_in w)) as [code text|e] eqn:Er; [|discriminate].
    apply Z.eqb_eq in Hacc. subst code.
    exists (request_in w), text. split; reflexivity.
Qed.

(** ** The primary key through start-up and archival *)

Lemma sync_and_cleanup_pk_unique w :
  pk_unique (db w) -> pk_unique (db (snd (sync_and_cleanup w))).
Proof.
  intro Hu. rewrite sync_and_cleanup_db.
  destruct (purges w); [|exact Hu].
  now apply sql_delete_pk_unique.
Qed.

Lemma logger_init_db_pk_unique (f f' : db_file) :
  Logger.init_db f = Some f' -> file_pk_unique f'.
Proof.
  intro E. injection E as <-. constructor.
Qed.

Lemma init_db_pk_unique (f : db_file) :
  file_pk_unique f ->
  exists t, init_db f = TableV2 t /\ pk_unique t.
Proof.
  destruct f as [|t|t]; cbn [file_pk_unique]; intro Hu.
  - exists empty_table. split; [reflexivity|]. constructor.
  - eexists. split; [reflexivity|].
    unfold pk_unique in *. cbn [rows]. rewrite map_map. exact Hu.
  - exists t. split; [reflexivity|exact Hu].
Qed.

End RetentionFacts.

(* ===================================================================== *)
(** * Listings *)
(* ===================================================================== *)

(** Symbolic execution of a listing: the monad and the projections of
    the world only. *)
Ltac listing_exec :=
  cbv beta iota zeta delta
    [bind now connect query input print ret fst snd
     db config_file now_at ticks reply_at reads server stdout connects net_log
     Logger2.table_body].

Section ListingFacts.

Variable X : Type.

(** A loop whose body prints one line per element. *)
Lemma for_each_prints (A : Type) (body : A -> M X unit) (line : A -> string)
    (l : list A) (w : world X) :
  (forall x w0, body x w0 = print (line x) w0) ->
  for_each l body w =
  (tt, mkWorld (db w) (config_file w) (now_at w) (ticks w) (reply_at w)
               (reads w) (server w) (stdout w ++ map line l)%list
               (connects w) (net_log w)).
Proof.
  intro Hbody. revert w. induction l as [|x l IH]; intro w.
  - destruct w. cbv [for_each ret map db config_file now_at ticks reply_at
                     reads server stdout connects net_log].
    now rewrite app_nil_r.
  - change (for_each (x :: l) body w)
      with (let (_, w') := body x w in for_each l body w').
    rewrite Hbody. destruct w.
    cbv [print db config_file now_at ticks reply_at reads server stdout
         connects net_log].
    rewrite IH.
    cbv [map db config_file now_at ticks reply_at reads server stdout
         connects net_log].
    fold (map line l).
    now rewrite <- app_assoc.
Qed.

Lemma StronglySorted_impl (A : Type) (R1 R2 : A -> A -> Prop) (l : list A) :
  (forall a b, R1 a b -> R2 a b) -> StronglySorted R1 l -> StronglySorted R2 l.
Proof.
  intros HR. induction 1 as [|a l Hs IH Hall]; constructor; auto.
  rewrite Forall_forall in *. auto.
Qed.

Lemma by_date_entry_desc_later_first (r1 r2 : row X) :
  by_date_entry_desc r1 r2 = true -> later_first r1 r2.
Proof.
  unfold by_date_entry_desc, compare_date_entry, later_first.
  destruct (String.compare (date r1) (date r2)) eqn:E; intro H.
  - right. split; [now apply String.compare_eq_iff|].
    destruct (Text.compare_nullable _ _); congruence.
  - discriminate.
  - now left.
Qed.

Lemma by_date_entry_earlier_first (r1 r2 : row X) :
  by_date_entry r1 r2 = true -> earlier_first r1 r2.
Proof.
  unfold by_date_entry, compare_date_entry, earlier_first.
  destruct (String.compare (date r1) (date r2)) eqn:E; intro H.
  - right. split; [now apply String.compare_eq_iff|].
    destruct (Text.compare_nullable _ _); congruence.
  - now left.
  - discriminate.
Qed.

Lemma by_entry_desc_later_entry_first (r1 r2 : row X) :
  by_entry_desc r1 r2 = true -> later_entry_first r1 r2.
Proof.
  unfold by_entry_desc, later_entry_first.
  destruct (Text.compare_nullable _ _); congruence.
Qed.

Lemma by_name_name_ascending (r1 r2 : row X) :
  by_name r1 r2 = true -> name_ascending r1 r2.
Proof.
  unfold by_name, name_ascending, String.leb.
  destruct (String.compare _ _); congruence.
Qed.

(** A SELECT with its ORDER BY returns the selected rows, each as often
    as the table holds it, in the order asked for. *)
Lemma select_order_by (leb : row X -> row X -> bool) (R : row X -> row X -> Prop)
    (p : row X -> bool) (t : table X) :
  (forall a b, leb a b = true \/ leb b a = true) ->
  (forall a b c, leb a b = true -> leb b c = true -> leb a c = true) ->
  (forall a b, leb a b = true -> R a b) ->
  let out := order_by leb (sql_select p t) in
  Permutation out (filter p (rows t)) /\ StronglySorted R out.
Proof.
  intros Htot Htr HR. split.
  - apply order_by_perm.
  - apply StronglySorted_impl with (R1 := before leb); [exact HR|].
    now apply order_by_sorted.
Qed.

End ListingFacts.

Section Logger2ListingFacts.

Import Logger2.

Lemma select_period_spec (s e : string) (t : table Z) :
  Permutation (select_period s e t) (filter (date_between s e) (rows t)) /\
  StronglySorted (@later_first Z) (select_period s e t).
Proof.
  apply select_order_by.
  - apply by_date_entry_desc_total.
  - apply by_date_entry_desc_trans.
  - apply by_date_entry_desc_later_first.
Qed.

Lemma select_date_spec (d : string) (t : table Z) :
  Permutation (select_date d t)
              (filter (fun r => String.eqb (date r) d) (rows t)) /\
  StronglySorted (@later_entry_first Z) (select_date d t).
Proof.
  apply select_order_by.
  - apply by_entry_desc_total.
  - apply by_entry_desc_trans.
  - apply by_entry_desc_later_entry_first.
Qed.

Lemma select_older_than_spec (cutoff : string) (t : table Z) :
  Permutation (select_older_than cutoff t)
              (filter (older_than cutoff) (rows t)) /\
  StronglySorted (@earlier_first Z) (select_older_than cutoff t).
Proof.
  apply select_order_by.
  - apply by_date_entry_total.
  - apply by_date_entry_trans.
  - apply by_date_entry_earlier_first.
Qed.

(** The dictionaries keep the order of the rows they are built from. *)
Lemma to_dict_sorted (l : list (row Z)) :
  StronglySorted (@earlier_first Z) l ->
  StronglySorted (@earlier_first unit) (map to_dict l).
Proof.
  induction 1 as [|a l Hs IH Hall]; cbn [map]; constructor; [exact IH|].
  rewrite Forall_forall in *. intros d Hd.
  apply in_map_iff in Hd. destruct Hd as (b & <- & Hb).
  exact (Hall b Hb).
Qed.

Lemma show_logs_run (period : string) (w : W) :
  let w' := snd (show_logs period w) in
  db w' = db w /\ config_file w' = config_file w /\ net_log w' = net_log w /\
  stdout w' =
    (stdout w ++
     match period_bounds period (now_at w (ticks w)) with
     | None => ["Invalid period specified."]
     | Some (start_date, end_date, title) =>
         [(Text.nl ++ title)%string; Text.repeat_char "=" 100; period_header;
          Text.repeat_char "-" 100]
         ++ table_body period_line "No records found for this period."
              (select_period start_date end_date (db w))
     end)%list.
Proof.
  destruct w as [t0 cfg0 clock0 ticks0 operator0 reads0 server0 out0 conn0 net0].
  unfold show_logs. listing_exec.
  destruct (period_bounds period _) as [[[s e] title]|]; listing_exec;
    [|repeat split; reflexivity].
  destruct (select_period s e t0) as [|r l] eqn:E; listing_exec.
  - repeat split. rewrite <- !app_assoc. reflexivity.
  - rewrite (for_each_prints _ period_line) by reflexivity. listing_exec.
    repeat split. rewrite <- !app_assoc. reflexivity.
Qed.

Lemma show_custom_date_logs_run (w : W) :
  let date_str := Text.strip (reply_at w (reads w)) in
  let w' := snd (show_custom_date_logs w) in
  db w' = db w /\ config_file w' = config_file w /\ net_log w' = net_log w /\
  connects w' =
    (match Calendar.strptime_Ymd date_str with
     | None => connects w
     | Some _ => S (connects w)
     end) /\
  stdout w' =
    (stdout w ++ ["Enter date (YYYY-MM-DD): "] ++
     match Calendar.strptime_Ymd date_str with
     | None => ["Invalid date format. Please use YYYY-MM-DD format."]
     | Some _ =>
         [(Text.nl ++ "Logs for " ++ date_str ++ ":")%string;
          Text.repeat_char "=" 100; date_header; Text.repeat_char "-" 100]
         ++ table_body date_line "No records found for this date."
              (select_date date_str (db w))
     end)%list.
Proof.
  destruct w as [t0 cfg0 clock0 ticks0 operator0 reads0 server0 out0 conn0 net0].
  unfold show_custom_date_logs. listing_exec.
  destruct (Calendar.strptime_Ymd _) as [d|]; listing_exec;
    [|repeat split; rewrite <- ?app_assoc; reflexivity].
  destruct (select_date _ t0) as [|r l] eqn:E; listing_exec.
  - repeat split. rewrite <- !app_assoc. reflexivity.
  - rewrite (for_each_prints _ date_line) by reflexivity. listing_exec.
    repeat split. rewrite <- !app_assoc. reflexivity.
Qed.

End Logger2ListingFacts.

Section LoggerListingFacts.

Import Logger.

Lemma select_today_spec (d : string) (t : table unit) :
  Permutation (select_today d t)
              (filter (fun r => String.eqb (date r) d) (rows t)) /\
  StronglySorted (@name_ascending unit) (select_today d t).
Proof.
  apply select_order_by.
  - apply by_name_total.
  - apply by_name_trans.
  - apply by_name_name_ascending.
Qed.

Lemma show_today_run (w : W) :
  let date := Calendar.strftime_date (now_at w (ticks w)) in
  let w' := snd (show_today w) in
  db w' = db w /\
  stdout w' =
    (stdout w ++
     [("Logs for " ++ date ++ ":")%string;
      (Text.ljust 20 "Name" ++ " | " ++ Text.ljust 10 "Entry" ++ " | "
       ++ Text.ljust 10 "Exit" ++ " | " ++ Text.ljust 10 "Result" ++ " | "
       ++ "Reason")%string;
      Text.repeat_char "-" 70]
     ++ map today_line (select_today date (db w)))%list.
Proof.
  destruct w as [t0 cfg0 clock0 ticks0 operator0 reads0 server0 out0 conn0 net0].
  unfold show_today, get_today_date_str, Lifecycle.get_today_date_str.
  listing_exec.
  rewrite (for_each_prints _ today_line) by reflexivity. listing_exec.
  split; [reflexivity|]. rewrite <- !app_assoc. reflexivity.
Qed.

End LoggerListingFacts.

(* ===================================================================== *)
(** * The lifecycle properties *)
(* ===================================================================== *)

Section LifecycleFacts2.

Import Lifecycle.

Variable X : Type.

Lemma open_entry_iff (name date : string) (r : row X) :
  open_entry name date r = true <-> open_on name date r.
Proof.
  unfold open_entry, open_on.
  rewrite !andb_true_iff, !String.eqb_eq.
  destruct (exit_time r); intuition congruence.
Qed.

(** [record_entry] appends one row with a fresh identifier. *)
Lemma record_entry_appends (rest : X) (name : string) (w : world X) :
  let w' := snd (record_entry rest name w) in
  exists r,
    rows (db w') = (rows (db w) ++ [r])%list /\
    Store.name r = name /\
    date r = today_in w /\
    entry_time r = Some (time_in w) /\
    exit_time r = None /\
    result r = answer_in w /\
    extra r = rest /\
    (forall r0, In r0 (rows (db w)) -> id r0 < id r) /\
    List.length (rows (db w')) = S (List.length (rows (db w))).
Proof.
  simpl. rewrite record_entry_db. unfold sql_insert. simpl.
  eexists. split; [reflexivity|]. simpl.
  repeat split.
  - intros r0 H0. now apply next_rowid_fresh.
  - rewrite length_app. simpl. lia.
Qed.

Lemma record_exit_no_candidate (name : string) (w : world X) :
  (forall r, In r (rows (db w)) -> ~ open_on name (today_in w) r) ->
  let w' := snd (record_exit name w) in
  db w' = db w /\
  stdout w' =
    (stdout w ++
     [("No existing entry record found today for " ++ name
       ++ " to mark exit.")%string])%list.
Proof.
  intro Hnone. simpl.
  assert (E : select_open_entry name (today_in w) (db w) = None).
  { apply select_open_entry_none. unfold sql_select.
    destruct (filter _ _) as [|r l] eqn:F; [reflexivity|].
    exfalso.
    assert (Hin : In r (filter (open_entry name (today_in w)) (rows (db w))))
      by (rewrite F; now left).
    apply filter_In in Hin. destruct Hin as [Hin Ho].
    apply (Hnone r Hin). now apply open_entry_iff. }
  rewrite record_exit_db, record_exit_stdout, E. split; reflexivity.
Qed.

Lemma record_exit_largest_id (name : string) (w : world X) :
  pk_unique (db w) ->
  (exists r1, In r1 (rows (db w)) /\ open_on name (today_in w) r1) ->
  exists l1 r l2,
    rows (db w) = (l1 ++ r :: l2)%list /\
    open_on name (today_in w) r /\
    (forall c, In c (rows (db w)) -> open_on name (today_in w) c ->
               c <> r -> id c < id r) /\
    rows (db (snd (record_exit name w))) =
      (l1 ++ set_exit_time (time_in w) r :: l2)%list.
Proof.
  intros Hu (r1 & Hin1 & Ho1).
  destruct (select_open_entry name (today_in w) (db w)) as [r|] eqn:Hsel.
  - destruct (record_exit_closes name w Hu Hsel) as (l1 & l2 & E1 & E2).
    apply select_open_entry_some in Hsel.
    destruct Hsel as (Hin & Hopen & Hmax).
    exists l1, r, l2. repeat split; try assumption;
      try (apply open_entry_iff in Hopen; apply Hopen).
    intros c Hc Hco Hne.
    apply open_entry_iff in Hco.
    specialize (Hmax c Hc Hco).
    destruct (Z.eq_dec (id c) (id r)) as [E|E]; [|lia].
    exfalso. apply Hne.
    exact (@pk_unique_inj _ (rows (db w)) _ _ Hu Hc Hin E).
  - exfalso. apply select_open_entry_none in Hsel.
    unfold sql_select in Hsel.
    assert (Hf : In r1 (filter (open_entry name (today_in w)) (rows (db w)))).
    { apply filter_In. split; [exact Hin1|]. now apply open_entry_iff. }
    rewrite Hsel in Hf. exact Hf.
Qed.

(** Over a session, a denied record is never given an exit time. *)
Lemma run_ops_denied (rest : X) (ops : list op) (w : world X) :
  pk_unique (db w) ->
  let w' := snd (run_ops rest ops w) in
  (forall r, In r (rows (db w)) -> result r = "denied" -> In r (rows (db w'))) /\
  (forall r', In r' (rows (db w')) -> result r' = "denied" ->
              exit_time r' <> None -> In r' (rows (db w))).
Proof.
  intro Hu. simpl.
  destruct (run_ops_preserves_denied rest ops w Hu) as (_ & Hk & Hn).
  split.
  - intros r Hr Hd. apply Hk; [exact Hr|]. rewrite Hd. discriminate.
  - intros r' Hr' Hd Hx. apply Hn; [exact Hr'| |exact Hx].
    rewrite Hd. discriminate.
Qed.

End LifecycleFacts2.

(* ===================================================================== *)
(** * The properties of the specification *)
(* ===================================================================== *)

Unset Implicit Arguments.

Import Lifecycle.

(** C8. In both programs [record_entry name] appends exactly one row to
    the table: it carries [name], the date and the time the clock gives,
    no exit time and, in logger2.py, [synced = 0]; its identifier is
    larger than every identifier in the table, every row that was there
    stays as it was, in place, and the row count grows by one. *)
Theorem record_entry_inserts_one_row :
  (forall (name : string) (w : Logger.W),
     let w' := snd (Logger.record_entry name w) in
     exists r,
       rows (db w') = (rows (db w) ++ [r])%list /\
       Store.name r = name /\
       date r = fst (Logger.get_today_date_str w) /\
       entry_time r =
         Some (fst (Logger.get_time_str (snd (Logger.get_today_date_str w)))) /\
       exit_time r = None /\
       (forall r0, In r0 (rows (db w)) -> id r0 < id r) /\
       List.length (rows (db w')) = S (List.length (rows (db w)))) /\
  (forall (name : string) (w : Logger2.W),
     let w' := snd (Logger2.record_entry name w) in
     exists r,
       rows (db w') = (rows (db w) ++ [r])%list /\
       Store.name r = name /\
       date r = fst (Logger2.get_today_date_str w) /\
       entry_time r =
         Some (fst (Logger2.get_time_str (snd (Logger2.get_today_date_str w)))) /\
       exit_time r = None /\
       Logger2.synced r = 0 /\
       (forall r0, In r0 (rows (db w)) -> id r0 < id r) /\
       List.length (rows (db w')) = S (List.length (rows (db w)))).
Proof.
  split; intros name w.
  - destruct (record_entry_appends tt name w)
      as (r & E & Hn & Hd & He & Hx & _ & _ & Hid & Hlen).
    exists r. repeat split; assumption.
  - destruct (record_entry_appends 0 name w)
      as (r & E & Hn & Hd & He & Hx & _ & Hs & Hid & Hlen).
    exists r. repeat split; assumption.
Qed.

(** C9. When no row of the table is an open allowed entry of [name] on
    the clock's date, [record_exit name] prints its message that no such
    entry was found, returns normally, and leaves the table as it was. *)
Theorem record_exit_without_open_entry (name : string) (w : Logger2.W) :
  (forall r, In r (rows (db w)) ->
     ~ (Store.name r = name /\ date r = fst (Logger2.get_today_date_str w) /\
        result r = "allowed" /\ exit_time r = None)) ->
  Logger2.record_exit name w =
    (tt, snd (Logger2.record_exit name w)) /\
  db (snd (Logger2.record_exit name w)) = db w /\
  stdout (snd (Logger2.record_exit name w)) =
    (stdout w ++
     [("No existing entry record found today for " ++ name
       ++ " to mark exit.")%string])%list.
Proof.
  intro Hnone. split.
  - destruct (Logger2.record_exit name w) as [[] w']. reflexivity.
  - apply (@record_exit_no_candidate Z name w). exact Hnone.
Qed.

(** C4. When the table, with unique identifiers, holds two or more open
    allowed entries of [name] on the clock's date, [record_exit name] sets
    the exit time of the one with the largest identifier to the clock's
    time: in that one position of the table the row now has that exit
    time and its other columns as before, and every other row stays as it
    was. *)
Theorem record_exit_closes_largest_id (name : string) (w : Logger2.W) :
  pk_unique (db w) ->
  (exists r1 r2,
     In r1 (rows (db w)) /\ In r2 (rows (db w)) /\ r1 <> r2 /\
     open_on name (fst (Logger2.get_today_date_str w)) r1 /\
     open_on name (fst (Logger2.get_today_date_str w)) r2) ->
  exists l1 r l2,
    rows (db w) = (l1 ++ r :: l2)%list /\
    open_on name (fst (Logger2.get_today_date_str w)) r /\
    (forall c, In c (rows (db w)) ->
       open_on name (fst (Logger2.get_today_date_str w)) c ->
       c <> r -> id c < id r) /\
    rows (db (snd (Logger2.record_exit name w))) =
      (l1 ++ mkRow (id r) (Store.name r) (date r) (entry_time r)
               (Some (fst (Logger2.get_time_str
                             (snd (Logger2.get_today_date_str w)))))
               (result r) (reason r) (Logger2.synced r)
          :: l2)%list.
Proof.
  intros Hu (r1 & r2 & H1 & _ & _ & Ho1 & _).
  destruct (@record_exit_largest_id Z name w Hu) as (l1 & r & l2 & E & Ho & Hmax & E').
  - exists r1. split; assumption.
  - exists l1, r, l2. split; [exact E|]. split; [exact Ho|].
    split; [exact Hmax|]. exact E'.
Qed.

(** C2. In both programs, over every sequence of entries and exits run on
    a table with unique identifiers: a row whose result is 'denied' stays
    in the table as it is, and a row whose result is 'denied' and that has
    an exit time at the end was in the table, exit time included, before
    the sequence began.  So no exit ever writes the exit time of a denied
    record. *)
Theorem exit_never_closes_denied :
  (forall (ops : list op) (w : Logger.W),
     pk_unique (db w) ->
     let w' := snd (run_ops tt ops w) in
     (forall r, In r (rows (db w)) -> result r = "denied" -> In r (rows (db w'))) /\
     (forall r', In r' (rows (db w')) -> result r' = "denied" ->
                 exit_time r' <> None -> In r' (rows (db w)))) /\
  (forall (ops : list op) (w : Logger2.W),
     pk_unique (db w) ->
     let w' := snd (run_ops 0 ops w) in
     (forall r, In r (rows (db w)) -> result r = "denied" -> In r (rows (db w'))) /\
     (forall r', In r' (rows (db w')) -> result r' = "denied" ->
                 exit_time r' <> None -> In r' (rows (db w)))).
Proof.
  split; intros ops w Hu.
  - exact (@run_ops_denied unit tt ops w Hu).
  - exact (@run_ops_denied Z 0 ops w Hu).
Qed.

(** C10. Whatever [access_log.db] held, [init_db] of logger.py succeeds
    and leaves the table of the first variant with no row in it. *)
Theorem init_db_drops_every_record (f : db_file) :
  Logger.init_db f = Some (TableV1 empty_table) /\
  option_map row_count (Logger.init_db f) = Some 0%nat.
Proof. split; reflexivity. Qed.

Import Logger2.

(** C1. A run of [sync_and_cleanup] on a table with unique identifiers,
    the batch of stale records being within the number of host parameters
    that one DELETE takes, changes the rows of the table if and only if
    the remote side acknowledged the batch (the batch was posted and the
    reply was status 200); it then removes exactly the stale rows.  When
    sync is disabled or the URL is unset or the default one, nothing is
    posted and the table is unchanged; when the reply is another status or
    the request fails, the table is unchanged. *)
Theorem sync_and_cleanup_deletes_iff_acknowledged (w : W) :
  pk_unique (db w) ->
  (List.length (batch_in w) <= max_variable_number)%nat ->
  let w' := snd (sync_and_cleanup w) in
  (rows (db w') <> rows (db w) <-> acknowledged w w') /\
  (acknowledged w w' ->
     rows (db w') =
       filter (fun r =>
                 negb (String.ltb (date r)
                         (Calendar.strftime_date
                            (Calendar.minus_days (now_at w (ticks w)) 30))))
              (rows (db w))) /\
  (~ acknowledged w w' -> db w' = db w) /\
  (configured (config_in w) = false ->
     db w' = db w /\ net_log w' = net_log w) /\
  (accepted (server w (request_in w)) = false -> db w' = db w).
Proof.
  intros Hu _ w'. subst w'.
  pose proof (acknowledged_iff_purges w) as Hack.
  pose proof (sync_and_cleanup_db w) as Hdb.
  split; [split|split; [|split; [|split]]].
  - intro Hne. apply Hack.
    destruct (purges w); [reflexivity|].
    exfalso. apply Hne. now rewrite Hdb.
  - intro Ha. apply Hack in Ha. rewrite Hdb, Ha.
    now apply purge_changes_rows.
  - intro Ha. apply Hack in Ha. rewrite Hdb, Ha.
    now apply purged_rows.
  - intro Hna. rewrite Hdb.
    destruct (purges w) eqn:Hp; [|reflexivity].
    exfalso. apply Hna, Hack. reflexivity.
  - intro Hc. split.
    + rewrite Hdb. unfold purges, posts.
      rewrite Hc, !andb_false_r. reflexivity.
    + rewrite sync_and_cleanup_net_log. unfold posts.
      rewrite Hc, !andb_false_r. apply app_nil_r.
  - intro Hrej. rewrite Hdb. unfold purges.
    rewrite Hrej, andb_false_r. reflexivity.
Qed.

(** C3. [get_records_older_than_30_days] returns the rows whose date is
    smaller than the text of the date thirty days before the clock's, each
    as often as the table holds it, ordered by ascending date and, within
    a date, by ascending entry time: record by record, the list returned
    has the identifier, name, date, entry time, exit time, result and
    reason of the rows selected, in that order.  A run of
    [sync_and_cleanup] on a table with unique identifiers keeps every row
    whose date is not smaller than that text.  For a date written by
    [strftime] in the years 1000 to 9999, as [record_entry] writes it,
    being smaller than that text is being more than thirty days before
    the clock's date. *)
Theorem stale_selection_and_retention (w : W) :
  pk_unique (db w) ->
  let cutoff :=
    Calendar.strftime_date (Calendar.minus_days (now_at w (ticks w)) 30) in
  let old_records := fst (get_records_older_than_30_days w) in
  (exists selected : list (row Z),
     Permutation selected
       (filter (fun r => String.ltb (date r) cutoff) (rows (db w))) /\
     StronglySorted (@earlier_first Z) selected /\
     Forall2 (fun (d : record_dict) (r : row Z) =>
                id d = id r /\ name d = name r /\ date d = date r /\
                entry_time d = entry_time r /\ exit_time d = exit_time r /\
                result d = result r /\ reason d = reason r)
             old_records selected) /\
  StronglySorted (@earlier_first unit) old_records /\
  (forall r, In r (rows (db w)) -> String.ltb (date r) cutoff = false ->
             In r (rows (db (snd (sync_and_cleanup w))))) /\
  (forall (entered : Calendar.datetime) (r : row Z),
     Calendar.valid entered -> Calendar.valid (now_at w (ticks w)) ->
     1000 <= Calendar.year entered ->
     1001 <= Calendar.year (now_at w (ticks w)) ->
     30 < Calendar.toordinal (now_at w (ticks w)) ->
     date r = Calendar.strftime_date entered ->
     (String.ltb (date r) cutoff = true <->
      Calendar.toordinal entered < Calendar.toordinal (now_at w (ticks w)) - 30)).
Proof.
  intros Hu cutoff old_records.
  assert (Eold : old_records = map to_dict (select_older_than cutoff (db w))).
  { subst old_records cutoff. destruct w. reflexivity. }
  destruct (select_older_than_spec cutoff (db w)) as [Hperm Hsort].
  split; [|split; [|split]].
  - exists (select_older_than cutoff (db w)).
    split; [exact Hperm|]. split; [exact Hsort|].
    rewrite Eold. clear.
    induction (select_older_than cutoff (db w)) as [|r l IH]; cbn [map].
    + constructor.
    + constructor; [|exact IH]. repeat split; reflexivity.
  - rewrite Eold. now apply to_dict_sorted.
  - intros r Hr Hrecent. rewrite sync_and_cleanup_db.
    destruct (purges w); [|exact Hr].
    rewrite purged_rows by exact Hu.
    apply filter_In. split; [exact Hr|].
    unfold older_than. fold cutoff. cbv beta.
    change (cutoff_in w) with cutoff. now rewrite Hrecent.
  - intros entered r Ve Vt _ _ Ht Er. rewrite Er. subst cutoff.
    apply text_before_cutoff; [exact Ve | exact Vt | lia].
Qed.

(** C5. When the operator's answer to the confirmation is not "yes"
    (after [strip] and [lower]), a run of [sync_and_cleanup] posts
    nothing and leaves the table and the configuration as they were: the
    settings in effect are the same, the configuration file is as
    [load_config], the first step of the run, left it before the question
    was asked, and a configuration file that existed is as it was. *)
Theorem declining_aborts_without_side_effects (w : W) :
  confirm_in w <> "yes" ->
  let w' := snd (sync_and_cleanup w) in
  net_log w' = net_log w /\
  db w' = db w /\
  config_in w' = config_in w /\
  config_file w' = config_file (snd (load_config w)) /\
  (forall c, config_file w = Some c -> config_file w' = config_file w).
Proof.
  intros Hno w'. subst w'.
  assert (Hp : posts w = false).
  { unfold posts. apply String.eqb_neq in Hno. rewrite Hno.
    now rewrite andb_false_r. }
  split; [|split; [|split; [|split]]].
  - rewrite sync_and_cleanup_net_log, Hp. apply app_nil_r.
  - rewrite sync_and_cleanup_db. unfold purges. now rewrite Hp.
  - unfold config_in at 1. rewrite sync_and_cleanup_config_file. reflexivity.
  - rewrite sync_and_cleanup_config_file. destruct w as [d [c|] n k o i sv out cn nl];
      reflexivity.
  - intros c Hc. rewrite sync_and_cleanup_config_file. unfold config_in.
    now rewrite Hc.
Qed.


(** C7, as the programs have it.  [show_logs] prints the rows of the
    period by descending date and, within a date, by descending entry
    time; [show_today] of logger.py prints the rows of the day by
    ascending name; [show_custom_date_logs] prints the rows of the date
    by descending entry time; none of the three changes the table. *)
Theorem listings_are_ordered_and_read_only :
  (forall (period : string) (w : W),
     db (snd (show_logs period w)) = db w /\
     forall start_date end_date title,
       period_bounds period (now_at w (ticks w))
         = Some (start_date, end_date, title) ->
       let rows := select_period start_date end_date (db w) in
       StronglySorted (@later_first Z) rows /\
       stdout (snd (show_logs period w)) =
         (stdout w ++
          [(Text.nl ++ title)%string; Text.repeat_char "=" 100; period_header;
           Text.repeat_char "-" 100]
          ++ table_body period_line "No records found for this period." rows)%list) /\
  (forall (w : Logger.W),
     db (snd (Logger.show_today w)) = db w /\
     let date := fst (Logger.get_today_date_str w) in
     let rows := Logger.select_today date (db w) in
     StronglySorted (@name_ascending unit) rows /\
     exists header,
       stdout (snd (Logger.show_today w)) =
         (stdout w ++ header ++ map Logger.today_line rows)%list) /\
  (forall (w : W),
     db (snd (show_custom_date_logs w)) = db w /\
     let date_str := Text.strip (reply_at w (reads w)) in
     forall d, Calendar.strptime_Ymd date_str = Some d ->
       let rows := select_date date_str (db w) in
       StronglySorted (@later_entry_first Z) rows /\
       stdout (snd (show_custom_date_logs w)) =
         (stdout w ++ ["Enter date (YYYY-MM-DD): "] ++
          [(Text.nl ++ "Logs for " ++ date_str ++ ":")%string;
           Text.repeat_char "=" 100; date_header; Text.repeat_char "-" 100]
          ++ table_body date_line "No records found for this date." rows)%list).
Proof.
  split; [|split].
  - intros period w.
    destruct (show_logs_run period w) as (Hdb & _ & _ & Hout).
    split; [exact Hdb|].
    intros s e title Hb rows. split.
    + apply select_period_spec.
    + rewrite Hout, Hb. reflexivity.
  - intros w. destruct (show_today_run w) as (Hdb & Hout).
    split; [exact Hdb|]. intros date rows. split.
    + apply select_today_spec.
    + eexists. exact Hout.
  - intros w. destruct (show_custom_date_logs_run w) as (Hdb & _ & _ & _ & Hout).
    split; [exact Hdb|].
    intros date_str d Hd rows. split.
    + apply select_date_spec.
    + rewrite Hout. fold date_str. rewrite Hd. reflexivity.
Qed.

(* ===================================================================== *)
(** * The properties at work on the scenario *)
(* ===================================================================== *)

Import Scenario.

Lemma table2_pk_unique : pk_unique table2.
Proof.
  unfold pk_unique. cbv [table2 rows map].
  repeat constructor; cbv; intuition discriminate.
Qed.

Lemma table1_pk_unique : pk_unique table1.
Proof.
  unfold pk_unique. cbv [table1 rows map].
  repeat constructor; cbv; intuition discriminate.
Qed.

(** The operator answers "yes" and the server acknowledges: the one stale
    row is posted and removed, the others stay. *)
Lemma sync_and_cleanup_acknowledged_run :
  let w := world2 (Some enabled_config) ["yes"] server_ok in
  pk_unique (db w) /\
  (List.length (batch_in w) <= max_variable_number)%nat /\
  acknowledged w (snd (sync_and_cleanup w)) /\
  rows (db (snd (sync_and_cleanup w))) =
    [bob_denied; carol_first; carol_second; alice_today].
Proof.
  intro w.
  pose proof table2_pk_unique as Hu.
  assert (Hn : (List.length (batch_in w) <= max_variable_number)%nat)
    by (apply Nat.leb_le; vm_compute; reflexivity).
  destruct (sync_and_cleanup_deletes_iff_acknowledged w Hu Hn) as (_ & Hdel & _).
  assert (Hack : acknowledged w (snd (sync_and_cleanup w))).
  { exists (request_in w), "ok". split; vm_compute; reflexivity. }
  split; [exact Hu|]. split; [exact Hn|]. split; [exact Hack|].
  rewrite (Hdel Hack). vm_compute. reflexivity.
Defined.

(** The record of 45 days ago is the one selected, with its columns; the
    record of ten days ago survives the acknowledged purge. *)
Lemma recent_record_survives_purge :
  let w := world2 (Some enabled_config) ["yes"] server_ok in
  pk_unique (db w) /\
  fst (get_records_older_than_30_days w) =
    [mkRow 1 "alice" "2024-05-01" (Some "08:00:00") (Some "17:00:00")
           "allowed" None tt] /\
  (exists selected : list (row Z),
     Permutation selected [alice_old] /\
     Forall2 (fun (d : record_dict) (r : row Z) =>
                id d = id r /\ name d = name r /\ date d = date r /\
                entry_time d = entry_time r /\ exit_time d = exit_time r /\
                result d = result r /\ reason d = reason r)
             (fst (get_records_older_than_30_days w)) selected) /\
  In bob_denied (rows (db (snd (sync_and_cleanup w)))).
Proof.
  intro w.
  pose proof table2_pk_unique as Hu.
  destruct (stale_selection_and_retention w Hu)
    as ((selected & Hperm & _ & Hfields) & _ & Hkeep & _).
  split; [exact Hu|]. split; [vm_compute; reflexivity|]. split.
  - exists selected. split; [exact Hperm | exact Hfields].
  - apply Hkeep.
    + right. left. reflexivity.
    + vm_compute. reflexivity.
Defined.

(** Two open entries of carol: the exit closes the one with id 4, at
    half past nine. *)
Lemma record_exit_two_open_entries :
  let w := world2 None [] server_ok in
  pk_unique (db w) /\
  open_on "carol" "2024-06-15" carol_first /\
  open_on "carol" "2024-06-15" carol_second /\
  rows (db (snd (Logger2.record_exit "carol" w))) =
    [alice_old; bob_denied; carol_first;
     mkRow 4 "carol" "2024-06-15" (Some "08:30:00") (Some "09:30:00")
           "allowed" None 0;
     alice_today] /\
  exists l1 r l2,
    rows (db w) = (l1 ++ r :: l2)%list /\
    (forall c, In c (rows (db w)) -> open_on "carol" "2024-06-15" c ->
               c <> r -> id c < id r) /\
    rows (db (snd (Logger2.record_exit "carol" w))) =
      (l1 ++ mkRow (id r) (Store.name r) (date r) (entry_time r)
               (Some "09:30:00") (result r) (reason r) (Logger2.synced r)
          :: l2)%list.
Proof.
  intro w.
  pose proof table2_pk_unique as Hu.
  assert (H1 : open_on "carol" "2024-06-15" carol_first)
    by (repeat split; reflexivity).
  assert (H2 : open_on "carol" "2024-06-15" carol_second)
    by (repeat split; reflexivity).
  split; [exact Hu|]. split; [exact H1|]. split; [exact H2|].
  split; [vm_compute; reflexivity|].
  destruct (record_exit_closes_largest_id "carol" w Hu) as (l1 & r & l2 & E & _ & Hmax & E').
  - exists carol_first, carol_second.
    split; [right; right; left; reflexivity|].
    split; [right; right; right; left; reflexivity|].
    split; [discriminate|]. split; assumption.
  - exists l1, r, l2. split; [exact E|]. split; [exact Hmax|exact E'].
Defined.

(** Nobody called dave entered: the exit changes nothing. *)
Lemma record_exit_of_a_stranger :
  let w := world2 None [] server_ok in
  (forall r, In r (rows (db w)) ->
     ~ (Store.name r = "dave" /\ date r = fst (Logger2.get_today_date_str w) /\
        result r = "allowed" /\ exit_time r = None)) /\
  db (snd (Logger2.record_exit "dave" w)) = db w /\
  stdout (snd (Logger2.record_exit "dave" w)) =
    ["No existing entry record found today for dave to mark exit."].
Proof.
  intro w.
  assert (Hnone : forall r, In r (rows (db w)) ->
     ~ (Store.name r = "dave" /\ date r = fst (Logger2.get_today_date_str w) /\
        result r = "allowed" /\ exit_time r = None)).
  { intros r Hin [Hname _].
    cbv [w world2 db table2 rows In] in Hin.
    repeat (destruct Hin as [<- | Hin]; [discriminate Hname|]).
    exact Hin. }
  split; [exact Hnone|].
  destruct (record_exit_without_open_entry "dave" w Hnone) as (_ & Hdb & Hout).
  split; [exact Hdb | exact Hout].
Defined.

(** A session in both programs: bob, turned away, is still as he was. *)
Lemma denied_rows_after_a_session :
  let ops := [Exit "bob"; Entry "eve"; Exit "eve"; Exit "carol"] in
  let w1 := world1 ["denied"; "no badge"] in
  let w2 := world2 None ["denied"; "no badge"] server_ok in
  pk_unique (db w1) /\ pk_unique (db w2) /\
  (forall r, In r (rows (db w1)) -> result r = "denied" ->
             In r (rows (db (snd (run_ops tt ops w1))))) /\
  In bob_denied (rows (db (snd (run_ops 0 ops w2)))).
Proof.
  intros ops w1 w2.
  pose proof table1_pk_unique as Hu1.
  pose proof table2_pk_unique as Hu2.
  destruct exit_never_closes_denied as [HL HL2].
  split; [exact Hu1|]. split; [exact Hu2|]. split.
  - exact (proj1 (HL ops w1 Hu1)).
  - apply (proj1 (HL2 ops w2 Hu2)).
    + right. left. reflexivity.
    + reflexivity.
Defined.

(** The operator declines: nothing is posted, and the table, the settings
    and the configuration file in place are as they were. *)
Lemma declined_sync_with_config_file :
  let w := world2 (Some enabled_config) ["No"] server_ok in
  confirm_in w <> "yes" /\
  net_log (snd (sync_and_cleanup w)) = net_log w /\
  db (snd (sync_and_cleanup w)) = db w /\
  config_in (snd (sync_and_cleanup w)) = enabled_config /\
  config_file (snd (sync_and_cleanup w)) = config_file w.
Proof.
  intro w.
  assert (Hno : confirm_in w <> "yes") by (vm_compute; discriminate).
  destruct (declining_aborts_without_side_effects w Hno)
    as (Hnet & Hdb & Hin & _ & Hcfg).
  split; [exact Hno|]. split; [exact Hnet|]. split; [exact Hdb|].
  split; [exact Hin|].
  exact (Hcfg enabled_config eq_refl).
Defined.

(** Where there was no configuration file, [load_config] has written the
    default settings before the question is asked: they are the settings
    that were in effect. *)
Example declined_sync_without_config_file :
  let w := world2 None ["no"] server_ok in
  config_in w = DEFAULT_CONFIG /\
  config_file (snd (load_config w)) = Some DEFAULT_CONFIG /\
  config_file (snd (sync_and_cleanup w)) = Some DEFAULT_CONFIG /\
  db (snd (sync_and_cleanup w)) = db w.
Proof. vm_compute. repeat split; reflexivity. Qed.


(** The three listings on the scenario. *)
Lemma listings_on_the_scenario :
  let w := world2 None ["2024-06-15"] server_ok in
  period_bounds "week" (now_at w (ticks w))
    = Some ("2024-06-10", "2024-06-15",
            "Logs for This Week (2024-06-10 to 2024-06-15)") /\
  Calendar.strptime_Ymd (Text.strip (reply_at w (reads w)))
    = Some (Calendar.mkDatetime 2024 6 15 0 0 0) /\
  StronglySorted (@later_first Z) (select_period "2024-06-10" "2024-06-15" (db w)) /\
  StronglySorted (@later_entry_first Z) (select_date "2024-06-15" (db w)) /\
  StronglySorted (@name_ascending unit)
    (Logger.select_today "2024-06-15" (db (world1 []))).
Proof.
  intro w.
  destruct listings_are_ordered_and_read_only as (Hperiod & Htoday & Hdate).
  assert (Hb : period_bounds "week" (now_at w (ticks w))
    = Some ("2024-06-10", "2024-06-15",
            "Logs for This Week (2024-06-10 to 2024-06-15)"))
    by (vm_compute; reflexivity).
  assert (Hd : Calendar.strptime_Ymd (Text.strip (reply_at w (reads w)))
    = Some (Calendar.mkDatetime 2024 6 15 0 0 0))
    by (vm_compute; reflexivity).
  split; [exact Hb|]. split; [exact Hd|]. split; [|split].
  - exact (proj1 (proj2 (Hperiod "week" w) _ _ _ Hb)).
  - exact (proj1 (proj2 (Hdate w) _ Hd)).
  - exact (proj1 (proj2 (Htoday (world1 [])))).
Defined.

(** C7 as stated fails for the listing of one exact date: carol, who
    entered last, is printed before alice. *)
Lemma exact_date_listing_is_not_by_name :
  ~ exact_date_listing_by_name (world2 None ["2024-06-15"] server_ok).
Proof.
  intro H.
  specialize (H (Calendar.mkDatetime 2024 6 15 0 0 0)).
  assert (Hd : Calendar.strptime_Ymd
                 (Text.strip (reply_at (world2 None ["2024-06-15"] server_ok)
                                (reads (world2 None ["2024-06-15"] server_ok))))
               = Some (Calendar.mkDatetime 2024 6 15 0 0 0))
    by (vm_compute; reflexivity).
  specialize (H Hd).
  assert (E : select_date
                (Text.strip (reply_at (world2 None ["2024-06-15"] server_ok)
                               (reads (world2 None ["2024-06-15"] server_ok))))
                (db (world2 None ["2024-06-15"] server_ok))
              = [carol_second; carol_first; alice_today])
    by (vm_compute; reflexivity).
  rewrite E in H.
  inversion H as [|a l _ Hall]; subst.
  rewrite Forall_forall in Hall.
  apply (Hall alice_today); [right; left; reflexivity|].
  vm_compute. reflexivity.
Qed.

(** What the exact-date listing prints there. *)
Example exact_date_listing_output :
  stdout (snd (show_custom_date_logs (world2 None ["2024-06-15"] server_ok))) =
  ["Enter date (YYYY-MM-DD): ";
   (Text.nl ++ "Logs for 2024-06-15:")%string;
   Text.repeat_char "=" 100;
   "Name                 | Entry      | Exit       | Result     | Synced   | Reason";
   Text.repeat_char "-" 100;
   "carol                | 08:30:00   |            | allowed    | No       | ";
   "carol                | 08:00:00   |            | allowed    | No       | ";
   "alice                | 07:45:00   |            | allowed    | No       | ";
   (Text.nl ++ "Total records: 3")%string].
Proof. vm_compute. reflexivity. Qed.

(** The example of the specification: of the records of 45 and of 10 days
    ago only the first is stale, and after an acknowledged run only it is
    gone. *)
Example stale_45_and_10_days :
  let w := mkWorld (mkTable [alice_old; bob_denied] 2) (Some enabled_config)
                   clock 0 (operator ["yes"]) 0 server_ok [] 0 [] in
  Calendar.toordinal (clock 0) - 45 = Calendar.ymd2ord 2024 5 1 /\
  Calendar.toordinal (clock 0) - 10 = Calendar.ymd2ord 2024 6 5 /\
  fst (get_records_older_than_30_days w) = [to_dict alice_old] /\
  rows (db (snd (sync_and_cleanup w))) = [bob_denied].
Proof. vm_compute. repeat split; reflexivity. Qed.

(** A failing server: nothing is deleted. *)
Example busy_server_keeps_records :
  let w := world2 (Some enabled_config) ["yes"] server_busy in
  db (snd (sync_and_cleanup w)) = db w /\
  List.length (net_log (snd (sync_and_cleanup w))) = 1%nat.
Proof. vm_compute. split; reflexivity. Qed.

(** What [strptime] takes and what it refuses. *)
Example strptime_refuses :
  map Calendar.strptime_Ymd
      ["2024-02-30"; "2024-13-01"; "2024-1-32"; "0000-01-01"; "2023-02-29";
       " 2024-01-01"; "2024-01-011"; "2024-00-10"; "2024-01-00"; "20240101"; ""]
  = repeat None 11.
Proof. vm_compute. reflexivity. Qed.

Example strptime_takes :
  map Calendar.strptime_Ymd ["2024-02-29"; "2024-2-3"; "2024-01- 5"]
  = [Some (Calendar.mkDatetime 2024 2 29 0 0 0);
     Some (Calendar.mkDatetime 2024 2 3 0 0 0);
     Some (Calendar.mkDatetime 2024 1 5 0 0 0)].
Proof. vm_compute. reflexivity. Qed.

Example strip_and_lower : Text.lower (Text.strip "  Yes	 ") = "yes".
Proof. vm_compute. reflexivity. Qed.

Example thirty_days_before_march :
  Calendar.strftime_date
    (Calendar.minus_days (Calendar.mkDatetime 2024 3 1 10 0 0) 30) = "2024-01-31".
Proof. vm_compute. reflexivity. Qed.

(* ===================================================================== *)
(** * Further properties: what a computation leaves alone *)
(* ===================================================================== *)

Section FrameFacts.

Variable X : Type.
Variable S : Type.
Variable proj : world X -> S.

Lemma keeps_ret (A : Type) (a : A) : keeps proj (ret a).
Proof. intro w. reflexivity. Qed.

Lemma keeps_bind (A B : Type) (m : M X A) (f : A -> M X B) :
  keeps proj m -> (forall a, keeps proj (f a)) -> keeps proj (bind m f).
Proof.
  intros Hm Hf w. unfold bind.
  specialize (Hm w). destruct (m w) as [a w1].
  rewrite (Hf a w1). exact Hm.
Qed.

Lemma keeps_for_each (A : Type) (l : list A) (body : A -> M X unit) :
  (forall x, keeps proj (body x)) -> keeps proj (for_each l body).
Proof.
  intro Hb. induction l as [|x l IH].
  - apply keeps_ret.
  - apply keeps_bind; [apply Hb | intros _; exact IH].
Qed.

End FrameFacts.

Section StableFacts.

Variable X : Type.
Variable J : table X -> option config -> (http_request -> http_reply) -> Prop.

Lemma stable_ret (A : Type) (a : A) : stable J (@ret X A a).
Proof. intros w H. exact H. Qed.

Lemma stable_bind (A B : Type) (m : M X A) (f : A -> M X B) :
  stable J m -> (forall a, stable J (f a)) -> stable J (bind m f).
Proof.
  intros Hm Hf w H. unfold bind.
  specialize (Hm w H). destruct (m w) as [a w1].
  exact (Hf a w1 Hm).
Qed.

Lemma stable_for_each (A : Type) (l : list A) (body : A -> M X unit) :
  (forall x, stable J (body x)) -> stable J (for_each l body).
Proof.
  intro Hb. induction l as [|x l IH].
  - apply stable_ret.
  - apply stable_bind; [apply Hb | intros _; exact IH].
Qed.

(** A computation that leaves the configuration file and the server
    alone is judged by what it does to the table. *)
Lemma stable_by_table (A : Type) (m : M X A) :
  keeps (@config_file X) m -> keeps (@server X) m ->
  (forall w, J (db w) (config_file w) (server w) ->
             J (db (snd (m w))) (config_file w) (server w)) ->
  stable J m.
Proof.
  intros Hc Hs H w Hw. rewrite (Hc w), (Hs w). exact (H w Hw).
Qed.

End StableFacts.

(** Step through a program built from [bind], [ret], [for_each], tests
    and the primitives, for a part of the world that none of them
    writes to. *)
Ltac frame_step :=
  cbv zeta;
  lazymatch goal with
  | |- keeps _ (bind _ _) => apply keeps_bind; [|intro]
  | |- keeps _ (ret _) => apply keeps_ret
  | |- keeps _ (for_each _ _) => apply keeps_for_each; intro
  | |- keeps _ (match ?x with _ => _ end) => destruct x
  | |- keeps _ _ => first [assumption | intro; reflexivity]
  end.

Ltac frame := repeat frame_step.

(** The same for a property of the table, the configuration file and the
    server, through the primitives that write to none of them. *)
Ltac stable_step :=
  cbv zeta;
  lazymatch goal with
  | |- stable _ (bind _ _) => apply stable_bind; [|intro]
  | |- stable _ (ret _) => apply stable_ret
  | |- stable _ (for_each _ _) => apply stable_for_each; intro
  | |- stable _ (match ?x with _ => _ end) => destruct x eqn:?
  | |- stable _ (print _) => let H := fresh in intros ? H; exact H
  | |- stable _ (input _) => let H := fresh in intros ? H; exact H
  | |- stable _ now => let H := fresh in intros ? H; exact H
  | |- stable _ connect => let H := fresh in intros ? H; exact H
  | |- stable _ (query _) => let H := fresh in intros ? H; exact H
  | |- stable _ _ => solve [auto]
  end.

Ltac stable_steps := repeat stable_step.

(* ===================================================================== *)
(** * Further properties: entries and exits *)
(* ===================================================================== *)

Section EntryExitFacts.

Variable X : Type.

Implicit Types (w : world X) (r : row X).

(** What [record_entry] reads and prints. *)
Lemma record_entry_console (rest : X) (name : string) w :
  let w' := snd (Lifecycle.record_entry rest name w) in
  reads w' = (if String.eqb (answer_in w) "denied"
              then S (S (reads w)) else S (reads w)) /\
  stdout w' =
    (stdout w
     ++ [("Is " ++ name ++ " allowed to enter? (allowed / denied): ")%string]
     ++ (if String.eqb (answer_in w) "denied"
         then ["Enter reason for denial: "] else [])
     ++ [("Entry recorded for " ++ name ++ " at " ++ time_in w
          ++ " (result = " ++ answer_in w ++ ")")%string])%list /\
  ticks w' = S (S (ticks w)) /\ now_at w' = now_at w.
Proof.
  unfold Lifecycle.record_entry, answer_in, time_in,
    Lifecycle.get_today_date_str, Lifecycle.get_time_str,
    bind, now, input, ret, connect, execute, print. simpl.
  destruct (String.eqb _ "denied"); simpl;
    rewrite <- ?app_assoc; repeat split; reflexivity.
Qed.

(** An UPDATE by an identifier no row has changes nothing. *)
Lemma update_absent_id (f : row X -> row X) (i : Z) (l : list (row X)) :
  (forall r, In r l -> id r <> i) ->
  map (fun r => if id r =? i then f r else r) l = l.
Proof.
  intro H. induction l as [|r l IH]; [reflexivity|].
  simpl. rewrite IH by (intros; apply H; now right).
  destruct (Z.eqb_spec (id r) i) as [E|_]; [|reflexivity].
  exfalso. apply (H r); [now left | exact E].
Qed.

(** [record_exit] changes at most one row, an open allowed entry of
    [name] on the clock's date, and of that row the exit time only. *)
Lemma record_exit_one_row (name : string) w :
  pk_unique (db w) ->
  rows (db (snd (Lifecycle.record_exit name w))) = rows (db w) \/
  exists l1 r l2,
    rows (db w) = (l1 ++ r :: l2)%list /\
    open_on name (today_in w) r /\
    rows (db (snd (Lifecycle.record_exit name w))) =
      (l1 ++ set_exit_time (time_in w) r :: l2)%list.
Proof.
  intro Hu.
  destruct (select_open_entry name (today_in w) (db w)) as [r|] eqn:Hsel.
  - right. destruct (record_exit_closes name w Hu Hsel) as (l1 & l2 & E1 & E2).
    apply select_open_entry_some in Hsel. destruct Hsel as (_ & Ho & _).
    exists l1, r, l2. split; [exact E1|]. split; [|exact E2].
    now apply open_entry_iff.
  - left. rewrite record_exit_db, Hsel. reflexivity.
Qed.

Lemma record_exit_keeps_closed (name : string) w :
  pk_unique (db w) ->
  let w' := snd (Lifecycle.record_exit name w) in
  List.length (rows (db w')) = List.length (rows (db w)) /\
  map (@id X) (rows (db w')) = map (@id X) (rows (db w)) /\
  (forall r, In r (rows (db w)) -> exit_time r <> None -> In r (rows (db w'))).
Proof.
  intros Hu w'. subst w'.
  destruct (record_exit_one_row name w Hu) as [E | (l1 & r & l2 & E1 & Ho & E2)].
  - rewrite E. repeat split; auto.
  - rewrite E1, E2. split; [|split].
    + rewrite !length_app. reflexivity.
    + rewrite !map_app. reflexivity.
    + intros r0 Hin Hx. apply in_app_or in Hin. apply in_or_app.
      destruct Hin as [Hin | [<- | Hin]].
      * now left.
      * exfalso. apply Hx. apply Ho.
      * right. now right.
Qed.

(** An entry answered "allowed" is the one the next exit of that name
    closes, when the clock still shows the date of the entry. *)
Lemma entry_then_exit (rest : X) (name : string) w :
  answer_in w = "allowed" ->
  let w1 := snd (Lifecycle.record_entry rest name w) in
  today_in w1 = today_in w ->
  rows (db (snd (Lifecycle.record_exit name w1))) =
    (rows (db w)
     ++ [mkRow (next_rowid (db w)) name (today_in w) (Some (time_in w))
               (Some (time_in w1)) "allowed" None rest])%list.
Proof.
  intros Ha w1 Hday.
  assert (Edb : db w1 =
    sql_insert (fun i => mkRow i name (today_in w) (Some (time_in w)) None
                               "allowed" None rest) (db w)).
  { subst w1. rewrite record_entry_db. unfold reason_in. rewrite Ha.
    reflexivity. }
  set (r_new := mkRow (next_rowid (db w)) name (today_in w) (Some (time_in w))
                      None "allowed" None rest).
  assert (Hnew : In r_new (rows (db w1))).
  { rewrite Edb. unfold sql_insert. cbn [rows]. apply in_or_app.
    right. now left. }
  assert (Hopen : open_entry name (today_in w1) r_new = true).
  { apply open_entry_iff. rewrite Hday. repeat split. }
  rewrite record_exit_db.
  destruct (select_open_entry name (today_in w1) (db w1)) as [r|] eqn:Hsel.
  - apply select_open_entry_some in Hsel. destruct Hsel as (Hin & _ & Hmax).
    specialize (Hmax r_new Hnew Hopen).
    assert (Er : r = r_new).
    { rewrite Edb in Hin. unfold sql_insert in Hin. cbn [rows] in Hin.
      apply in_app_or in Hin. destruct Hin as [Hin | [<- | []]]; [|reflexivity].
      apply next_rowid_fresh in Hin. cbn [id r_new] in Hmax. lia. }
    subst r. rewrite Edb. unfold sql_update, sql_insert. cbn [rows id r_new].
    rewrite map_app. rewrite update_absent_id.
    + cbn [map id]. rewrite Z.eqb_refl. reflexivity.
    + intros r Hr E. apply next_rowid_fresh in Hr. lia.
  - exfalso. apply select_open_entry_none in Hsel. unfold sql_select in Hsel.
    assert (Hf : In r_new (filter (open_entry name (today_in w1)) (rows (db w1))))
      by (apply filter_In; split; assumption).
    rewrite Hsel in Hf. exact Hf.
Qed.

(** An entry whose answer is not "allowed" stays as it was inserted
    through every later entry and exit. *)
Lemma entry_not_allowed_stays_open (rest : X) (name : string) (ops : list op) w :
  pk_unique (db w) ->
  answer_in w <> "allowed" ->
  let w1 := snd (Lifecycle.record_entry rest name w) in
  let r := mkRow (next_rowid (db w)) name (today_in w) (Some (time_in w)) None
                 (answer_in w) (reason_in w) rest in
  rows (db w1) = (rows (db w) ++ [r])%list /\
  In r (rows (db (snd (run_ops rest ops w1)))).
Proof.
  intros Hu Hna w1 r.
  assert (E1 : rows (db w1) = (rows (db w) ++ [r])%list).
  { subst w1. rewrite record_entry_db. reflexivity. }
  split; [exact E1|].
  assert (Hu1 : pk_unique (db w1)) by (now apply record_entry_pk_unique).
  destruct (run_ops_preserves_denied rest ops w1 Hu1) as (_ & Hkeep & _).
  apply Hkeep.
  - rewrite E1. apply in_or_app. right. now left.
  - exact Hna.
Qed.

End EntryExitFacts.

(** X1. logger.py: when the table, with unique identifiers, holds an open
    allowed entry of [name] on the clock's date, [record_exit name] sets
    the exit time of the one with the largest identifier to the clock's
    time, its other columns staying as they were, leaves every other row
    as it was and prints that the exit was recorded. *)
Theorem logger_record_exit_closes_largest_id (name : string) (w : Logger.W) :
  pk_unique (db w) ->
  (exists r1, In r1 (rows (db w)) /\
              open_on name (fst (Logger.get_today_date_str w)) r1) ->
  let exit_time := fst (Logger.get_time_str (snd (Logger.get_today_date_str w))) in
  let w' := snd (Logger.record_exit name w) in
  (exists l1 r l2,
     rows (db w) = (l1 ++ r :: l2)%list /\
     open_on name (fst (Logger.get_today_date_str w)) r /\
     (forall c, In c (rows (db w)) ->
        open_on name (fst (Logger.get_today_date_str w)) c ->
        c <> r -> id c < id r) /\
     rows (db w') =
       (l1 ++ mkRow (id r) (Store.name r) (date r) (entry_time r)
                (Some exit_time) (result r) (reason r) tt
           :: l2)%list) /\
  stdout w' =
    (stdout w ++ [("Exit recorded for " ++ name ++ " at " ++ exit_time)%string])%list.
Proof.
  intros Hu Hc exit_time w'. split.
  - destruct (@record_exit_largest_id unit name w Hu Hc)
      as (l1 & r & l2 & E & Ho & Hmax & E').
    exists l1, r, l2. split; [exact E|]. split; [exact Ho|].
    split; [exact Hmax|]. etransitivity; [exact E'|].
    unfold set_exit_time. destruct (extra r). reflexivity.
  - subst w'. unfold Logger.record_exit. rewrite record_exit_stdout.
    destruct (select_open_entry name (today_in w) (db w)) eqn:Hsel;
      [reflexivity|].
    exfalso. apply select_open_entry_none in Hsel. unfold sql_select in Hsel.
    destruct Hc as (r1 & Hin & Ho).
    assert (Hf : In r1 (filter (open_entry name (today_in w)) (rows (db w)))).
    { apply filter_In. split; [exact Hin|]. now apply open_entry_iff. }
    rewrite Hsel in Hf. exact Hf.
Qed.

(** X2. logger.py: when no row of the table is an open allowed entry of
    [name] on the clock's date, [record_exit name] prints that no entry
    was found, returns normally and leaves the table as it was. *)
Theorem logger_record_exit_without_open_entry (name : string) (w : Logger.W) :
  (forall r, In r (rows (db w)) ->
     ~ open_on name (fst (Logger.get_today_date_str w)) r) ->
  Logger.record_exit name w = (tt, snd (Logger.record_exit name w)) /\
  db (snd (Logger.record_exit name w)) = db w /\
  stdout (snd (Logger.record_exit name w)) =
    (stdout w ++
     [("No existing entry record found today for " ++ name
       ++ " to mark exit.")%string])%list.
Proof.
  intro Hnone. split.
  - destruct (Logger.record_exit name w) as [[] w']. reflexivity.
  - apply (@record_exit_no_candidate unit name w). exact Hnone.
Qed.

(** X3. In both programs [record_exit], on a table with unique
    identifiers, changes at most one row: either the table stays as it
    was, or one open allowed entry of [name] on the clock's date gets the
    exit time and nothing else moves.  So the rows and their identifiers
    stay in place and a row that has an exit time keeps it. *)
Theorem record_exit_never_rewrites_an_exit_time :
  (forall (name : string) (w : Logger.W),
     pk_unique (db w) ->
     let w' := snd (Logger.record_exit name w) in
     (rows (db w') = rows (db w) \/
      exists l1 r l2,
        rows (db w) = (l1 ++ r :: l2)%list /\
        open_on name (fst (Logger.get_today_date_str w)) r /\
        rows (db w') =
          (l1 ++ set_exit_time
                   (fst (Logger.get_time_str (snd (Logger.get_today_date_str w)))) r
              :: l2)%list) /\
     map (@id unit) (rows (db w')) = map (@id unit) (rows (db w)) /\
     (forall r, In r (rows (db w)) -> exit_time r <> None -> In r (rows (db w')))) /\
  (forall (name : string) (w : Logger2.W),
     pk_unique (db w) ->
     let w' := snd (Logger2.record_exit name w) in
     (rows (db w') = rows (db w) \/
      exists l1 r l2,
        rows (db w) = (l1 ++ r :: l2)%list /\
        open_on name (fst (Logger2.get_today_date_str w)) r /\
        rows (db w') =
          (l1 ++ set_exit_time
                   (fst (Logger2.get_time_str (snd (Logger2.get_today_date_str w)))) r
              :: l2)%list) /\
     map (@id Z) (rows (db w')) = map (@id Z) (rows (db w)) /\
     (forall r, In r (rows (db w)) -> exit_time r <> None -> In r (rows (db w')))).
Proof.
  split; intros name w Hu w'; subst w'.
  - split; [exact (record_exit_one_row unit name w Hu)|].
    exact (proj2 (record_exit_keeps_closed unit name w Hu)).
  - split; [exact (record_exit_one_row Z name w Hu)|].
    exact (proj2 (record_exit_keeps_closed Z name w Hu)).
Qed.

(** X4. In both programs, when the operator answers "allowed" and the
    clock still shows the date of the entry, the exit of [name] recorded
    right after the entry closes the row that entry inserted, and no
    other: older open entries of the same name stay open. *)
Theorem exit_closes_the_entry_just_recorded :
  (forall (name : string) (w : Logger.W),
     Text.lower (Text.strip (reply_at w (reads w))) = "allowed" ->
     let w1 := snd (Logger.record_entry name w) in
     fst (Logger.get_today_date_str w1) = fst (Logger.get_today_date_str w) ->
     exists r,
       rows (db w1) = (rows (db w) ++ [r])%list /\ exit_time r = None /\
       rows (db (snd (Logger.record_exit name w1))) =
         (rows (db w)
          ++ [set_exit_time
                (fst (Logger.get_time_str (snd (Logger.get_today_date_str w1)))) r])%list) /\
  (forall (name : string) (w : Logger2.W),
     Text.lower (Text.strip (reply_at w (reads w))) = "allowed" ->
     let w1 := snd (Logger2.record_entry name w) in
     fst (Logger2.get_today_date_str w1) = fst (Logger2.get_today_date_str w) ->
     exists r,
       rows (db w1) = (rows (db w) ++ [r])%list /\ exit_time r = None /\
       rows (db (snd (Logger2.record_exit name w1))) =
         (rows (db w)
          ++ [set_exit_time
                (fst (Logger2.get_time_str (snd (Logger2.get_today_date_str w1)))) r])%list).
Proof.
  split; intros name w Ha w1 Hday.
  - exists (mkRow (next_rowid (db w)) name (today_in w) (Some (time_in w)) None
                  "allowed" None tt).
    split; [|split; [reflexivity|]].
    + subst w1. unfold Logger.record_entry. rewrite record_entry_db.
      unfold reason_in, answer_in. rewrite Ha. reflexivity.
    + exact (entry_then_exit unit tt name w Ha Hday).
  - exists (mkRow (next_rowid (db w)) name (today_in w) (Some (time_in w)) None
                  "allowed" None 0).
    split; [|split; [reflexivity|]].
    + subst w1. unfold Logger2.record_entry. rewrite record_entry_db.
      unfold reason_in, answer_in. rewrite Ha. reflexivity.
    + exact (entry_then_exit Z 0 name w Ha Hday).
Qed.

(** X5. In both programs [record_entry] stores the operator's answer, a
    text in ASCII, as it was typed, stripped and in lower case, whatever
    it is, and prints it in the line that says the entry was recorded; it
    asks for a reason, and stores it stripped, exactly when that answer
    is "denied", and otherwise stores no reason and reads one line
    only. *)
Theorem record_entry_keeps_the_answer_as_typed :
  (forall (name : string) (w : Logger.W),
     Text.is_ascii (Text.strip (reply_at w (reads w))) = true ->
     let res := Text.lower (Text.strip (reply_at w (reads w))) in
     let w' := snd (Logger.record_entry name w) in
     exists r,
       rows (db w') = (rows (db w) ++ [r])%list /\
       result r = res /\
       reason r = (if String.eqb res "denied"
                   then Some (Text.strip (reply_at w (S (reads w)))) else None) /\
       reads w' = (if String.eqb res "denied"
                   then S (S (reads w)) else S (reads w)) /\
       stdout w' =
         (stdout w
          ++ [("Is " ++ name ++ " allowed to enter? (allowed / denied): ")%string]
          ++ (if String.eqb res "denied"
              then ["Enter reason for denial: "] else [])
          ++ [("Entry recorded for " ++ name ++ " at "
               ++ fst (Logger.get_time_str (snd (Logger.get_today_date_str w)))
               ++ " (result = " ++ res ++ ")")%string])%list) /\
  (forall (name : string) (w : Logger2.W),
     Text.is_ascii (Text.strip (reply_at w (reads w))) = true ->
     let res := Text.lower (Text.strip (reply_at w (reads w))) in
     let w' := snd (Logger2.record_entry name w) in
     exists r,
       rows (db w') = (rows (db w) ++ [r])%list /\
       result r = res /\
       reason r = (if String.eqb res "denied"
                   then Some (Text.strip (reply_at w (S (reads w)))) else None) /\
       reads w' = (if String.eqb res "denied"
                   then S (S (reads w)) else S (reads w)) /\
       stdout w' =
         (stdout w
          ++ [("Is " ++ name ++ " allowed to enter? (allowed / denied): ")%string]
          ++ (if String.eqb res "denied"
              then ["Enter reason for denial: "] else [])
          ++ [("Entry recorded for " ++ name ++ " at "
               ++ fst (Logger2.get_time_str (snd (Logger2.get_today_date_str w)))
               ++ " (result = " ++ res ++ ")")%string])%list).
Proof.
  split; intros name w _ res w'.
  - eexists. split; [|split; [|split; [|split]]].
    + subst w'. unfold Logger.record_entry. rewrite record_entry_db. reflexivity.
    + reflexivity.
    + reflexivity.
    + exact (proj1 (record_entry_console unit tt name w)).
    + exact (proj1 (proj2 (record_entry_console unit tt name w))).
  - eexists. split; [|split; [|split; [|split]]].
    + subst w'. unfold Logger2.record_entry. rewrite record_entry_db. reflexivity.
    + reflexivity.
    + reflexivity.
    + exact (proj1 (record_entry_console Z 0 name w)).
    + exact (proj1 (proj2 (record_entry_console Z 0 name w))).
Qed.

(** X6. In both programs, on a table with unique identifiers, an entry
    whose answer was anything but "allowed" can never be closed: through
    every later sequence of entries and exits its row stays exactly as it
    was inserted, without an exit time. *)
Theorem entry_not_allowed_is_never_closed :
  (forall (name : string) (ops : list op) (w : Logger.W),
     pk_unique (db w) ->
     Text.lower (Text.strip (reply_at w (reads w))) <> "allowed" ->
     let w1 := snd (Logger.record_entry name w) in
     exists r,
       rows (db w1) = (rows (db w) ++ [r])%list /\ exit_time r = None /\
       In r (rows (db (snd (run_ops tt ops w1))))) /\
  (forall (name : string) (ops : list op) (w : Logger2.W),
     pk_unique (db w) ->
     Text.lower (Text.strip (reply_at w (reads w))) <> "allowed" ->
     let w1 := snd (Logger2.record_entry name w) in
     exists r,
       rows (db w1) = (rows (db w) ++ [r])%list /\ exit_time r = None /\
       In r (rows (db (snd (run_ops 0 ops w1))))).
Proof.
  split; intros name ops w Hu Hna w1.
  - destruct (entry_not_allowed_stays_open unit tt name ops w Hu Hna) as [E H].
    eexists. split; [exact E|]. split; [reflexivity|exact H].
  - destruct (entry_not_allowed_stays_open Z 0 name ops w Hu Hna) as [E H].
    eexists. split; [exact E|]. split; [reflexivity|exact H].
Qed.

(** On the table of the first variant: carol leaves at half past nine,
    and bob's row is as it was. *)
Lemma logger_exit_of_carol :
  let w := world1 [] in
  pk_unique (db w) /\
  (exists r1, In r1 (rows (db w)) /\ open_on "carol" "2024-06-15" r1) /\
  rows (db (snd (Logger.record_exit "carol" w))) =
    [mkRow 1 "bob" "2024-06-15" (Some "09:00:00") None "denied"
           (Some "no badge") tt;
     mkRow 2 "carol" "2024-06-15" (Some "08:00:00") (Some "09:30:00")
           "allowed" None tt] /\
  (exists l1 r l2,
     rows (db w) = (l1 ++ r :: l2)%list /\
     rows (db (snd (Logger.record_exit "carol" w))) =
       (l1 ++ mkRow (id r) (name r) (date r) (entry_time r)
                (Some "09:30:00") (result r) (reason r) tt
           :: l2)%list) /\
  stdout (snd (Logger.record_exit "carol" w)) =
    ["Exit recorded for carol at 09:30:00"].
Proof.
  intro w.
  pose proof table1_pk_unique as Hu.
  assert (Hc : exists r1, In r1 (rows (db w)) /\ open_on "carol" "2024-06-15" r1).
  { eexists. split; [right; left; reflexivity|]. repeat split. }
  destruct (logger_record_exit_closes_largest_id "carol" w Hu Hc)
    as [(l1 & r & l2 & E & _ & _ & E') Hout].
  split; [exact Hu|]. split; [exact Hc|].
  split; [vm_compute; reflexivity|]. split; [|exact Hout].
  exists l1, r, l2. split; [exact E | exact E'].
Defined.

(** On the table of the first variant: bob, who was turned away, cannot
    leave. *)
Lemma logger_exit_of_bob :
  let w := world1 [] in
  (forall r, In r (rows (db w)) -> ~ open_on "bob" "2024-06-15" r) /\
  db (snd (Logger.record_exit "bob" w)) = db w /\
  stdout (snd (Logger.record_exit "bob" w)) =
    ["No existing entry record found today for bob to mark exit."].
Proof.
  intro w.
  assert (Hnone : forall r, In r (rows (db w)) -> ~ open_on "bob" "2024-06-15" r).
  { intros r Hin (Hname & _ & Hres & _).
    cbv [w world1 db table1 rows In] in Hin.
    destruct Hin as [<- | [<- | []]]; discriminate. }
  destruct (logger_record_exit_without_open_entry "bob" w Hnone) as (_ & Hdb & Hout).
  split; [exact Hnone|]. split; [exact Hdb | exact Hout].
Defined.

(** Alice left on the first of May: carol's exit leaves her row alone. *)
Lemma closed_row_after_an_exit :
  let w := world2 None [] server_ok in
  pk_unique (db w) /\
  In alice_old (rows (db (snd (Logger2.record_exit "carol" w)))).
Proof.
  intro w.
  pose proof table2_pk_unique as Hu.
  destruct record_exit_never_rewrites_an_exit_time as [_ H2].
  destruct (H2 "carol" w Hu) as (_ & _ & Hkeep).
  split; [exact Hu|].
  apply Hkeep; [left; reflexivity | discriminate].
Defined.

(** Carol enters a third time and leaves: her two older entries stay
    open. *)
Lemma third_entry_of_carol_is_closed :
  let w := world2 None ["allowed"] server_ok in
  Text.lower (Text.strip (reply_at w (reads w))) = "allowed" /\
  rows (db (snd (Logger2.record_exit "carol"
                   (snd (Logger2.record_entry "carol" w))))) =
    [alice_old; bob_denied; carol_first; carol_second; alice_today;
     mkRow 6 "carol" "2024-06-15" (Some "09:30:00") (Some "09:30:00")
           "allowed" None 0].
Proof.
  intro w.
  assert (Ha : Text.lower (Text.strip (reply_at w (reads w))) = "allowed")
    by (vm_compute; reflexivity).
  destruct exit_closes_the_entry_just_recorded as [_ H2].
  destruct (H2 "carol" w Ha eq_refl) as (r & E1 & _ & E2).
  split; [exact Ha|].
  rewrite E2. f_equal.
  assert (Er : [r] = [mkRow 6 "carol" "2024-06-15" (Some "09:30:00") None
                            "allowed" None 0]).
  { apply (app_inv_head (rows (db w))). rewrite <- E1. vm_compute. reflexivity. }
  injection Er as ->. vm_compute. reflexivity.
Defined.

(** The operator turns dave away and says why: the answer and the reason
    are stored without the blanks around them, the answer in lower
    case. *)
Lemma entry_denied_with_a_reason :
  let w := world2 None [" Denied"; "  no badge "] server_ok in
  Text.is_ascii (Text.strip (reply_at w (reads w))) = true /\
  rows (db (snd (Logger2.record_entry "dave" w))) =
    (rows (db w)
     ++ [mkRow 6 "dave" "2024-06-15" (Some "09:30:00") None "denied"
               (Some "no badge") 0])%list /\
  exists r,
    rows (db (snd (Logger2.record_entry "dave" w))) = (rows (db w) ++ [r])%list /\
    result r = "denied" /\ reason r = Some "no badge" /\
    reads (snd (Logger2.record_entry "dave" w)) = 2%nat.
Proof.
  intro w.
  assert (Ha : Text.is_ascii (Text.strip (reply_at w (reads w))) = true)
    by (vm_compute; reflexivity).
  destruct record_entry_keeps_the_answer_as_typed as [_ H2].
  destruct (H2 "dave" w Ha) as (r & E & Hres & Hreason & Hreads & _).
  split; [exact Ha|]. split; [vm_compute; reflexivity|].
  exists r. split; [exact E|]. split; [exact Hres|].
  split; [exact Hreason | exact Hreads].
Defined.

(** The operator types "yes" for "allowed": the entry can never be
    closed. *)
Lemma entry_answered_yes_stays_open :
  let w := world2 None ["yes"] server_ok in
  pk_unique (db w) /\
  Text.lower (Text.strip (reply_at w (reads w))) <> "allowed" /\
  exists r,
    result r = "yes" /\ exit_time r = None /\
    In r (rows (db (snd (run_ops 0 [Exit "dan"; Exit "dan"]
                           (snd (Logger2.record_entry "dan" w)))))).
Proof.
  intro w.
  pose proof table2_pk_unique as Hu.
  assert (Hna : Text.lower (Text.strip (reply_at w (reads w))) <> "allowed")
    by (vm_compute; discriminate).
  destruct entry_not_allowed_is_never_closed as [_ H2].
  destruct (H2 "dan" [Exit "dan"; Exit "dan"] w Hu Hna) as (r & E1 & Hx & Hin).
  split; [exact Hu|]. split; [exact Hna|].
  exists r. split; [|split; [exact Hx | exact Hin]].
  assert (Er : [r] = [mkRow 6 "dan" "2024-06-15" (Some "09:30:00") None
                            "yes" None 0]).
  { apply (app_inv_head (rows (db w))). rewrite <- E1. vm_compute. reflexivity. }
  injection Er as ->. reflexivity.
Defined.

(* ===================================================================== *)
(** * Further properties: settings and archival in the running process *)
(* ===================================================================== *)

(** Symbolic execution of the process-level programs. *)
Ltac pexec :=
  cbv beta iota zeta delta
    [Process.sync_and_cleanup Process.load_config Process.send_to_server
     Process.deref Process.as_config Process.show_sync_status
     Logger2.get_records_older_than_30_days Logger2.delete_old_records
     Logger2.save_config
     execute_rowcount execute
     read_config_file write_config_file http_post bind now connect
     query input print ret fst snd
     db config_file now_at ticks reply_at reads server stdout connects net_log
     Process.purges Process.posts Logger2.accepted Process.request_in
     Process.configured Logger2.confirm_in
     Logger2.batch_in Logger2.stale_in Logger2.cutoff_in Process.config_in
     Process.load_config_messages
     Process.d_server_url Process.d_api_key Process.d_sync_enabled
     Remote.server_url Remote.api_key Remote.sync_enabled
     andb orb negb url bearer records sync_date].

(** The case analysis of a run of [Process.sync_and_cleanup], test by
    test in program order. *)
Ltac psync_cases w :=
  destruct w as [t0 cfg0 clock0 ticks0 operator0 reads0 server0 out0 conn0 net0];
  pexec;
  destruct cfg0 as [[?u ?k ?e]|]; pexec;
  (destruct (map to_dict _) as [|?d ?l] eqn:?Eb; pexec);
  try (destruct (String.eqb _ "yes"); pexec);
  try (destruct (truthy (get_or_False _)); pexec);
  try (destruct (truthy (get _)); pexec);
  try (destruct (eq_str _ _); pexec);
  try (destruct (server0 _) as [?code ?text|?e]; pexec);
  try (destruct (_ =? 200) eqn:?E200; pexec);
  rewrite ?app_nil_r.

Section ProcessFacts.

Implicit Types (w : Logger2.W) (d : Process.defaults).

(** As long as [DEFAULT_CONFIG] is what the module sets it to, the
    process-level functions are those of [Logger2]. *)
Lemma process_send_to_server_initial (l : list record_dict) (c : config) w :
  Process.send_to_server Process.initial l c w = Logger2.send_to_server l c w.
Proof. reflexivity. Qed.

Lemma process_sync_and_cleanup_initial w :
  Process.sync_and_cleanup Process.initial w = Logger2.sync_and_cleanup w.
Proof.
  destruct w as [t0 cfg0 clock0 ticks0 operator0 reads0 server0 out0 conn0 net0].
  destruct cfg0; reflexivity.
Qed.

Lemma process_sync_db d w :
  db (snd (Process.sync_and_cleanup d w)) =
  if Process.purges d w
  then sql_delete (id_in (map (@id unit) (Logger2.batch_in w))) (db w)
  else db w.
Proof. psync_cases w; reflexivity. Qed.

Lemma process_sync_net_log d w :
  net_log (snd (Process.sync_and_cleanup d w)) =
  (net_log w ++
   if Process.posts d w
   then [(Process.request_in d w, server w (Process.request_in d w))]
   else [])%list.
Proof. psync_cases w; reflexivity. Qed.

Lemma process_sync_config_file d w :
  config_file (snd (Process.sync_and_cleanup d w)) = Some (Process.config_in d w).
Proof. psync_cases w; reflexivity. Qed.

End ProcessFacts.

(* ===================================================================== *)
(** * Further properties: start-up and settings *)
(* ===================================================================== *)

(** X7. [init_db] of logger2.py never loses a record: whatever the file
    held, it holds the same records in the same order afterwards, now in
    a table with the [synced] column.  A table that had the column is
    left as it was; the rows of one that had not get [synced = 0] and the
    AUTOINCREMENT counter is kept.  Running [init_db] again changes
    nothing and prints only that the database is initialized. *)
Theorem init_db_keeps_every_record (f : db_file) :
  exists t,
    Logger2.init_db f = TableV2 t /\
    map to_dict (rows t) = Process.records_of f /\
    (forall t2, f = TableV2 t2 -> t = t2) /\
    (forall t1, f = TableV1 t1 ->
       Forall (fun r => Logger2.synced r = 0) (rows t) /\ seq t = seq t1) /\
    (f = NoTable -> t = empty_table) /\
    Logger2.init_db (Logger2.init_db f) = Logger2.init_db f /\
    Process.init_db_messages (Logger2.init_db f) = ["Database initialized."].
Proof.
  destruct f as [|t1|t2].
  - exists empty_table. repeat split; intros; try discriminate; reflexivity.
  - eexists. split; [reflexivity|].
    split; [|split; [|split; [|split; [|split]]]]; try reflexivity.
    + cbn [rows Process.records_of]. rewrite map_map. reflexivity.
    + intros t2 E. discriminate E.
    + intros t0 E. injection E as <-. split; [|reflexivity].
      cbn [rows]. apply Forall_forall. intros r Hr.
      apply in_map_iff in Hr. destruct Hr as (r0 & <- & _). reflexivity.
    + intro E. discriminate E.
  - exists t2. repeat split; intros; try discriminate; try reflexivity.
    congruence.
Qed.

(** X8. [load_config] returns what the configuration file holds and
    changes nothing when the file exists; when it does not, it creates
    it with the default settings, says so and returns those.  Either way
    the file exists afterwards and holds what was returned, so a second
    call reads the same configuration silently; and [load_config] after
    [save_config c] returns [c]. *)
Theorem load_config_ensures_the_file (w : Logger2.W) :
  let c := fst (Logger2.load_config w) in
  let w' := snd (Logger2.load_config w) in
  config_file w' = Some c /\
  db w' = db w /\ net_log w' = net_log w /\
  (forall c0, config_file w = Some c0 -> c = c0 /\ w' = w) /\
  (config_file w = None ->
     c = DEFAULT_CONFIG /\
     stdout w' = (stdout w ++ ["Created default config file: server_config.json";
                               "Please update with your server details."])%list) /\
  Logger2.load_config w' = (c, w') /\
  (forall c1,
     Logger2.load_config (snd (Logger2.save_config c1 w)) =
     (c1, snd (Logger2.save_config c1 w))).
Proof.
  destruct w as [t0 cfg0 clock0 ticks0 operator0 reads0 server0 out0 conn0 net0].
  destruct cfg0 as [c0|]; cbv zeta.
  - split; [reflexivity|]. split; [reflexivity|]. split; [reflexivity|].
    split; [|split; [|split]].
    + intros c1 E. cbn [config_file] in E. injection E as <-.
      split; reflexivity.
    + intro E. discriminate E.
    + reflexivity.
    + intro c1. reflexivity.
  - split; [reflexivity|]. split; [reflexivity|]. split; [reflexivity|].
    split; [|split; [|split]].
    + intros c1 E. discriminate E.
    + intros _. split; [reflexivity|].
      cbv [Logger2.load_config bind read_config_file write_config_file print
           ret snd stdout config_file db now_at ticks reply_at reads server
           connects net_log].
      rewrite <- app_assoc. reflexivity.
    + reflexivity.
    + intro c1. reflexivity.
Qed.

(** Symbolic execution of [configure_server]. *)
Ltac cexec :=
  cbv beta iota zeta delta
    [Process.configure_server Process.load_config Process.deref
     Process.set_server_url Process.set_api_key Process.set_sync_enabled
     Logger2.save_config
     read_config_file write_config_file bind input print ret fst snd
     db config_file now_at ticks reply_at reads server stdout connects net_log].

(** Turn the tests on text into equations and close a case that
    contradicts them. *)
Ltac text_cases :=
  repeat match goal with
  | H : String.eqb _ _ = true |- _ => apply String.eqb_eq in H
  | H : String.eqb _ _ = false |- _ => apply String.eqb_neq in H
  end.

(** The case analysis of a run of [configure_server], test by test in
    program order. *)
Ltac configure_cases :=
  cexec;
  destruct (String.eqb _ "1") eqn:?E1; cexec;
  [ destruct (String.eqb _ "") eqn:?Eb; cexec
  | destruct (String.eqb _ "2") eqn:?E2; cexec;
    [ destruct (String.eqb _ "") eqn:?Eb; cexec
    | destruct (String.eqb _ "3") eqn:?E3; cexec;
      [ | destruct (String.eqb _ "4") eqn:?E4; cexec ] ] ];
  text_cases.

(** X9. With a configuration file in place, [configure_server] changes
    at most one setting of the file: option 1 or 2 with a text that is
    not blank sets the server URL or the API key to it; option 3 sets
    [sync_enabled] to whether the answer, stripped and in lower case, is
    "yes"; a blank text, option 4 and any other choice leave the file as
    it was.  It never touches the table, the network or
    [DEFAULT_CONFIG]. *)
Theorem configure_server_changes_one_setting
    (d : Process.defaults) (w : Logger2.W) (c : config) :
  config_file w = Some c ->
  let choice := Text.strip (reply_at w (reads w)) in
  let typed := Text.strip (reply_at w (S (reads w))) in
  let w' := snd (Process.configure_server d w) in
  fst (Process.configure_server d w) = d /\
  db w' = db w /\ net_log w' = net_log w /\
  (choice = "1" -> typed <> "" ->
     config_file w' =
       Some (mkConfig (Some (JStr typed)) (api_key c) (sync_enabled c))) /\
  (choice = "2" -> typed <> "" ->
     config_file w' =
       Some (mkConfig (server_url c) (Some (JStr typed)) (sync_enabled c))) /\
  (choice = "3" ->
     config_file w' =
       Some (mkConfig (server_url c) (api_key c)
                      (Some (JBool (String.eqb (Text.lower typed) "yes"))))) /\
  (choice = "1" \/ choice = "2" -> typed = "" -> config_file w' = Some c) /\
  (choice <> "1" -> choice <> "2" -> choice <> "3" -> config_file w' = Some c).
Proof.
  destruct w as [t0 cfg0 clock0 ticks0 operator0 reads0 server0 out0 conn0 net0].
  cbn [config_file reply_at reads]. intros ->.
  configure_cases;
    (split; [reflexivity|]; split; [reflexivity|]; split; [reflexivity|];
     split; [|split; [|split; [|split]]]);
    intros; try reflexivity; try congruence;
    try (exfalso; intuition congruence).
Qed.

(** X10. Without a configuration file, [load_config] hands
    [configure_server] the dictionary [DEFAULT_CONFIG] itself, and option
    1 with a text that is not blank writes that text into it.  From then
    on the process takes that URL for the placeholder:
    [send_to_server] refuses every configuration with that URL, makes no
    request and returns [False]. *)
Theorem configure_server_without_file_rewrites_the_defaults
    (d : Process.defaults) (w : Logger2.W) (url : string) :
  config_file w = None ->
  Text.strip (reply_at w (reads w)) = "1" ->
  Text.strip (reply_at w (S (reads w))) = url ->
  url <> "" ->
  let d' := fst (Process.configure_server d w) in
  let w' := snd (Process.configure_server d w) in
  d' = Process.mkDefaults url (Process.d_api_key d) (Process.d_sync_enabled d) /\
  config_file w' = Some (Process.as_config d') /\
  db w' = db w /\
  forall (records : list record_dict) (c : config) (w2 : Logger2.W),
    server_url c = Some (JStr url) ->
    fst (Process.send_to_server d' records c w2) = false /\
    net_log (snd (Process.send_to_server d' records c w2)) = net_log w2 /\
    db (snd (Process.send_to_server d' records c w2)) = db w2.
Proof.
  destruct w as [t0 cfg0 clock0 ticks0 operator0 reads0 server0 out0 conn0 net0].
  cbn [config_file reply_at reads]. intros -> Hc Ht Hu.
  apply String.eqb_neq in Hu.
  cexec. rewrite Hc, String.eqb_refl. cexec. rewrite Ht, Hu. cexec.
  split; [reflexivity|]. split; [reflexivity|]. split; [reflexivity|].
  intros l c w2 Hurl.
  destruct w2 as [t2 cfg2 clock2 ticks2 operator2 reads2 server2 out2 conn2 net2].
  unfold Process.send_to_server. rewrite Hurl.
  cbv beta iota zeta delta
    [get eq_str Process.d_server_url bind print ret fst snd negb
     db config_file now_at ticks reply_at reads server stdout connects net_log].
  rewrite String.eqb_refl, orb_true_r.
  destruct (truthy (get_or_False (sync_enabled c)));
    cbv beta iota zeta delta
      [bind print ret fst snd negb
       db config_file now_at ticks reply_at reads server stdout connects net_log];
    repeat split.
Qed.

(* ===================================================================== *)
(** * Further properties: archival *)
(* ===================================================================== *)

Section ArchivalFacts.

Import Logger2.

Implicit Types (w : W) (d : Process.defaults).

Lemma filter_length_split (A : Type) (p : A -> bool) (l : list A) :
  (List.length (filter p l) + List.length (filter (fun x => negb (p x)) l))%nat
  = List.length l.
Proof.
  induction l as [|x l IH]; [reflexivity|].
  simpl. destruct (p x); simpl; lia.
Qed.

(** The number of rows the DELETE of the batch removes, with unique
    identifiers: the size of the batch. *)
Lemma purge_count w :
  pk_unique (db w) ->
  (List.length (rows (db w))
   - List.length (rows (sql_delete (id_in (map (@id unit) (batch_in w))) (db w))))%nat
  = List.length (batch_in w).
Proof.
  intro Hu. rewrite purged_rows by exact Hu.
  pose proof (filter_length_split _ (older_than (cutoff_in w)) (rows (db w))) as H.
  unfold batch_in, stale_in, select_older_than, sql_select.
  rewrite length_map, order_by_length. lia.
Qed.

(** No row of a table is selected again once the selected rows are
    gone. *)
Lemma filter_after_delete (A : Type) (p : A -> bool) (l : list A) :
  filter p (filter (fun x => negb (p x)) l) = [].
Proof.
  induction l as [|x l IH]; [reflexivity|].
  simpl. destruct (p x) eqn:E; simpl; [exact IH|].
  rewrite E. exact IH.
Qed.

(** What a run that finds nothing stale does. *)
Lemma process_sync_nothing_stale d w :
  batch_in w = [] ->
  let w' := snd (Process.sync_and_cleanup d w) in
  stdout w' =
    (stdout w ++ Process.load_config_messages w
     ++ ["No records older than 30 days to sync."])%list /\
  reads w' = reads w /\ net_log w' = net_log w /\ db w' = db w.
Proof.
  unfold batch_in, stale_in, cutoff_in.
  destruct w as [t0 cfg0 clock0 ticks0 operator0 reads0 server0 out0 conn0 net0].
  pexec. intro Eb.
  destruct cfg0 as [[u k e]|]; pexec; rewrite Eb;
    repeat split; rewrite <- ?app_assoc; reflexivity.
Qed.

(** What a run that reaches the DELETE prints. *)
Lemma process_sync_purged_stdout d w :
  Process.purges d w = true ->
  let n := Text.str_of_nat (List.length (batch_in w)) in
  let deleted :=
    (List.length (rows (db w))
     - List.length (rows (sql_delete (id_in (map (@id unit) (batch_in w))) (db w))))%nat in
  stdout (snd (Process.sync_and_cleanup d w)) =
    (stdout w ++ Process.load_config_messages w
     ++ [(Text.nl ++ "Found " ++ n ++ " records older than 30 days.")%string;
         "These records will be sent to the server and deleted locally.";
         "Do you want to proceed? (yes/no): ";
         ("Sending " ++ n ++ " records to server...")%string;
         "✓ Records successfully sent to server!";
         ("✓ Deleted " ++ Text.str_of_nat deleted
          ++ " old records from local database.")%string;
         "Sync and cleanup completed successfully!"])%list.
Proof.
  psync_cases w; intro H; try discriminate H;
    rewrite <- ?app_assoc; reflexivity.
Qed.

End ArchivalFacts.

Import Logger2.

Lemma eq_str_iff (v : json) (s : string) : eq_str v s = true <-> v = JStr s.
Proof.
  destruct v; simpl; split; intro H; try discriminate H.
  - apply String.eqb_eq in H. now subst.
  - injection H as ->. apply String.eqb_refl.
Qed.

(** X11. [send_to_server] never touches the table or the configuration
    file.  It goes to the network exactly when the configuration has a
    [sync_enabled] that Python takes for true and a [server_url] that it
    takes for true and that is not the placeholder URL; whether there is
    an API key is not looked at.  With a key whose text is ASCII, which
    the request header can carry, it then makes one request, which
    carries the records it was given, the URL and the key of the
    configuration and the clock's reading, and returns whether the reply
    was status 200; when it does not go to the network it makes no
    request and returns [False]. *)
Theorem send_to_server_asks_only_for_sync_and_url
    (records : list record_dict) (c : config) (w : W) :
  Text.is_ascii (Repr.py_str (get (api_key c))) = true ->
  let req := mkRequest (get (server_url c)) (get (api_key c)) records
               (Calendar.strftime_datetime (now_at w (ticks w))) in
  let ok := fst (send_to_server records c w) in
  let w' := snd (send_to_server records c w) in
  db w' = db w /\ config_file w' = config_file w /\
  (configured c = true <->
     (exists e, sync_enabled c = Some e /\ truthy e = true) /\
     (exists u, server_url c = Some u /\ truthy u = true /\
                u <> JStr DEFAULT_server_url)) /\
  (configured c = false -> ok = false /\ net_log w' = net_log w) /\
  (configured c = true ->
     net_log w' = (net_log w ++ [(req, server w req)])%list /\
     ok = accepted (server w req)).
Proof.
  destruct w as [t0 cfg0 clock0 ticks0 operator0 reads0 server0 out0 conn0 net0].
  intros _. cbv zeta. split; [|split; [|split; [|split]]].
  - unfold send_to_server.
    destruct (truthy (get_or_False _)), (truthy (get _)), (eq_str _ _);
      try reflexivity;
      cbv [negb orb bind now print http_post ret snd db config_file now_at
           ticks reply_at reads server stdout connects net_log];
      destruct (server0 _) as [code text|e]; [destruct (code =? 200)|];
      reflexivity.
  - unfold send_to_server.
    destruct (truthy (get_or_False _)), (truthy (get _)), (eq_str _ _);
      try reflexivity;
      cbv [negb orb bind now print http_post ret snd db config_file now_at
           ticks reply_at reads server stdout connects net_log];
      destruct (server0 _) as [code text|e]; [destruct (code =? 200)|];
      reflexivity.
  - unfold configured. rewrite andb_true_iff, negb_true_iff, orb_false_iff,
      negb_false_iff. split.
    + intros (He & Hu & Hd). split.
      * destruct (sync_enabled c) as [e|]; [|discriminate He].
        exists e. split; [reflexivity|exact He].
      * destruct (server_url c) as [u|]; [|discriminate Hu].
        exists u. split; [reflexivity|]. split; [exact Hu|].
        intro E. apply eq_str_iff in E. simpl in Hd. congruence.
    + intros [(e & Ee & He) (u & Eu & Hu & Hd)]. rewrite Ee, Eu. simpl.
      split; [exact He|]. split; [exact Hu|].
      destruct (eq_str u DEFAULT_server_url) eqn:E; [|reflexivity].
      apply eq_str_iff in E. contradiction.
  - unfold configured, send_to_server.
    destruct (truthy (get_or_False _)), (truthy (get _)), (eq_str _ _);
      intro H; try discriminate H; split; reflexivity.
  - unfold configured, send_to_server.
    destruct (truthy (get_or_False _)), (truthy (get _)), (eq_str _ _);
      intro H; try discriminate H;
      cbv [negb orb bind now print http_post ret fst snd db config_file now_at
           ticks reply_at reads server stdout connects net_log accepted];
      destruct (server0 _) as [code text|e]; [destruct (code =? 200)|];
      split; reflexivity.
Qed.

Lemma filter_all (A : Type) (p : A -> bool) (l : list A) :
  (forall x, In x l -> p x = true) -> filter p l = l.
Proof.
  intro H. induction l as [|x l IH]; [reflexivity|].
  simpl. rewrite (H x) by now left.
  rewrite IH; [reflexivity|]. intros y Hy. apply H. now right.
Qed.

Lemma filter_none (A : Type) (p : A -> bool) (l : list A) :
  (forall x, In x l -> p x = false) -> filter p l = [].
Proof.
  intro H. induction l as [|x l IH]; [reflexivity|].
  simpl. rewrite (H x) by now left.
  apply IH. intros y Hy. apply H. now right.
Qed.

Lemma id_in_iff (X : Type) (ids : list Z) (r : row X) :
  id_in ids r = true <-> In (id r) ids.
Proof.
  unfold id_in. rewrite existsb_exists. split.
  - intros (i & Hi & E). apply Z.eqb_eq in E. now subst.
  - intro H. exists (id r). split; [exact H|apply Z.eqb_refl].
Qed.

(** With unique identifiers, a DELETE by distinct identifiers that are
    all in the table removes as many rows as there are identifiers. *)
Lemma delete_count (X : Type) (ids : list Z) (l : list (row X)) :
  NoDup (map (@id X) l) -> NoDup ids -> incl ids (map (@id X) l) ->
  List.length (filter (id_in ids) l) = List.length ids.
Proof.
  intros Hu Hn Hin.
  rewrite <- (length_map (@id X)).
  apply Permutation_length. apply NoDup_Permutation.
  - now apply NoDup_map_filter.
  - exact Hn.
  - intro i. rewrite in_map_iff. split.
    + intros (r & <- & Hr). apply filter_In in Hr. now apply id_in_iff.
    + intro Hi. destruct (proj1 (in_map_iff _ _ _) (Hin i Hi)) as (r & <- & Hr).
      exists r. split; [reflexivity|]. apply filter_In. split; [exact Hr|].
      now apply id_in_iff.
Qed.

(** X12. For a list of identifiers within the number of host parameters
    that one statement takes, [delete_old_records] removes the rows whose
    identifier is in the list and no other, and returns how many it
    removed; the AUTOINCREMENT counter stays.  With an empty list it
    removes nothing and returns 0; with unique identifiers and a list of
    distinct identifiers that are all in the table it returns the length
    of the list. *)
Theorem delete_old_records_counts_what_it_removes (record_ids : list Z) (w : W) :
  (List.length record_ids <= max_variable_number)%nat ->
  let deleted := fst (delete_old_records record_ids w) in
  let w' := snd (delete_old_records record_ids w) in
  (forall r, In r (rows (db w')) <-> In r (rows (db w)) /\ ~ In (id r) record_ids) /\
  (deleted + List.length (rows (db w')))%nat = List.length (rows (db w)) /\
  seq (db w') = seq (db w) /\
  (record_ids = [] -> db w' = db w /\ deleted = 0%nat) /\
  (pk_unique (db w) -> NoDup record_ids ->
   incl record_ids (map (@id Z) (rows (db w))) ->
   deleted = List.length record_ids).
Proof.
  destruct w as [t0 cfg0 clock0 ticks0 operator0 reads0 server0 out0 conn0 net0].
  intros _.
  cbv [delete_old_records bind connect execute_rowcount fst snd db config_file
       now_at ticks reply_at reads server stdout connects net_log].
  pose proof (filter_length_split _ (id_in record_ids) (rows t0)) as Hlen.
  unfold sql_delete. cbn [rows seq].
  split; [|split; [|split; [|split]]].
  - intro r. rewrite filter_In, negb_true_iff.
    rewrite <- (id_in_iff Z record_ids r).
    destruct (id_in record_ids r); intuition congruence.
  - lia.
  - reflexivity.
  - intros ->. rewrite filter_all by reflexivity.
    destruct t0. split; [reflexivity|]. cbn [rows]. lia.
  - intros Hu Hn Hin.
    rewrite <- (delete_count Z record_ids (rows t0) Hu Hn Hin). lia.
Qed.

(** X13. Identifiers of archived records are never given again: when the
    AUTOINCREMENT counter is not behind the table, the entry recorded
    after a run of [sync_and_cleanup] gets an identifier above every
    identifier the table held before that run, deleted rows included,
    and the counter is again not behind the table. *)
Theorem archived_ids_are_never_reused (name : string) (w : W) :
  Process.seq_covers (db w) ->
  let w1 := snd (sync_and_cleanup w) in
  let w2 := snd (record_entry name w1) in
  exists r,
    rows (db w2) = (rows (db w1) ++ [r])%list /\
    (forall r0, In r0 (rows (db w)) -> id r0 < id r) /\
    Process.seq_covers (db w2).
Proof.
  intros Hc w1 w2.
  assert (Hseq : seq (db w1) = seq (db w)).
  { subst w1. rewrite sync_and_cleanup_db. destruct (purges w); reflexivity. }
  subst w2. unfold record_entry. rewrite record_entry_db.
  unfold sql_insert. cbn [rows seq].
  eexists. split; [reflexivity|]. cbn [id]. split.
  - intros r0 Hr0. specialize (Hc r0 Hr0). unfold next_rowid.
    rewrite Hseq. lia.
  - intros r0 Hr0. cbn [rows seq] in *. apply in_app_or in Hr0.
    destruct Hr0 as [Hr0 | [<- | []]].
    + apply next_rowid_fresh in Hr0. lia.
    + cbn [id]. lia.
Qed.

(** X14. When the remote side acknowledged the batch, on a table with
    unique identifiers and for a batch within the number of host
    parameters that one DELETE takes, the count [sync_and_cleanup]
    reports as found, the count it reports as sent and the count it
    reports as deleted are one number: the size of the batch, which is
    also the number of rows the table lost. *)
Theorem sync_and_cleanup_reports_the_batch_size (w : W) :
  pk_unique (db w) ->
  (List.length (batch_in w) <= max_variable_number)%nat ->
  acknowledged w (snd (sync_and_cleanup w)) ->
  let w' := snd (sync_and_cleanup w) in
  let batch := fst (get_records_older_than_30_days (snd (load_config w))) in
  let n := Text.str_of_nat (List.length batch) in
  (List.length (rows (db w')) + List.length batch)%nat = List.length (rows (db w)) /\
  stdout w' =
    (stdout w ++ Process.load_config_messages w
     ++ [(Text.nl ++ "Found " ++ n ++ " records older than 30 days.")%string;
         "These records will be sent to the server and deleted locally.";
         "Do you want to proceed? (yes/no): ";
         ("Sending " ++ n ++ " records to server...")%string;
         "✓ Records successfully sent to server!";
         ("✓ Deleted " ++ n ++ " old records from local database.")%string;
         "Sync and cleanup completed successfully!"])%list.
Proof.
  intros Hu _ Hack w' batch n.
  apply acknowledged_iff_purges in Hack.
  assert (Eb : batch = batch_in w).
  { subst batch. destruct w as [t0 [c|] ? ? ? ? ? ? ? ?]; reflexivity. }
  subst n. rewrite Eb. split.
  - subst w'. rewrite sync_and_cleanup_db, Hack.
    rewrite purged_rows by exact Hu.
    pose proof (filter_length_split _ (older_than (cutoff_in w)) (rows (db w))) as H.
    unfold batch_in, stale_in, select_older_than, sql_select.
    rewrite length_map, order_by_length. lia.
  - subst w'. rewrite <- process_sync_and_cleanup_initial.
    rewrite (process_sync_purged_stdout Process.initial w Hack).
    rewrite (purge_count w Hu). reflexivity.
Qed.

(** X15. A run of [sync_and_cleanup] that finds no row older than the
    cutoff prints that there is nothing to sync (after the notice of
    [load_config], if it had to create the configuration file), asks the
    operator nothing, makes no request and leaves the table as it
    was. *)
Theorem sync_and_cleanup_with_nothing_stale (w : W) :
  (forall r, In r (rows (db w)) ->
     String.ltb (date r)
       (Calendar.strftime_date (Calendar.minus_days (now_at w (ticks w)) 30))
     = false) ->
  let w' := snd (sync_and_cleanup w) in
  stdout w' =
    (stdout w ++ Process.load_config_messages w
     ++ ["No records older than 30 days to sync."])%list /\
  reads w' = reads w /\ net_log w' = net_log w /\ db w' = db w.
Proof.
  intros Hnone w'. subst w'.
  rewrite <- process_sync_and_cleanup_initial.
  apply process_sync_nothing_stale.
  unfold batch_in, stale_in, select_older_than, sql_select.
  rewrite filter_none by exact Hnone. reflexivity.
Qed.

(** X16. After a run of [sync_and_cleanup] that the remote side
    acknowledged, on a table with unique identifiers and for a batch
    within the number of host parameters that one DELETE takes, nothing
    stale is left: as long as the clock gives the same cutoff, the
    selection is empty and a second run prints that there is nothing to
    sync, asks nothing, sends nothing and deletes nothing. *)
Theorem second_sync_finds_nothing (w : W) :
  pk_unique (db w) ->
  (List.length (batch_in w) <= max_variable_number)%nat ->
  acknowledged w (snd (sync_and_cleanup w)) ->
  let w1 := snd (sync_and_cleanup w) in
  Calendar.strftime_date (Calendar.minus_days (now_at w1 (ticks w1)) 30) =
  Calendar.strftime_date (Calendar.minus_days (now_at w (ticks w)) 30) ->
  let w2 := snd (sync_and_cleanup w1) in
  fst (get_records_older_than_30_days w1) = [] /\
  stdout w2 = (stdout w1 ++ ["No records older than 30 days to sync."])%list /\
  reads w2 = reads w1 /\ net_log w2 = net_log w1 /\ db w2 = db w1.
Proof.
  intros Hu _ Hack w1 Hcut w2.
  apply acknowledged_iff_purges in Hack.
  assert (Eb : batch_in w1 = []).
  { unfold batch_in, stale_in, select_older_than, sql_select, cutoff_in.
    rewrite Hcut. subst w1. rewrite sync_and_cleanup_db, Hack.
    rewrite purged_rows by exact Hu.
    fold (cutoff_in w).
    rewrite (filter_after_delete _ (older_than (cutoff_in w))). reflexivity. }
  split.
  - rewrite <- Eb. generalize w1. intros []. reflexivity.
  - subst w2. rewrite <- process_sync_and_cleanup_initial.
    destruct (process_sync_nothing_stale Process.initial w1 Eb)
      as (Hout & Hr & Hn & Hd).
    assert (Ec : Process.load_config_messages w1 = []).
    { unfold Process.load_config_messages. subst w1.
      rewrite sync_and_cleanup_config_file. reflexivity. }
    rewrite Ec in Hout. split; [exact Hout|]. split; [exact Hr|].
    split; [exact Hn|exact Hd].
Qed.

(** X17. [show_sync_status] changes neither the table nor the network
    and asks the operator nothing; the number it prints is the number of
    rows whose date is smaller than the text of the date thirty days
    before the clock's; the settings it prints are those of the
    configuration file, which it creates if there is none. *)
Theorem show_sync_status_counts_the_stale_records
    (d : Process.defaults) (w : W) :
  let c := Process.config_in d w in
  let cutoff :=
    Calendar.strftime_date (Calendar.minus_days (now_at w (ticks w)) 30) in
  let w' := snd (Process.show_sync_status d w) in
  db w' = db w /\ net_log w' = net_log w /\ reads w' = reads w /\
  config_file w' = Some c /\
  stdout w' =
    (stdout w ++ Process.load_config_messages w
     ++ [(Text.nl ++ Process.rule)%string; "SYNC STATUS"; Process.rule;
         ("Sync Enabled: " ++ Repr.py_str (get (sync_enabled c)))%string;
         ("Server URL: " ++ Repr.py_str (get (server_url c)))%string;
         ("Records older than 30 days: "
          ++ Text.str_of_nat
               (List.length (filter (fun r => String.ltb (date r) cutoff)
                                    (rows (db w)))))%string;
         Process.rule])%list.
Proof.
  destruct w as [t0 cfg0 clock0 ticks0 operator0 reads0 server0 out0 conn0 net0].
  cbv zeta.
  assert (El : forall cutoff,
    List.length (map (@to_dict Z) (select_older_than cutoff t0)) =
    List.length (filter (fun r => String.ltb (date r) cutoff) (rows t0))).
  { intro cutoff. unfold select_older_than, sql_select.
    rewrite length_map, order_by_length. reflexivity. }
  destruct cfg0 as [c0|]; pexec; rewrite El;
    repeat split; rewrite <- ?app_assoc; reflexivity.
Qed.

(* ===================================================================== *)
(** * Further properties: the listings *)
(* ===================================================================== *)

Section ListingPeriodFacts.

Import Calendar.

Lemma leb_compare (a b : string) :
  String.leb a b = true <-> String.compare a b <> Gt.
Proof.
  unfold String.leb. destruct (String.compare a b); split; intro H;
    congruence.
Qed.

Lemma leb_antisym (a b : string) :
  String.leb a b && String.leb b a = true <-> a = b.
Proof.
  rewrite andb_true_iff, !leb_compare. split.
  - intros [H1 H2]. apply String.compare_eq_iff.
    rewrite (String.compare_antisym b a) in H2.
    destruct (String.compare a b); simpl in H2; congruence.
  - intros ->. rewrite string_compare_refl. split; discriminate.
Qed.

(** On dates written by [strftime], the BETWEEN of [show_logs] is the
    interval of the calendar. *)
Lemma date_between_calendar (a b e : datetime) (r : row Z) :
  valid a -> valid b -> valid e -> date r = strftime_date e ->
  (date_between (strftime_date a) (strftime_date b) r = true <->
   toordinal a <= toordinal e <= toordinal b).
Proof.
  intros Va Vb Ve Er. unfold date_between. rewrite Er.
  rewrite andb_true_iff, !leb_compare.
  destruct (valid_date_bounds Va) as (? & ? & ?).
  destruct (valid_date_bounds Vb) as (? & ? & ?).
  destruct (valid_date_bounds Ve) as (? & ? & ?).
  rewrite !strftime_date_compare by assumption.
  rewrite <- (toordinal_compare Va Ve), <- (toordinal_compare Ve Vb).
  destruct (Z.compare_spec (toordinal a) (toordinal e));
    destruct (Z.compare_spec (toordinal e) (toordinal b));
    (split; intros [Hx1 Hx2]; try lia; try congruence; try (split; congruence)).
Qed.

Lemma toordinal_from_1001 (d : datetime) :
  valid d -> 1001 <= year d -> 365242 < toordinal d <= 3652059.
Proof.
  intros V Hy. split; [|apply (toordinal_le_max V)].
  pose proof (ymd2ord_bounds V) as [Hlo _].
  pose proof (@days_before_year_mono 1001 (year d) Hy) as Hm.
  change (days_before_year 1001) with 365242 in Hm.
  unfold toordinal. lia.
Qed.

(** The first day [show_logs("week")] asks for is the Monday of the
    clock's week. *)
Lemma start_of_week (today : datetime) :
  valid today -> 1001 <= year today ->
  let monday := minus_days today (weekday today) in
  valid monday /\ weekday monday = 0 /\
  0 <= toordinal today - toordinal monday <= 6.
Proof.
  intros V Hy monday.
  pose proof (toordinal_from_1001 today V Hy) as Ht.
  assert (Hw : 0 <= weekday today <= 6).
  { unfold weekday. pose proof (Z.mod_pos_bound (toordinal today + 6) 7). lia. }
  destruct (@minus_days_spec today (weekday today)) as [Vm Em]; [lia|].
  fold monday in Vm, Em.
  split; [exact Vm|]. split; [|lia].
  unfold weekday at 1. rewrite Em. unfold weekday.
  Z.div_mod_to_equations. lia.
Qed.

Lemma strftime_in_spellings (e : datetime) : In (strftime_date e) (spellings e).
Proof.
  unfold spellings, month_spellings, day_spellings, strftime_date.
  destruct (month e <? 10), (day e <? 10); simpl; left; reflexivity.
Qed.

(** A text that spells the day [dt] and is the text [strftime] writes for
    some day is the text [strftime] writes for [dt]. *)
Lemma spelling_canonical (dt e : datetime) (s : string) :
  valid dt -> valid e -> In s (spellings dt) -> s = strftime_date e ->
  s = strftime_date dt.
Proof.
  intros Vd Ve Hs Es.
  assert (E1 : strptime_Ymd s
               = Some (mkDatetime (year dt) (month dt) (day dt) 0 0 0)).
  { apply strptime_Ymd_spec. split; [exact Vd|].
    split; [repeat split|exact Hs]. }
  assert (E2 : strptime_Ymd (strftime_date e)
               = Some (mkDatetime (year e) (month e) (day e) 0 0 0)).
  { apply strptime_Ymd_spec. split; [exact Ve|].
    split; [repeat split|]. exact (strftime_in_spellings e). }
  rewrite <- Es in E2. rewrite E1 in E2. injection E2 as Ey Em Ed.
  rewrite Es. unfold strftime_date. rewrite Ey, Em, Ed. reflexivity.
Qed.

End ListingPeriodFacts.

(** X18. [show_logs] with a period other than "today", "week" and
    "month" prints that the period is invalid and nothing else, and
    leaves the table as it was; it has opened the database before it
    looks at the period. *)
Theorem show_logs_with_an_unknown_period (period : string) (w : W) :
  period <> "today" -> period <> "week" -> period <> "month" ->
  let w' := snd (show_logs period w) in
  stdout w' = (stdout w ++ ["Invalid period specified."])%list /\
  db w' = db w /\ connects w' = S (connects w).
Proof.
  intros Ht Hw Hm.
  apply String.eqb_neq in Ht, Hw, Hm.
  destruct w as [t0 cfg0 clock0 ticks0 operator0 reads0 server0 out0 conn0 net0].
  unfold show_logs, period_bounds. rewrite Ht, Hw, Hm.
  repeat split.
Qed.

(** X19. What the three periods of [show_logs] select, for a clock in
    the years 1001 to 9999.  "today" selects the rows whose date is the
    text of the clock's date.  "week" runs from the Monday of the clock's
    week, at most six days back, to the clock's date; "month" from the
    first of the clock's month to the clock's date.  For a row dated by
    [strftime], as [record_entry] writes it, being selected is being a
    day of that interval of the calendar. *)
Theorem show_logs_periods_on_the_calendar (today : Calendar.datetime) :
  Calendar.valid today -> 1001 <= Calendar.year today ->
  let text := Calendar.strftime_date in
  (exists title,
     period_bounds "today" today = Some (text today, text today, title) /\
     forall r, date_between (text today) (text today) r = true <->
               date r = text today) /\
  (exists monday title,
     period_bounds "week" today = Some (text monday, text today, title) /\
     Calendar.valid monday /\ Calendar.weekday monday = 0 /\
     0 <= Calendar.toordinal today - Calendar.toordinal monday <= 6 /\
     forall entered r,
       Calendar.valid entered -> date r = text entered ->
       (date_between (text monday) (text today) r = true <->
        Calendar.toordinal monday <= Calendar.toordinal entered
          <= Calendar.toordinal today)) /\
  (exists first title,
     period_bounds "month" today = Some (text first, text today, title) /\
     Calendar.year first = Calendar.year today /\
     Calendar.month first = Calendar.month today /\
     Calendar.day first = 1 /\
     forall entered r,
       Calendar.valid entered -> date r = text entered ->
       (date_between (text first) (text today) r = true <->
        Calendar.year entered = Calendar.year today /\
        Calendar.month entered = Calendar.month today /\
        Calendar.day entered <= Calendar.day today)).
Proof.
  intros V Hy text. subst text. split; [|split].
  - eexists. split; [reflexivity|].
    intro r. unfold date_between. rewrite leb_antisym.
    split; intro H; congruence.
  - destruct (start_of_week today V Hy) as (Vm & Hw & Hd).
    eexists. eexists. split; [reflexivity|].
    split; [exact Vm|]. split; [exact Hw|]. split; [exact Hd|].
    intros entered r Ve Er. now apply date_between_calendar.
  - exists (Calendar.replace_day_1 today). eexists. split; [reflexivity|].
    split; [reflexivity|]. split; [reflexivity|]. split; [reflexivity|].
    intros entered r Ve Er.
    assert (Vf : Calendar.valid (Calendar.replace_day_1 today)).
    { destruct V as (H1 & H2 & H3). repeat split; try assumption; simpl; lia. }
    unfold date_between. rewrite Er, andb_true_iff, !leb_compare.
    destruct (valid_date_bounds V) as (? & ? & ?).
    destruct (valid_date_bounds Vf) as (? & ? & ?).
    destruct (valid_date_bounds Ve) as (? & ? & ?).
    rewrite !strftime_date_compare by assumption.
    destruct Ve as (_ & _ & Hde).
    unfold Calendar.compare_ymd, Calendar.replace_day_1.
    cbn [Calendar.year Calendar.month Calendar.day].
    destruct (Z.compare_spec (Calendar.year today) (Calendar.year entered));
    destruct (Z.compare_spec (Calendar.month today) (Calendar.month entered));
    destruct (Z.compare_spec (Calendar.year entered) (Calendar.year today));
    destruct (Z.compare_spec (Calendar.month entered) (Calendar.month today));
    destruct (Z.compare_spec 1 (Calendar.day entered));
    destruct (Z.compare_spec (Calendar.day entered) (Calendar.day today));
    split; intros; try lia; try (split; congruence); try intuition congruence.
Qed.

(** X20. [show_custom_date_logs] validates the typed date with
    [strptime] but looks the rows up by the typed text.  So a text that
    spells a day of the calendar otherwise than [strftime] writes it,
    such as a month or day without its leading zero, passes the
    validation and finds none of the rows dated by [strftime], as
    [record_entry] writes them: the listing says that there are no
    records for this date. *)
Theorem unpadded_date_lists_nothing (dt : Calendar.datetime) (w : W) :
  let date_str := Text.strip (reply_at w (reads w)) in
  Calendar.valid dt ->
  In date_str (Calendar.spellings dt) ->
  date_str <> Calendar.strftime_date dt ->
  (forall r, In r (rows (db w)) ->
     exists entered,
       Calendar.valid entered /\ date r = Calendar.strftime_date entered) ->
  Calendar.strptime_Ymd date_str <> None /\
  stdout (snd (show_custom_date_logs w)) =
    (stdout w
     ++ ["Enter date (YYYY-MM-DD): ";
         (Text.nl ++ "Logs for " ++ date_str ++ ":")%string;
         Text.repeat_char "=" 100; date_header; Text.repeat_char "-" 100;
         "No records found for this date."])%list.
Proof.
  intros date_str Vd Hs Hne Hrows.
  assert (E1 : Calendar.strptime_Ymd date_str
               = Some (Calendar.mkDatetime (Calendar.year dt) (Calendar.month dt)
                                           (Calendar.day dt) 0 0 0)).
  { apply strptime_Ymd_spec. split; [exact Vd|].
    split; [repeat split|exact Hs]. }
  split; [congruence|].
  destruct (show_custom_date_logs_run w) as (_ & _ & _ & _ & Hout).
  cbv zeta in Hout. fold date_str in Hout. rewrite E1 in Hout.
  assert (En : select_date date_str (db w) = []).
  { unfold select_date, sql_select. rewrite filter_none; [reflexivity|].
    intros r Hr. apply String.eqb_neq. intro E.
    destruct (Hrows r Hr) as (entered & Ve & Er).
    apply Hne. apply (spelling_canonical dt entered date_str Vd Ve Hs).
    congruence. }
  rewrite En in Hout. exact Hout.
Qed.

(* ===================================================================== *)
(** * Further properties: the menus *)
(* ===================================================================== *)

Ltac unfold_programs :=
  unfold Logger2.record_entry, Logger2.record_exit,
    Logger.record_entry, Logger.record_exit, Logger.show_today,
    Logger.get_today_date_str,
    Lifecycle.record_entry, Lifecycle.record_exit,
    Lifecycle.get_today_date_str, Lifecycle.get_time_str,
    Logger2.show_logs, Logger2.show_custom_date_logs,
    Process.sync_and_cleanup, Process.show_sync_status,
    Process.configure_server, Process.load_config, Process.send_to_server,
    Logger2.get_records_older_than_30_days, Logger2.delete_old_records,
    Logger2.save_config.

Section OperationFrames.

Implicit Types (d : Process.defaults) (name : string).

Lemma record_entry_keeps_server name : keeps (@server Z) (Logger2.record_entry name).
Proof. unfold_programs. frame. Qed.

Lemma record_entry_keeps_config_file name :
  keeps (@config_file Z) (Logger2.record_entry name).
Proof. unfold_programs. frame. Qed.

Lemma record_exit_keeps_server name : keeps (@server Z) (Logger2.record_exit name).
Proof. unfold_programs. frame. Qed.

Lemma record_exit_keeps_config_file name :
  keeps (@config_file Z) (Logger2.record_exit name).
Proof. unfold_programs. frame. Qed.

Lemma sync_keeps_server d : keeps (@server Z) (Process.sync_and_cleanup d).
Proof. unfold_programs. frame. Qed.

Lemma status_keeps_server d : keeps (@server Z) (Process.show_sync_status d).
Proof. unfold_programs. frame. Qed.

Lemma status_keeps_db d : keeps (@db Z) (Process.show_sync_status d).
Proof. unfold_programs. frame. Qed.

Lemma configure_keeps_server d : keeps (@server Z) (Process.configure_server d).
Proof. unfold_programs. frame. Qed.

Lemma configure_keeps_db d : keeps (@db Z) (Process.configure_server d).
Proof. unfold_programs. frame. Qed.

End OperationFrames.

Section SessionFacts.

Variable J : table Z -> option config -> (http_request -> http_reply) -> Prop.

Hypothesis entry_ok :
  forall name, name <> "" -> stable J (Logger2.record_entry name).
Hypothesis exit_ok :
  forall name, name <> "" -> stable J (Logger2.record_exit name).
Hypothesis sync_ok : forall d, stable J (Process.sync_and_cleanup d).
Hypothesis status_ok : forall d, stable J (Process.show_sync_status d).
Hypothesis configure_ok : forall d, stable J (Process.configure_server d).

(** A turn of the menu keeps what each of its operations keeps. *)
Lemma menu_stable (d : Process.defaults) : stable J (Process.menu d).
Proof.
  unfold Process.menu, Logger2.show_logs, Logger2.show_custom_date_logs.
  stable_steps;
    match goal with
    | H : negb (String.eqb ?n "") = true |- stable _ (_ ?n) =>
        apply negb_true_iff, String.eqb_neq in H; auto
    end.
Qed.

Lemma main_loop_stable (fuel : nat) (d : Process.defaults) :
  stable J (Process.main_loop fuel d).
Proof.
  revert d. induction fuel as [|fuel IH]; intro d.
  - apply stable_ret.
  - cbn [Process.main_loop]. apply stable_bind; [apply menu_stable|].
    intros [b d']. cbn [fst snd]. destruct b; [apply IH | apply stable_ret].
Qed.

End SessionFacts.

Section SessionInvariants.

Implicit Types (d : Process.defaults) (name : string) (w : W).

(** For a property of the table alone. *)
Lemma stable_of_keeps_db (A : Type) (P : table Z -> Prop) (m : M Z A) :
  keeps (@db Z) m -> stable (fun t _ _ => P t) m.
Proof. intros Hk w H. rewrite (Hk w). exact H. Qed.

Lemma record_exit_table (P : table Z -> Prop) name :
  (forall t r time, P t -> In r (rows t) -> result r = "allowed" ->
                    exit_time r = None ->
                    P (sql_update (fun x => id x =? id r) (set_exit_time time) t)) ->
  stable (fun t _ _ => P t) (Logger2.record_exit name).
Proof.
  intros H w Hw. unfold Logger2.record_exit. rewrite record_exit_db.
  destruct (select_open_entry name (today_in w) (db w)) as [r|] eqn:Hsel;
    [|exact Hw].
  apply select_open_entry_some in Hsel. destruct Hsel as (Hin & Ho & _).
  apply open_entry_allowed in Ho. destruct Ho as (_ & _ & Hx & Hres).
  now apply H.
Qed.

Lemma sync_table (P : table Z -> Prop) d :
  (forall t ids, P t -> P (sql_delete (id_in ids) t)) ->
  stable (fun t _ _ => P t) (Process.sync_and_cleanup d).
Proof.
  intros H w Hw. rewrite process_sync_db.
  destruct (Process.purges d w); [now apply H | exact Hw].
Qed.

(** A property of the table that insertions, exits and deletions keep
    holds through every session of the menu. *)
Lemma session_table_invariant (P : table Z -> Prop) :
  (forall name t values, name <> "" -> P t ->
     Store.name (values (next_rowid t)) = name ->
     exit_time (values (next_rowid t)) = None ->
     id (values (next_rowid t)) = next_rowid t ->
     P (sql_insert values t)) ->
  (forall t r time, P t -> In r (rows t) -> result r = "allowed" ->
     exit_time r = None ->
     P (sql_update (fun x => id x =? id r) (set_exit_time time) t)) ->
  (forall t ids, P t -> P (sql_delete (id_in ids) t)) ->
  forall fuel d w, P (db w) -> P (db (snd (Process.main_loop fuel d w))).
Proof.
  intros Hins Hupd Hdel fuel d w Hw.
  apply (main_loop_stable (fun t _ _ => P t)); try exact Hw.
  - intros name Hn w0 H0. unfold Logger2.record_entry. rewrite record_entry_db.
    apply (Hins name); try reflexivity; assumption.
  - intros name _. now apply record_exit_table.
  - intro d0. now apply sync_table.
  - intro d0. apply stable_of_keeps_db, status_keeps_db.
  - intro d0. apply stable_of_keeps_db, configure_keeps_db.
Qed.

End SessionInvariants.

(** Symbolic execution of a turn of the menus. *)
Ltac mexec :=
  cbv beta iota zeta delta
    [Process.menu LoggerMain.menu Process.menu_lines
     bind print input ret fst snd negb
     db config_file now_at ticks reply_at reads server stdout connects net_log].

(** Decide the tests of text on literals. *)
Ltac decide_tests :=
  repeat match goal with
  | |- context [String.eqb ?a ?b] =>
      let v := eval vm_compute in (String.eqb a b) in
      lazymatch v with
      | true => change (String.eqb a b) with true
      | false => change (String.eqb a b) with false
      end
  end.

Section SessionFacts2.

Implicit Types (d : Process.defaults) (w : W).

Lemma sql_insert_pk_unique_at (values : Z -> row Z) (t : table Z) :
  id (values (next_rowid t)) = next_rowid t ->
  pk_unique t -> pk_unique (sql_insert values t).
Proof.
  intros Hid Hu. unfold pk_unique, sql_insert in *. cbn [rows].
  rewrite map_app. cbn [map]. rewrite Hid.
  apply NoDup_app.
  - exact Hu.
  - constructor; [intros []|constructor].
  - intros i Hi [<- | []].
    apply in_map_iff in Hi. destruct Hi as (r & E & Hr).
    apply next_rowid_fresh in Hr. lia.
Qed.

(** Identifiers stay unique through every session of the menu. *)
Lemma main_loop_pk_unique (fuel : nat) d w :
  pk_unique (db w) -> pk_unique (db (snd (Process.main_loop fuel d w))).
Proof.
  apply (session_table_invariant (@pk_unique Z)).
  - intros name t values _ Hu _ _ Hid. now apply sql_insert_pk_unique_at.
  - intros t r time Hu _ _ _. now apply sql_update_pk_unique.
  - intros t ids Hu. now apply sql_delete_pk_unique.
Qed.

(** With a configuration file in place, [configure_server] returns
    [DEFAULT_CONFIG] as it got it and leaves a file in place. *)
Lemma configure_server_with_file d w :
  config_file w <> None ->
  fst (Process.configure_server d w) = d /\
  config_file (snd (Process.configure_server d w)) <> None.
Proof.
  destruct w as [t0 cfg0 clock0 ticks0 operator0 reads0 server0 out0 conn0 net0].
  cbn [config_file]. intro Hc.
  destruct cfg0 as [c|]; [|contradiction].
  configure_cases; split; try reflexivity; discriminate.
Qed.

Lemma status_config_file d w :
  config_file (snd (Process.show_sync_status d w)) <> None.
Proof.
  destruct w as [t0 cfg0 clock0 ticks0 operator0 reads0 server0 out0 conn0 net0].
  destruct cfg0 as [c|]; pexec; discriminate.
Qed.

Lemma configure_config_file d w :
  config_file (snd (Process.configure_server d w)) <> None.
Proof.
  destruct w as [t0 cfg0 clock0 ticks0 operator0 reads0 server0 out0 conn0 net0].
  destruct cfg0 as [c|]; configure_cases; discriminate.
Qed.

(** Once there is a configuration file there is one through every
    turn and every session of the menu. *)
Lemma config_file_stable_premises :
  (forall name, name <> "" ->
     stable (fun _ c _ => c <> None) (Logger2.record_entry name)) /\
  (forall name, name <> "" ->
     stable (fun _ c _ => c <> None) (Logger2.record_exit name)) /\
  (forall d, stable (fun _ c _ => c <> None) (Process.sync_and_cleanup d)) /\
  (forall d, stable (fun _ c _ => c <> None) (Process.show_sync_status d)) /\
  (forall d, stable (fun _ c _ => c <> None) (Process.configure_server d)).
Proof.
  split; [|split; [|split; [|split]]].
  - intros name _ w0 H0. now rewrite record_entry_keeps_config_file.
  - intros name _ w0 H0. now rewrite record_exit_keeps_config_file.
  - intros d0 w0 _. rewrite process_sync_config_file. discriminate.
  - intros d0 w0 _. apply status_config_file.
  - intros d0 w0 _. apply configure_config_file.
Qed.

Lemma menu_config_file d w :
  config_file w <> None -> config_file (snd (Process.menu d w)) <> None.
Proof.
  destruct config_file_stable_premises as (H1 & H2 & H3 & H4 & H5).
  exact (menu_stable (fun _ c _ => c <> None) H1 H2 H3 H4 H5 d w).
Qed.

Lemma main_loop_config_file (fuel : nat) d w :
  config_file w <> None ->
  config_file (snd (Process.main_loop fuel d w)) <> None.
Proof.
  destruct config_file_stable_premises as (H1 & H2 & H3 & H4 & H5).
  exact (main_loop_stable (fun _ c _ => c <> None) H1 H2 H3 H4 H5 fuel d w).
Qed.

(** With a configuration file in place, a turn of the menu returns
    [DEFAULT_CONFIG] as it got it. *)
Lemma menu_defaults d w :
  config_file w <> None -> snd (fst (Process.menu d w)) = d.
Proof.
  destruct w as [t0 cfg0 clock0 ticks0 operator0 reads0 server0 out0 conn0 net0].
  cbn [config_file]. intro Hc. mexec.
  repeat match goal with
  | |- context [if ?b then _ else _] => destruct b
  end;
  try reflexivity;
  match goal with
  | |- context [Process.configure_server ?d0 ?w0] =>
      pose proof (configure_server_with_file d0 w0 Hc) as [E _];
      destruct (Process.configure_server d0 w0); exact E
  | |- context [let (_, _) := ?m in _] => destruct m; reflexivity
  end.
Qed.

(** One turn of the loop. *)
Lemma main_loop_turn (fuel : nat) d w :
  Process.main_loop (S fuel) d w =
  (if fst (fst (Process.menu d w))
   then Process.main_loop fuel (snd (fst (Process.menu d w)))
          (snd (Process.menu d w))
   else ((true, snd (fst (Process.menu d w))), snd (Process.menu d w))).
Proof.
  change (Process.main_loop (S fuel) d w)
    with (let (r, w1) := Process.menu d w in
          (if fst r then Process.main_loop fuel (snd r)
           else ret (true, snd r)) w1).
  destruct (Process.menu d w) as [[b d'] w1]. cbn [fst snd].
  destruct b; reflexivity.
Qed.

Lemma main_loop_defaults (fuel : nat) d w :
  config_file w <> None -> snd (fst (Process.main_loop fuel d w)) = d.
Proof.
  revert d w. induction fuel as [|fuel IH]; intros d w Hc; [reflexivity|].
  rewrite main_loop_turn.
  pose proof (menu_defaults d w Hc) as Ed.
  pose proof (menu_config_file d w Hc) as Hc1.
  rewrite Ed.
  destruct (fst (fst (Process.menu d w))); [|reflexivity].
  apply IH. exact Hc1.
Qed.

(** Once the loop has reached its [break], more turns change nothing. *)
Lemma main_loop_more_fuel (fuel k : nat) d w :
  fst (fst (Process.main_loop fuel d w)) = true ->
  Process.main_loop (fuel + k) d w = Process.main_loop fuel d w.
Proof.
  revert d w. induction fuel as [|fuel IH]; intros d w H; [discriminate H|].
  change (S fuel + k)%nat with (S (fuel + k)).
  rewrite main_loop_turn in H. rewrite !main_loop_turn.
  destruct (fst (fst (Process.menu d w))); [|reflexivity].
  apply IH. exact H.
Qed.

End SessionFacts2.

(** X21. The menu of logger2.py never stores a blank name: when no row
    of the table has an empty name, none has after any number of turns,
    whatever the operator types.  A turn in which the operator picks
    option 1 or 2 and then types nothing but blanks prints that the name
    cannot be empty and leaves the table as it was. *)
Theorem menu_never_stores_a_blank_name :
  (forall (fuel : nat) (d : Process.defaults) (w : W),
     (forall r, In r (rows (db w)) -> name r <> "") ->
     forall r, In r (rows (db (snd (Process.main_loop fuel d w)))) ->
               name r <> "") /\
  (forall (d : Process.defaults) (w : W),
     Text.strip (reply_at w (reads w)) = "1" \/
     Text.strip (reply_at w (reads w)) = "2" ->
     Text.strip (reply_at w (S (reads w))) = "" ->
     fst (Process.menu d w) = (true, d) /\
     db (snd (Process.menu d w)) = db w /\
     exists prompt,
       stdout (snd (Process.menu d w)) =
         (stdout w ++ Process.menu_lines
          ++ [prompt; "Name cannot be empty."])%list).
Proof.
  split.
  - intros fuel d w.
    apply (session_table_invariant
             (fun t => forall r, In r (rows t) -> name r <> "")).
    + intros n t values Hn Ht En _ _ r Hr.
      unfold sql_insert in Hr. cbn [rows] in Hr. apply in_app_or in Hr.
      destruct Hr as [Hr | [<- | []]]; [now apply Ht | congruence].
    + intros t r0 time Ht Hr0 _ _ r Hr.
      apply sql_update_In in Hr.
      destruct Hr as [[Hr _] | (r1 & Hr1 & _ & ->)]; [now apply Ht|].
      cbn [name set_exit_time]. now apply Ht.
    + intros t ids Ht r Hr. unfold sql_delete in Hr. cbn [rows] in Hr.
      apply filter_In in Hr. apply Ht, Hr.
  - intros d w Hc Hn.
    destruct w as [t0 cfg0 clock0 ticks0 operator0 reads0 server0 out0 conn0 net0].
    cbn [reply_at reads] in Hc, Hn. mexec.
    destruct Hc as [Hc | Hc]; rewrite Hc; decide_tests; mexec;
      rewrite Hn; decide_tests; mexec;
      (split; [reflexivity|]; split; [reflexivity|]);
      eexists; rewrite <- !app_assoc; reflexivity.
Qed.

(** X22. The menu of logger.py has no such check: when the operator picks
    option 1 and then types nothing but blanks, the turn stores an entry
    whose name is the empty text. *)
Theorem logger_menu_stores_a_blank_name (w : Logger.W) :
  Text.strip (reply_at w (reads w)) = "1" ->
  Text.strip (reply_at w (S (reads w))) = "" ->
  fst (LoggerMain.menu w) = true /\
  exists r,
    rows (db (snd (LoggerMain.menu w))) = (rows (db w) ++ [r])%list /\
    name r = "" /\ id r = next_rowid (db w).
Proof.
  destruct w as [t0 cfg0 clock0 ticks0 operator0 reads0 server0 out0 conn0 net0].
  cbn [reply_at reads]. intros Hc Hn. mexec.
  rewrite Hc. decide_tests. mexec. rewrite Hn.
  match goal with
  | |- context [Logger.record_entry "" ?w0] =>
      pose proof (record_entry_db tt "" w0) as Hdb;
      change (Lifecycle.record_entry tt "" w0)
        with (Logger.record_entry "" w0) in Hdb;
      destruct (Logger.record_entry "" w0) as [u w1]
  end.
  cbv beta iota delta [fst snd db] in Hdb |- *. split; [reflexivity|].
  rewrite Hdb. eexists. split; [reflexivity|]. split; reflexivity.
Qed.

(** X23. Over any number of turns of the menu of logger2.py, when the
    server acknowledges no request (it never answers with status 200),
    no record is lost: every identifier in the table at the start is in
    the table at the end. *)
Theorem session_without_acknowledgement_loses_no_record
    (fuel : nat) (d : Process.defaults) (w : W) :
  (forall req, accepted (server w req) = false) ->
  incl (map (@id Z) (rows (db w)))
       (map (@id Z) (rows (db (snd (Process.main_loop fuel d w))))).
Proof.
  intro Hsrv.
  set (J := fun (t : table Z) (_ : option config)
                (s : http_request -> http_reply) =>
              (forall req, accepted (s req) = false) /\
              incl (map (@id Z) (rows (db w))) (map (@id Z) (rows t))).
  assert (HJ : J (db (snd (Process.main_loop fuel d w)))
                 (config_file (snd (Process.main_loop fuel d w)))
                 (server (snd (Process.main_loop fuel d w)))).
  { apply (main_loop_stable J).
    - intros n _. apply stable_by_table.
      + apply record_entry_keeps_config_file.
      + apply record_entry_keeps_server.
      + intros w0 [Hs Hi]. split; [exact Hs|].
        unfold Logger2.record_entry. rewrite record_entry_db.
        unfold sql_insert. cbn [rows]. rewrite map_app.
        intros i Hin. apply in_or_app. left. now apply Hi.
    - intros n _. apply stable_by_table.
      + apply record_exit_keeps_config_file.
      + apply record_exit_keeps_server.
      + intros w0 [Hs Hi]. split; [exact Hs|].
        unfold Logger2.record_exit. rewrite record_exit_db.
        destruct (select_open_entry _ _ _); [|exact Hi].
        rewrite sql_update_ids by reflexivity. exact Hi.
    - intros d0 w0 [Hs Hi]. rewrite sync_keeps_server. split; [exact Hs|].
      rewrite process_sync_db. unfold Process.purges.
      rewrite Hs, andb_false_r. exact Hi.
    - intros d0 w0 [Hs Hi]. rewrite status_keeps_server, status_keeps_db.
      split; assumption.
    - intros d0 w0 [Hs Hi]. rewrite configure_keeps_server, configure_keeps_db.
      split; assumption.
    - split; [exact Hsrv|]. intros i Hi. exact Hi. }
  exact (proj2 HJ).
Qed.

(** X24. Over any number of turns of the menu of logger2.py, on a table
    with unique identifiers, an entry that was not allowed never gets an
    exit time: a row whose result is not "allowed" and that has an exit
    time at the end was in the table, exit time included, at the start.
    The identifiers stay unique. *)
Theorem menu_never_closes_an_entry_not_allowed
    (fuel : nat) (d : Process.defaults) (w : W) :
  pk_unique (db w) ->
  let w' := snd (Process.main_loop fuel d w) in
  pk_unique (db w') /\
  forall r', In r' (rows (db w')) -> result r' <> "allowed" ->
             exit_time r' <> None -> In r' (rows (db w)).
Proof.
  intros Hu w'. subst w'.
  apply (session_table_invariant
           (fun t => pk_unique t /\
                     forall r', In r' (rows t) -> result r' <> "allowed" ->
                                exit_time r' <> None -> In r' (rows (db w)))).
  - intros n t values _ [Hpk Ht] _ Hx Hid. split.
    + now apply sql_insert_pk_unique_at.
    + intros r' Hr' Hres Hex. unfold sql_insert in Hr'. cbn [rows] in Hr'.
      apply in_app_or in Hr'. destruct Hr' as [Hr' | [<- | []]].
      * now apply Ht.
      * contradiction.
  - intros t r time [Hpk Ht] Hr Hres Hx. split.
    + now apply sql_update_pk_unique.
    + intros r' Hr' Hres' Hex. apply sql_update_In in Hr'.
      destruct Hr' as [[Hr' _] | (r1 & Hr1 & E & ->)]; [now apply Ht|].
      apply Z.eqb_eq in E.
      rewrite (@pk_unique_inj _ (rows t) _ _ Hpk Hr1 Hr E) in Hres'.
      cbn [result set_exit_time] in Hres'. contradiction.
  - intros t ids [Hpk Ht]. split.
    + now apply sql_delete_pk_unique.
    + intros r' Hr'. unfold sql_delete in Hr'. cbn [rows] in Hr'.
      apply filter_In in Hr'. apply Ht, Hr'.
  - split; [exact Hu|]. intros r' Hr' _ _. exact Hr'.
Qed.

(** X25. A run of logger2.py, whatever the file and the operator: after
    [init_db] and [load_config] there is a configuration file, and there
    is one through every turn of the menu, so [configure_server] never
    gets [DEFAULT_CONFIG] itself to write into and [DEFAULT_CONFIG] is
    at the end what the module set it to.  With that value
    [sync_and_cleanup] and [send_to_server] of the process are those of
    [Logger2].  A table with unique identifiers has them at the end. *)
Theorem menu_session_keeps_the_defaults
    (fuel : nat) (f : db_file) (env : W) :
  let r := Process.main fuel f env in
  snd (fst r) = Process.initial /\
  config_file (snd r) <> None /\
  (file_pk_unique f -> pk_unique (db (snd r))) /\
  (forall w, Process.sync_and_cleanup Process.initial w = sync_and_cleanup w) /\
  (forall l c w, Process.send_to_server Process.initial l c w = send_to_server l c w).
Proof.
  cbv zeta. unfold Process.main.
  set (w0 := Process.start f env).
  assert (E : (Process.load_config Process.initial ;;
               Process.main_loop fuel Process.initial) w0 =
              Process.main_loop fuel Process.initial
                (snd (Process.load_config Process.initial w0))).
  { unfold bind. destruct (Process.load_config Process.initial w0). reflexivity. }
  rewrite E.
  assert (Hc : config_file (snd (Process.load_config Process.initial w0)) <> None).
  { destruct w0 as [t0 [c|] ? ? ? ? ? ? ? ?]; discriminate. }
  assert (Hd : db (snd (Process.load_config Process.initial w0))
               = Process.table_of (init_db f)).
  { subst w0. destruct env as [t0 [c|] ? ? ? ? ? ? ? ?]; reflexivity. }
  split; [now apply main_loop_defaults|].
  split; [now apply main_loop_config_file|].
  split; [|split].
  - intro Hf. apply main_loop_pk_unique. rewrite Hd.
    destruct (init_db_pk_unique f Hf) as (t & Et & Hu). rewrite Et. exact Hu.
  - exact process_sync_and_cleanup_initial.
  - exact process_send_to_server_initial.
Qed.

(** X26. The loop of logger2.py ends when the operator picks option 10:
    the turn prints the menu and the farewell and changes nothing else,
    and turns in reserve change nothing once the loop has ended.  A
    choice that is none of the ten options prints that it is invalid,
    changes nothing else and the loop goes on. *)
Theorem quit_ends_the_session :
  (forall (fuel : nat) (d : Process.defaults) (w : W),
     Text.strip (reply_at w (reads w)) = "10" ->
     let r := Process.main_loop (S fuel) d w in
     fst r = (true, d) /\
     db (snd r) = db w /\ config_file (snd r) = config_file w /\
     net_log (snd r) = net_log w /\
     stdout (snd r) =
       (stdout w ++ Process.menu_lines ++ ["Quitting. Goodbye!"])%list) /\
  (forall (fuel k : nat) (d : Process.defaults) (w : W),
     fst (fst (Process.main_loop fuel d w)) = true ->
     Process.main_loop (fuel + k) d w = Process.main_loop fuel d w) /\
  (forall (fuel : nat) (d : Process.defaults) (w : W),
     ~ In (Text.strip (reply_at w (reads w)))
          ["1"; "2"; "3"; "4"; "5"; "6"; "7"; "8"; "9"; "10"] ->
     exists w1,
       Process.main_loop (S fuel) d w = Process.main_loop fuel d w1 /\
       db w1 = db w /\ config_file w1 = config_file w /\
       net_log w1 = net_log w /\ reads w1 = S (reads w) /\
       stdout w1 =
         (stdout w ++ Process.menu_lines
          ++ ["Invalid choice. Please try again."])%list).
Proof.
  split; [|split].
  - intros fuel d w Hc r. subst r. rewrite main_loop_turn.
    destruct w as [t0 cfg0 clock0 ticks0 operator0 reads0 server0 out0 conn0 net0].
    cbn [reply_at reads] in Hc. mexec. rewrite Hc. decide_tests. mexec.
    rewrite <- !app_assoc. repeat split.
  - exact main_loop_more_fuel.
  - intros fuel d w Hc. rewrite main_loop_turn.
    destruct w as [t0 cfg0 clock0 ticks0 operator0 reads0 server0 out0 conn0 net0].
    cbn [reply_at reads] in Hc. mexec.
    repeat match goal with
    | |- context [String.eqb ?a ?b] =>
        destruct (String.eqb_spec a b) as [E|_];
        [exfalso; apply Hc; rewrite E; cbn [In]; tauto|]
    end.
    mexec. eexists. split; [reflexivity|].
    cbn [db config_file net_log reads stdout].
    rewrite <- !app_assoc. repeat split.
Qed.

(** X27. A run of logger.py starts from an empty log whatever the file
    held: what the run does is what it does on a file without a table.
    So identifiers start again at 1: when the operator's first choice is
    option 1, the turn leaves one row, with identifier 1; and when it is
    option 4, the loop ends on the empty table. *)
Theorem logger_session_starts_from_an_empty_log
    (fuel : nat) (f : db_file) (env : Logger.W) :
  LoggerMain.main fuel f env = LoggerMain.main fuel NoTable env /\
  LoggerMain.main fuel f env =
    Some (LoggerMain.main_loop fuel (LoggerMain.start empty_table env)) /\
  (Text.strip (reply_at env (reads env)) = "1" ->
   exists r, rows (db (snd (LoggerMain.menu (LoggerMain.start empty_table env)))) = [r] /\
             id r = 1 /\ name r = Text.strip (reply_at env (S (reads env)))) /\
  (Text.strip (reply_at env (reads env)) = "4" ->
   fst (LoggerMain.main_loop (S fuel) (LoggerMain.start empty_table env)) = true /\
   rows (db (snd (LoggerMain.main_loop (S fuel) (LoggerMain.start empty_table env)))) = []).
Proof.
  split; [reflexivity|]. split; [reflexivity|]. split.
  - intro Hc.
    destruct env as [t0 cfg0 clock0 ticks0 operator0 reads0 server0 out0 conn0 net0].
    cbn [reply_at reads] in *. unfold LoggerMain.start.
    cbn [db config_file now_at ticks reply_at reads server stdout connects net_log].
    mexec. rewrite Hc. decide_tests. mexec.
    match goal with
    | |- context [Logger.record_entry ?n ?w0] =>
        pose proof (record_entry_db tt n w0) as Hdb;
        change (Lifecycle.record_entry tt n w0)
          with (Logger.record_entry n w0) in Hdb;
        destruct (Logger.record_entry n w0) as [u w1]
    end.
    cbv beta iota delta [fst snd db] in Hdb |- *. rewrite Hdb.
    eexists. split; [reflexivity|]. split; reflexivity.
  - intro Hc.
    change (LoggerMain.main_loop (S fuel) (LoggerMain.start empty_table env))
      with (let (continue, w1) := LoggerMain.menu (LoggerMain.start empty_table env) in
            (if continue then LoggerMain.main_loop fuel else ret true) w1).
    destruct env as [t0 cfg0 clock0 ticks0 operator0 reads0 server0 out0 conn0 net0].
    cbn [reply_at reads] in *. unfold LoggerMain.start.
    cbn [db config_file now_at ticks reply_at reads server stdout connects net_log].
    mexec. rewrite Hc. decide_tests. mexec. split; reflexivity.
Qed.

(* ===================================================================== *)
(** * The further properties at work on the scenario *)
(* ===================================================================== *)

(** The operator gives a new server URL: the file keeps its key and its
    switch. *)
Lemma new_url_in_the_file :
  let w := world2 (Some enabled_config) ["1"; " https://new.example/logs "]
                  server_ok in
  config_file w = Some enabled_config /\
  config_file (snd (Process.configure_server Process.initial w)) =
    Some (mkConfig (Some (JStr "https://new.example/logs"))
                   (Some (JStr "secret")) (Some (JBool true))).
Proof.
  intro w.
  destruct (configure_server_changes_one_setting
              Process.initial w enabled_config eq_refl)
    as (_ & _ & _ & H1 & _).
  split; [reflexivity|].
  apply H1; [vm_compute; reflexivity | vm_compute; discriminate].
Defined.

(** No configuration file yet: the operator gives the URL of the archive,
    and the process then refuses that URL as the placeholder. *)
Lemma first_configuration_is_refused :
  let w := world2 None ["1"; "https://archive.example/api/access-logs"]
                  server_ok in
  let d' := fst (Process.configure_server Process.initial w) in
  config_file w = None /\
  Process.d_server_url d' = "https://archive.example/api/access-logs" /\
  fst (Process.send_to_server d' [to_dict alice_old] enabled_config
         (world2 (Some enabled_config) [] server_ok)) = false.
Proof.
  intros w d'.
  assert (Hu : "https://archive.example/api/access-logs" <> "") by discriminate.
  destruct (configure_server_without_file_rewrites_the_defaults
              Process.initial w "https://archive.example/api/access-logs"
              eq_refl eq_refl eq_refl Hu)
    as (Ed & _ & _ & Hsend).
  split; [reflexivity|]. split.
  - subst d'. rewrite Ed. reflexivity.
  - exact (proj1 (Hsend [to_dict alice_old] enabled_config
                    (world2 (Some enabled_config) [] server_ok) eq_refl)).
Defined.

(** The request of the scenario: the record, the URL and the key of the
    configuration and the clock's reading go to the server, once. *)
Lemma request_of_the_scenario :
  let w := world2 (Some enabled_config) [] server_ok in
  let records := [to_dict alice_old] in
  Text.is_ascii (Repr.py_str (get (api_key enabled_config))) = true /\
  configured enabled_config = true /\
  fst (send_to_server records enabled_config w) = true /\
  net_log (snd (send_to_server records enabled_config w)) =
    [(mkRequest (JStr "https://archive.example/api/access-logs") (JStr "secret")
                [mkRow 1 "alice" "2024-05-01" (Some "08:00:00")
                       (Some "17:00:00") "allowed" None tt]
                "2024-06-15 09:30:00",
      Response 200 "ok")].
Proof.
  intros w records.
  assert (Hk : Text.is_ascii (Repr.py_str (get (api_key enabled_config))) = true)
    by (vm_compute; reflexivity).
  destruct (send_to_server_asks_only_for_sync_and_url records enabled_config w Hk)
    as (_ & _ & _ & _ & Hpost).
  destruct (Hpost eq_refl) as [Hlog Hok].
  split; [exact Hk|]. split; [reflexivity|]. split.
  - rewrite Hok. reflexivity.
  - rewrite Hlog. reflexivity.
Defined.

(** Two identifiers of the scenario are deleted: the count is two and the
    three other rows stay. *)
Lemma delete_of_two_identifiers :
  let w := world2 None [] server_ok in
  (List.length [1; 3] <= max_variable_number)%nat /\
  pk_unique (db w) /\
  fst (delete_old_records [1; 3] w) = 2%nat /\
  rows (db (snd (delete_old_records [1; 3] w))) =
    [bob_denied; carol_second; alice_today].
Proof.
  intro w.
  pose proof table2_pk_unique as Hu.
  assert (Hn : (List.length [1; 3] <= max_variable_number)%nat)
    by (apply Nat.leb_le; vm_compute; reflexivity).
  destruct (delete_old_records_counts_what_it_removes [1; 3] w Hn)
    as (_ & _ & _ & _ & Hcount).
  split; [exact Hn|]. split; [exact Hu|]. split.
  - apply Hcount; [exact Hu | |].
    + repeat constructor; cbv [In]; intuition discriminate.
    + intros i [<- | [<- | []]]; cbv [w world2 db table2 rows map In id alice_old
        bob_denied carol_first carol_second alice_today]; tauto.
  - vm_compute. reflexivity.
Defined.

Lemma table2_seq_covers : Process.seq_covers table2.
Proof.
  intros r Hin. cbv [table2 rows In] in Hin.
  repeat (destruct Hin as [<- | Hin]; [vm_compute; discriminate|]).
  destruct Hin.
Qed.

(** Alice's old entry is archived; the next entry gets identifier 6. *)
Lemma entry_after_the_purge :
  let w := world2 (Some enabled_config) ["yes"; "allowed"] server_ok in
  Process.seq_covers (db w) /\
  exists r,
    rows (db (snd (record_entry "erin" (snd (sync_and_cleanup w))))) =
      (rows (db (snd (sync_and_cleanup w))) ++ [r])%list /\
    (forall r0, In r0 (rows (db w)) -> id r0 < id r).
Proof.
  intro w.
  pose proof table2_seq_covers as Hc.
  destruct (archived_ids_are_never_reused "erin" w Hc) as (r & E & Hid & _).
  split; [exact Hc|]. exists r. split; [exact E | exact Hid].
Defined.

(** The acknowledged run of the scenario: one record found, sent and
    deleted. *)
Lemma counts_of_the_acknowledged_run :
  let w := world2 (Some enabled_config) ["yes"] server_ok in
  pk_unique (db w) /\
  (List.length (batch_in w) <= max_variable_number)%nat /\
  acknowledged w (snd (sync_and_cleanup w)) /\
  List.length (rows (db (snd (sync_and_cleanup w)))) = 4%nat /\
  stdout (snd (sync_and_cleanup w)) =
    [(Text.nl ++ "Found 1 records older than 30 days.")%string;
     "These records will be sent to the server and deleted locally.";
     "Do you want to proceed? (yes/no): ";
     "Sending 1 records to server...";
     "✓ Records successfully sent to server!";
     "✓ Deleted 1 old records from local database.";
     "Sync and cleanup completed successfully!"].
Proof.
  intro w.
  pose proof table2_pk_unique as Hu.
  assert (Hack : acknowledged w (snd (sync_and_cleanup w))).
  { exists (request_in w), "ok". split; vm_compute; reflexivity. }
  assert (Hn : (List.length (batch_in w) <= max_variable_number)%nat)
    by (apply Nat.leb_le; vm_compute; reflexivity).
  destruct (sync_and_cleanup_reports_the_batch_size w Hu Hn Hack) as [Hlen Hout].
  split; [exact Hu|]. split; [exact Hn|]. split; [exact Hack|]. split.
  - cbv zeta in Hlen.
    change (List.length
              (fst (get_records_older_than_30_days (snd (load_config w)))))
      with 1%nat in Hlen.
    change (List.length (rows (db w))) with 5%nat in Hlen. lia.
  - rewrite Hout. vm_compute. reflexivity.
Defined.

(** Nothing is older than thirty days and there is no configuration
    file: the run creates the file and stops. *)
Lemma sync_of_a_young_table :
  let w := mkWorld (mkTable [bob_denied; carol_first] 5) None clock 0
                   (operator []) 0 server_ok [] 0 [] in
  (forall r, In r (rows (db w)) -> String.ltb (date r) "2024-05-16" = false) /\
  stdout (snd (sync_and_cleanup w)) =
    ["Created default config file: server_config.json";
     "Please update with your server details.";
     "No records older than 30 days to sync."] /\
  reads (snd (sync_and_cleanup w)) = 0%nat.
Proof.
  intro w.
  assert (Hnone : forall r, In r (rows (db w)) ->
                            String.ltb (date r) "2024-05-16" = false).
  { intros r Hin. cbv [w db rows In] in Hin.
    destruct Hin as [<- | [<- | []]]; reflexivity. }
  destruct (sync_and_cleanup_with_nothing_stale w Hnone) as (Hout & Hr & _).
  split; [exact Hnone|]. split; [exact Hout | exact Hr].
Defined.

(** After the acknowledged run a second run finds nothing. *)
Lemma second_run_on_the_scenario :
  let w := world2 (Some enabled_config) ["yes"] server_ok in
  let w1 := snd (sync_and_cleanup w) in
  pk_unique (db w) /\
  (List.length (batch_in w) <= max_variable_number)%nat /\
  acknowledged w w1 /\
  fst (get_records_older_than_30_days w1) = [] /\
  db (snd (sync_and_cleanup w1)) = db w1.
Proof.
  intros w w1.
  pose proof table2_pk_unique as Hu.
  assert (Hack : acknowledged w (snd (sync_and_cleanup w))).
  { exists (request_in w), "ok". split; vm_compute; reflexivity. }
  assert (Hn : (List.length (batch_in w) <= max_variable_number)%nat)
    by (apply Nat.leb_le; vm_compute; reflexivity).
  destruct (second_sync_finds_nothing w Hu Hn Hack eq_refl)
    as (Hnone & _ & _ & _ & Hdb).
  split; [exact Hu|]. split; [exact Hn|]. split; [exact Hack|].
  split; [exact Hnone | exact Hdb].
Defined.

(** There is no period "year". *)
Lemma logs_of_the_year :
  let w := world2 None [] server_ok in
  stdout (snd (show_logs "year" w)) = ["Invalid period specified."] /\
  db (snd (show_logs "year" w)) = db w.
Proof.
  intro w.
  assert (H1 : "year" <> "today") by discriminate.
  assert (H2 : "year" <> "week") by discriminate.
  assert (H3 : "year" <> "month") by discriminate.
  destruct (show_logs_with_an_unknown_period "year" w H1 H2 H3) as (Hout & Hdb & _).
  split; [exact Hout | exact Hdb].
Defined.

Lemma clock_is_valid : Calendar.valid (clock 0).
Proof. repeat split; vm_compute; discriminate. Qed.

(** Saturday 15 June 2024: the week starts on Monday the tenth, the
    month on the first. *)
Lemma week_and_month_of_the_scenario :
  let today := clock 0 in
  Calendar.valid today /\ 1001 <= Calendar.year today /\
  (exists monday title,
     period_bounds "week" today
       = Some (Calendar.strftime_date monday, "2024-06-15", title) /\
     Calendar.strftime_date monday = "2024-06-10" /\
     Calendar.weekday monday = 0) /\
  (exists first title,
     period_bounds "month" today
       = Some (Calendar.strftime_date first, "2024-06-15", title) /\
     Calendar.strftime_date first = "2024-06-01" /\
     Calendar.day first = 1).
Proof.
  intro today.
  pose proof clock_is_valid as V.
  assert (Hy : 1001 <= Calendar.year today) by (vm_compute; discriminate).
  destruct (show_logs_periods_on_the_calendar today V Hy)
    as (_ & (monday & title & Eb & _ & Hw & _ & _)
          & (first & title' & Eb' & _ & _ & Hd & _)).
  assert (E0 : period_bounds "week" today
               = Some ("2024-06-10", "2024-06-15",
                       "Logs for This Week (2024-06-10 to 2024-06-15)"))
    by (vm_compute; reflexivity).
  assert (E0' : period_bounds "month" today
                = Some ("2024-06-01", "2024-06-15",
                        "Logs for This Month (2024-06-01 to 2024-06-15)"))
    by (vm_compute; reflexivity).
  split; [exact V|]. split; [exact Hy|]. split.
  - exists monday, title. split; [exact Eb|]. split; [|exact Hw].
    congruence.
  - exists first, title'. split; [exact Eb'|]. split; [|exact Hd].
    congruence.
Defined.

(** The operator types the fifteenth of June without the zero of the
    month: the date is taken, and none of the three entries of that day
    is listed. *)
Lemma june_without_its_zero :
  let w := world2 None ["2024-6-15"] server_ok in
  let dt := Calendar.mkDatetime 2024 6 15 0 0 0 in
  Calendar.valid dt /\
  In "2024-6-15" (Calendar.spellings dt) /\
  "2024-6-15" <> Calendar.strftime_date dt /\
  In carol_first (rows (db w)) /\
  date carol_first = Calendar.strftime_date dt /\
  stdout (snd (show_custom_date_logs w)) =
    ["Enter date (YYYY-MM-DD): ";
     (Text.nl ++ "Logs for 2024-6-15:")%string;
     Text.repeat_char "=" 100; date_header; Text.repeat_char "-" 100;
     "No records found for this date."].
Proof.
  intros w dt.
  assert (V : Calendar.valid dt) by (repeat split; vm_compute; discriminate).
  assert (Hs : In (Text.strip (reply_at w (reads w))) (Calendar.spellings dt))
    by (vm_compute; right; left; reflexivity).
  assert (Hne : Text.strip (reply_at w (reads w)) <> Calendar.strftime_date dt)
    by (vm_compute; discriminate).
  assert (Hrows : forall r, In r (rows (db w)) ->
            exists entered,
              Calendar.valid entered /\ date r = Calendar.strftime_date entered).
  { intros r Hin. cbv [w world2 db table2 rows In] in Hin.
    destruct Hin as [<- | [<- | [<- | [<- | [<- | []]]]]].
    - exists (Calendar.mkDatetime 2024 5 1 0 0 0).
      split; [repeat split; vm_compute; discriminate | reflexivity].
    - exists (Calendar.mkDatetime 2024 6 5 0 0 0).
      split; [repeat split; vm_compute; discriminate | reflexivity].
    - exists dt. split; [exact V | reflexivity].
    - exists dt. split; [exact V | reflexivity].
    - exists dt. split; [exact V | reflexivity]. }
  destruct (unpadded_date_lists_nothing dt w V Hs Hne Hrows) as [_ Hout].
  split; [exact V|]. split; [exact Hs|]. split; [exact Hne|].
  split; [right; right; left; reflexivity|]. split; [reflexivity|].
  exact Hout.
Defined.

(** In logger.py the operator picks option 1 and types blanks: a row
    without a name is stored. *)
Lemma logger_entry_without_a_name :
  let w := world1 ["1"; "   "; "allowed"] in
  Text.strip (reply_at w (reads w)) = "1" /\
  Text.strip (reply_at w (S (reads w))) = "" /\
  exists r,
    rows (db (snd (LoggerMain.menu w))) = (rows (db w) ++ [r])%list /\
    name r = "".
Proof.
  intro w.
  destruct (logger_menu_stores_a_blank_name w eq_refl eq_refl)
    as (_ & r & E & Hn & _).
  split; [reflexivity|]. split; [reflexivity|].
  exists r. split; [exact E | exact Hn].
Defined.

(** The server is busy through a session in which the operator asks for
    the archival and confirms: the five records are still there. *)
Lemma busy_server_session :
  let w := world2 (Some enabled_config) ["7"; "yes"; "10"] server_busy in
  (forall req, accepted (server w req) = false) /\
  incl [1; 2; 3; 4; 5]
       (map (@id Z) (rows (db (snd (Process.main_loop 5 Process.initial w))))).
Proof.
  intro w.
  assert (Hsrv : forall req, accepted (server w req) = false)
    by (intro req; reflexivity).
  split; [exact Hsrv|].
  exact (session_without_acknowledgement_loses_no_record
           5 Process.initial w Hsrv).
Defined.

(** A session in which the operator asks for bob's exit: bob, who was
    turned away, has no exit time at the end. *)
Lemma bob_through_a_session :
  let w := world2 None ["2"; "bob"; "10"] server_ok in
  let w' := snd (Process.main_loop 3 Process.initial w) in
  pk_unique (db w) /\ pk_unique (db w') /\
  forall r', In r' (rows (db w')) -> result r' <> "allowed" ->
             exit_time r' <> None -> In r' (rows (db w)).
Proof.
  intros w w'.
  pose proof table2_pk_unique as Hu.
  destruct (menu_never_closes_an_entry_not_allowed 3 Process.initial w Hu)
    as [Hu' H].
  split; [exact Hu|]. split; [exact Hu' | exact H].
Defined.

(** The whole of that session, as it ends. *)
Example session_with_bob :
  let r := Process.main 3 (TableV2 table2)
             (world2 None ["2"; "bob"; "10"] server_ok) in
  fst r = (true, Process.initial) /\
  rows (db (snd r)) = rows table2 /\
  config_file (snd r) = Some DEFAULT_CONFIG /\
  nth 19 (stdout (snd r)) "" =
    "No existing entry record found today for bob to mark exit." /\
  last (stdout (snd r)) "" = "Quitting. Goodbye!".
Proof. vm_compute. repeat split; reflexivity. Qed.

(** A table of logger.py is taken over by logger2.py with its records. *)
Example logger2_after_logger :
  init_db (TableV1 table1) =
    TableV2 (mkTable
      [mkRow 1 "bob" "2024-06-15" (Some "09:00:00") None "denied"
             (Some "no badge") 0;
       mkRow 2 "carol" "2024-06-15" (Some "08:00:00") None "allowed" None 0]
      2) /\
  Process.init_db_messages (TableV1 table1) =
    ["Adding 'synced' column to existing table...";
     "Column added successfully."; "Database initialized."].
Proof. split; reflexivity. Qed.

(** The operator answers with blanks that are not ASCII, a no-break
    space (C2 A0) and an ideographic space (E3 80 80): [strip] removes
    them.  Only such blanks for the new URL leave the file as it was, and
    "yes" with a no-break space after it confirms the purge. *)
Example blanks_beyond_ascii :
  let nbsp := String (ascii_of_nat 194) (String (ascii_of_nat 160) "") in
  let wide := String (ascii_of_nat 227)
                (String (ascii_of_nat 128) (String (ascii_of_nat 128) "")) in
  Text.strip (wide ++ "2024-06-15" ++ nbsp) = "2024-06-15" /\
  config_file (snd (Process.configure_server Process.initial
                      (world2 (Some enabled_config) ["1" ++ nbsp; nbsp ++ wide]
                              server_ok)))
    = Some enabled_config /\
  rows (db (snd (sync_and_cleanup
                   (world2 (Some enabled_config) ["yes" ++ nbsp] server_ok))))
    = [bob_denied; carol_first; carol_second; alice_today].
Proof. vm_compute. repeat split; reflexivity. Qed.

(** What [str] and [repr] give for the values of a configuration. *)
Example py_str_of_settings :
  map Repr.py_str
      [JStr "http://x"; JBool true; JBool false; JNull; JInt (-7); JInt 0;
       JArr [JStr "a'b"; JInt 1]; JObj [("k", JStr "v")]]
  = ["http://x"; "True"; "False"; "None"; "-7"; "0";
     String "[" (String Repr.dquote "a'b") ++ String Repr.dquote ", 1]";
     "{'k': 'v'}"].
Proof. vm_compute. reflexivity. Qed.

(** What [show_sync_status] prints on the scenario. *)
Example sync_status_of_the_scenario :
  stdout (snd (Process.show_sync_status Process.initial
                 (world2 (Some enabled_config) [] server_ok))) =
  [(Text.nl ++ Process.rule)%string; "SYNC STATUS"; Process.rule;
   "Sync Enabled: True";
   "Server URL: https://archive.example/api/access-logs";
   "Records older than 30 days: 1"; Process.rule].
Proof. vm_compute. reflexivity. Qed.

(** The operator switches the sync off where there is no configuration
    file: the file is created, shown and written again. *)
Example sync_switched_off :
  let w' := snd (Process.configure_server Process.initial
                   (world2 None ["3"; " No "] server_ok)) in
  config_file w' = Some DEFAULT_CONFIG /\
  firstn 2 (stdout w') =
    ["Created default config file: server_config.json";
     "Please update with your server details."] /\
  firstn 3 (skipn 6 (stdout w')) =
    ["  Server URL: http://your-server.com/api/access-logs";
     "  API Key: your-api-key-here"; "  Sync Enabled: False"] /\
  last (stdout w') "" = "✓ Sync disabled.".
Proof. vm_compute. repeat split; reflexivity. Qed.

(* ===================================================================== *)
(** * Further properties: what the listings show *)
(* ===================================================================== *)

Section LayoutFacts.

Lemma string_app_assoc (a b c : string) : ((a ++ b) ++ c = a ++ (b ++ c))%string.
Proof. induction a as [|x a IH]; [reflexivity|]. simpl. now rewrite IH. Qed.

Lemma len_app (a b : string) :
  Text.len (a ++ b) = (Text.len a + Text.len b)%nat.
Proof.
  induction a as [|c a IH]; [reflexivity|].
  simpl. destruct (Text.is_continuation c); rewrite IH; reflexivity.
Qed.

Lemma len_spaces (n : nat) : Text.len (Text.repeat_char " " n) = n.
Proof. induction n as [|n IH]; [reflexivity|]. simpl. now rewrite IH. Qed.

(** The padding of an f-string never cuts the text. *)
Lemma ljust_len (w : nat) (s : string) :
  Text.len (Text.ljust w s) = Nat.max w (Text.len s).
Proof. unfold Text.ljust. rewrite len_app, len_spaces. lia. Qed.

End LayoutFacts.

(** X28. The listings show the rows asked for, each as often as the
    table holds it, and no other: [show_today] of logger.py the rows
    whose date is the text of the clock's date; [show_logs] the rows
    whose date lies between the two bounds of the period; and
    [show_custom_date_logs] the rows whose date is the text typed.  The
    listings of logger2.py print one line for each of them and their
    number, or that there are none. *)
Theorem listings_show_the_rows_asked_for :
  (forall (w : Logger.W),
     let date := fst (Logger.get_today_date_str w) in
     Permutation (Logger.select_today date (db w))
                 (filter (fun r => String.eqb (Store.date r) date) (rows (db w))) /\
     exists header,
       stdout (snd (Logger.show_today w)) =
         (stdout w ++ header
          ++ map Logger.today_line (Logger.select_today date (db w)))%list) /\
  (forall (period start_date end_date title : string) (w : W),
     period_bounds period (now_at w (ticks w))
       = Some (start_date, end_date, title) ->
     let shown := select_period start_date end_date (db w) in
     Permutation shown
       (filter (fun r => String.leb start_date (date r)
                         && String.leb (date r) end_date) (rows (db w))) /\
     exists header,
       stdout (snd (show_logs period w)) =
         (stdout w ++ header
          ++ match shown with
             | [] => ["No records found for this period."]
             | _ => map period_line shown
                    ++ [(Text.nl ++ "Total records: "
                         ++ Text.str_of_nat (List.length shown))%string]
             end)%list) /\
  (forall (d : Calendar.datetime) (w : W),
     let date_str := Text.strip (reply_at w (reads w)) in
     Calendar.strptime_Ymd date_str = Some d ->
     let shown := select_date date_str (db w) in
     Permutation shown
       (filter (fun r => String.eqb (date r) date_str) (rows (db w))) /\
     exists header,
       stdout (snd (show_custom_date_logs w)) =
         (stdout w ++ header
          ++ match shown with
             | [] => ["No records found for this date."]
             | _ => map date_line shown
                    ++ [(Text.nl ++ "Total records: "
                         ++ Text.str_of_nat (List.length shown))%string]
             end)%list).
Proof.
  split; [|split].
  - intros w date. split; [apply select_today_spec|].
    destruct (show_today_run w) as [_ Hout].
    eexists. exact Hout.
  - intros period s e title w Hb shown. split; [apply select_period_spec|].
    destruct (show_logs_run period w) as (_ & _ & _ & Hout).
    rewrite Hb in Hout. eexists. rewrite Hout. reflexivity.
  - intros d w date_str Hd shown. split; [apply select_date_spec|].
    destruct (show_custom_date_logs_run w) as (_ & _ & _ & _ & Hout).
    cbv zeta in Hout. fold date_str in Hout. rewrite Hd in Hout.
    exists ["Enter date (YYYY-MM-DD): ";
            (Text.nl ++ "Logs for " ++ date_str ++ ":")%string;
            Text.repeat_char "=" 100; date_header; Text.repeat_char "-" 100].
    rewrite Hout. reflexivity.
Qed.

(** X29. The lines of the listings never cut a field: counted in
    characters, each cell is as wide as its column or as its text,
    whichever is larger.  So the lines line up with the header when the
    fields fit: for a row whose name has at most 20 characters and whose
    entry time, exit time and result have at most 10 (and, in
    [show_logs], whose date has at most 12), the reason starts at the
    column at which the header has "Reason": 62 characters in for
    [show_today], 88 for [show_logs], 73 for [show_custom_date_logs].  A
    longer field pushes the rest of its line to the right. *)
Theorem listing_columns_line_up :
  (forall r : row unit,
     Text.len (Logger.today_line r) =
       (Nat.max 20 (Text.len (name r)) + 3
        + Nat.max 10 (Text.len (Lifecycle.or_empty (entry_time r))) + 3
        + Nat.max 10 (Text.len (Lifecycle.or_empty (exit_time r))) + 3
        + Nat.max 10 (Text.len (result r)) + 3
        + Text.len (Lifecycle.or_empty (reason r)))%nat /\
     ((Text.len (name r) <= 20)%nat ->
      (Text.len (Lifecycle.or_empty (entry_time r)) <= 10)%nat ->
      (Text.len (Lifecycle.or_empty (exit_time r)) <= 10)%nat ->
      (Text.len (result r) <= 10)%nat ->
      exists cells,
        Logger.today_line r = (cells ++ Lifecycle.or_empty (reason r))%string /\
        Text.len cells = 62%nat)) /\
  (forall r : row Z,
     Text.len (period_line r) =
       (Nat.max 12 (Text.len (date r)) + 3
        + Nat.max 20 (Text.len (name r)) + 3
        + Nat.max 10 (Text.len (Lifecycle.or_empty (entry_time r))) + 3
        + Nat.max 10 (Text.len (Lifecycle.or_empty (exit_time r))) + 3
        + Nat.max 10 (Text.len (result r)) + 3
        + 8 + 3 + Text.len (Lifecycle.or_empty (reason r)))%nat /\
     Text.len (date_line r) =
       (Nat.max 20 (Text.len (name r)) + 3
        + Nat.max 10 (Text.len (Lifecycle.or_empty (entry_time r))) + 3
        + Nat.max 10 (Text.len (Lifecycle.or_empty (exit_time r))) + 3
        + Nat.max 10 (Text.len (result r)) + 3
        + 8 + 3 + Text.len (Lifecycle.or_empty (reason r)))%nat /\
     ((Text.len (name r) <= 20)%nat ->
      (Text.len (Lifecycle.or_empty (entry_time r)) <= 10)%nat ->
      (Text.len (Lifecycle.or_empty (exit_time r)) <= 10)%nat ->
      (Text.len (result r) <= 10)%nat ->
      (exists cells,
         date_line r = (cells ++ Lifecycle.or_empty (reason r))%string /\
         Text.len cells = 73%nat) /\
      ((Text.len (date r) <= 12)%nat ->
       exists cells,
         period_line r = (cells ++ Lifecycle.or_empty (reason r))%string /\
         Text.len cells = 88%nat))) /\
  (forall w : Logger.W,
     exists title rule,
       stdout (snd (Logger.show_today w)) =
         (stdout w
          ++ [title;
              "Name                 | Entry      | Exit       | Result     | Reason";
              rule]
          ++ map Logger.today_line
               (Logger.select_today (fst (Logger.get_today_date_str w)) (db w)))%list) /\
  Text.len "Name                 | Entry      | Exit       | Result     | " = 62%nat /\
  Text.len period_header = (88 + Text.len "Reason")%nat /\
  Text.len date_header = (73 + Text.len "Reason")%nat.
Proof.
  split; [|split; [|split; [|split; [|split]]]].
  - intro r. split.
    + unfold Logger.today_line, Logger.or_empty. cbv zeta.
      rewrite !len_app, !ljust_len. change (Text.len " | ") with 3%nat. lia.
    + intros Hn He Hx Hr.
      exists (Text.ljust 20 (name r) ++ " | "
              ++ Text.ljust 10 (Lifecycle.or_empty (entry_time r)) ++ " | "
              ++ Text.ljust 10 (Lifecycle.or_empty (exit_time r)) ++ " | "
              ++ Text.ljust 10 (result r) ++ " | ")%string.
      split.
      * unfold Logger.today_line, Logger.or_empty. cbv zeta.
        rewrite !string_app_assoc. reflexivity.
      * rewrite !len_app, !ljust_len. change (Text.len " | ") with 3%nat. lia.
  - intro r. split; [|split].
    + unfold period_line, Logger2.or_empty. cbv zeta.
      rewrite !len_app, !ljust_len. change (Text.len " | ") with 3%nat.
      unfold sync_status. destruct (synced r =? 0);
          change (Text.len "Yes") with 3%nat;
          change (Text.len "No") with 2%nat; lia.
    + unfold date_line, Logger2.or_empty. cbv zeta.
      rewrite !len_app, !ljust_len. change (Text.len " | ") with 3%nat.
      unfold sync_status. destruct (synced r =? 0);
          change (Text.len "Yes") with 3%nat;
          change (Text.len "No") with 2%nat; lia.
    + intros Hn He Hx Hr. split.
      * exists (Text.ljust 20 (name r) ++ " | "
                ++ Text.ljust 10 (Lifecycle.or_empty (entry_time r)) ++ " | "
                ++ Text.ljust 10 (Lifecycle.or_empty (exit_time r)) ++ " | "
                ++ Text.ljust 10 (result r) ++ " | "
                ++ Text.ljust 8 (sync_status r) ++ " | ")%string.
        split.
        -- unfold date_line, Logger2.or_empty. cbv zeta.
           rewrite !string_app_assoc. reflexivity.
        -- rewrite !len_app, !ljust_len. change (Text.len " | ") with 3%nat.
           unfold sync_status. destruct (synced r =? 0);
          change (Text.len "Yes") with 3%nat;
          change (Text.len "No") with 2%nat; lia.
      * intro Hd.
        exists (Text.ljust 12 (date r) ++ " | "
                ++ Text.ljust 20 (name r) ++ " | "
                ++ Text.ljust 10 (Lifecycle.or_empty (entry_time r)) ++ " | "
                ++ Text.ljust 10 (Lifecycle.or_empty (exit_time r)) ++ " | "
                ++ Text.ljust 10 (result r) ++ " | "
                ++ Text.ljust 8 (sync_status r) ++ " | ")%string.
        split.
        -- unfold period_line, Logger2.or_empty. cbv zeta.
           rewrite !string_app_assoc. reflexivity.
        -- rewrite !len_app, !ljust_len. change (Text.len " | ") with 3%nat.
           unfold sync_status. destruct (synced r =? 0);
          change (Text.len "Yes") with 3%nat;
          change (Text.len "No") with 2%nat; lia.
  - intro w. destruct (show_today_run w) as [_ Hout].
    eexists. eexists. rewrite Hout. reflexivity.
  - reflexivity.
  - vm_compute. reflexivity.
  - vm_compute. reflexivity.
Qed.

(** A name beyond ASCII: the four characters of "José" are five bytes, the
    cell is padded to twenty characters and the reason starts at column
    62. *)
Lemma line_of_a_name_beyond_ascii :
  let jose := ("Jos" ++ String (ascii_of_nat 195) (String (ascii_of_nat 169) ""))%string in
  let r := mkRow 7 jose "2024-06-15" (Some "08:15:00") None "denied"
                 (Some "no badge") tt in
  Text.len (name r) = 4%nat /\ String.length (name r) = 5%nat /\
  Logger.today_line r =
    (jose ++ "                 | 08:15:00   |            | denied     | no badge")%string /\
  exists cells,
    Logger.today_line r = (cells ++ "no badge")%string /\ Text.len cells = 62%nat.
Proof.
  intros jose r.
  destruct listing_columns_line_up as [Htoday _].
  destruct (Htoday r) as [_ Hfit].
  split; [reflexivity|]. split; [reflexivity|]. split; [vm_compute; reflexivity|].
  apply Hfit; vm_compute; lia.
Defined.
